(** * Verification of the blog-generation agent: evaluator gate, retrieval
      pipeline and refinement loop

    The development embeds the Python sources of [agent/agents/evaluator.py],
    [agent/agents/composer.py], [agent/agents/refiner.py],
    [agent/retrieval.py] and [agent/orchestrator.py] as executable Rocq
    functions and states the documented properties about them.
    The retry loop of [agent/llm_client.py], the retriever agent of
    [agent/agents/retriever.py] and the research brief of
    [agent/retrieval.py] are embedded too, and further properties of the
    code are proved after the documented ones.

    Conventions of the embedding:
    - a Python [str] is a [string] of ASCII code points; [len] is
      [String.length], whitespace is what [str.isspace] and the regex
      class [\s] accept on ASCII;
    - a Python [int] is a [Z];
    - a similarity score (a Python float) is an exact rational [Q];
    - a dictionary with a fixed set of optional keys is a record of
      [option] fields, [d.get(k, default)] is [default] applied to the
      field;
    - a [set()] is a [gset];
    - the language-model endpoint is an oracle giving the n-th completion
      of a run, or the error it raises; the agents thread the number of
      completions requested so far and the orchestrator's log. *)

From Stdlib Require Import ZArith QArith Qminmax String Ascii List Bool Lia.
From Stdlib Require Import Permutation Sorted DecimalString.
From Stdlib Require Import Lqa.
From stdpp Require Import base option gmap strings.
Import ListNotations.

Open Scope string_scope.
Open Scope list_scope.
Open Scope Z_scope.

(* ================================================================== *)
(** * Part I: definitions                                              *)
(* ================================================================== *)

(** ** Python string primitives *)

Module Py.

(** The line feed; Rocq string literals have no escape for it. *)
Definition nl : ascii := "010"%char.
Definition NL : string := String nl EmptyString.

(** [len(s)] *)
Definition len (s : string) : Z := Z.of_nat (String.length s).

(** [str.isspace] on one ASCII code point: TAB, LF, VT, FF, CR, the
    four separators FS GS RS US, and the blank. The regex class [\s]
    accepts the same code points. *)
Definition isspace (c : ascii) : bool :=
  let n := N_of_ascii c in
  ((9 <=? n) && (n <=? 13) || (28 <=? n) && (n <=? 32))%N.

Definition upper_char (c : ascii) : ascii :=
  let n := N_of_ascii c in
  if ((97 <=? n) && (n <=? 122))%N then ascii_of_N (n - 32) else c.

Definition lower_char (c : ascii) : ascii :=
  let n := N_of_ascii c in
  if ((65 <=? n) && (n <=? 90))%N then ascii_of_N (n + 32) else c.

Fixpoint map_chars (f : ascii -> ascii) (s : string) : string :=
  match s with
  | EmptyString => EmptyString
  | String c r => String (f c) (map_chars f r)
  end.

(** [s.upper()] and [s.lower()] *)
Definition upper : string -> string := map_chars upper_char.
Definition lower : string -> string := map_chars lower_char.

(** [s.lstrip()], [s.rstrip()], [s.strip()] *)
Fixpoint lstrip (s : string) : string :=
  match s with
  | EmptyString => EmptyString
  | String c r => if isspace c then lstrip r else s
  end.

Fixpoint rstrip (s : string) : string :=
  match s with
  | EmptyString => EmptyString
  | String c r =>
      match rstrip r with
      | EmptyString => if isspace c then EmptyString else String c EmptyString
      | r' => String c r'
      end
  end.

Definition strip (s : string) : string := lstrip (rstrip s).

(** [s.split()]: the maximal runs of non-whitespace characters. *)
Fixpoint split_ws (s : string) : list string :=
  match s with
  | EmptyString => []
  | String c r =>
      if isspace c then split_ws r
      else
        match r with
        | EmptyString => [String c EmptyString]
        | String c' _ =>
            if isspace c' then String c EmptyString :: split_ws r
            else
              match split_ws r with
              | w :: ws => String c w :: ws
              | [] => [String c EmptyString]
              end
        end
  end.

(** [len(s.split())] *)
Definition word_count_of (s : string) : Z := Z.of_nat (length (split_ws s)).

(** [s.split(sep)] for a one-character separator: never empty. *)
Fixpoint split_char (sep : ascii) (s : string) : list string :=
  match s with
  | EmptyString => [EmptyString]
  | String c r =>
      if Ascii.eqb c sep then EmptyString :: split_char sep r
      else
        match split_char sep r with
        | w :: ws => String c w :: ws
        | [] => [String c EmptyString]
        end
  end.

(** [s.split(sep, 1)[1]] when [sep in s], for a one-character
    separator: what follows its first occurrence. *)
Fixpoint after_first (sep : ascii) (s : string) : option string :=
  match s with
  | EmptyString => None
  | String c r => if Ascii.eqb c sep then Some r else after_first sep r
  end.

(** [sep.join(parts)] *)
Definition join (sep : string) (parts : list string) : string :=
  String.concat sep parts.

(** [sub in s] *)
Fixpoint contains (sub s : string) : bool :=
  String.prefix sub s ||
  match s with
  | EmptyString => false
  | String _ r => contains sub r
  end.

(** [s.find(sub)], [None] for -1 *)
Fixpoint find (sub s : string) : option nat :=
  if String.prefix sub s then Some 0%nat
  else
    match s with
    | EmptyString => None
    | String _ r => option_map S (find sub r)
    end.

(** [s[:n]] and [s[n:]] for a non-negative [n] *)
Definition take (n : nat) (s : string) : string := substring 0 n s.
Definition drop (n : nat) (s : string) : string :=
  substring n (String.length s - n) s.

(** [l[:k]] on a list, with Python's reading of a negative bound *)
Definition list_take {A : Type} (k : Z) (l : list A) : list A :=
  if 0 <=? k then firstn (Z.to_nat k) l
  else firstn (Z.to_nat (Z.of_nat (length l) + k)) l.

(** [str(n)] and the [{n}] of an f-string *)
Definition str_of_Z (n : Z) : string := NilZero.string_of_int (Z.to_int n).

(** *** The three heading patterns, all used with [re.MULTILINE]

    Each pattern is anchored by [^], so a match starts at the first
    character of the string or just after a line feed. A match starts
    with [#] and whitespace is never [#], so matches cannot overlap
    and [re.findall] finds every anchored position. *)

(** [#\s+] matched at the head of [s] *)
Definition h1_here (s : string) : bool :=
  match s with
  | String "#" (String c _) => isspace c
  | _ => false
  end.

(** [##\s+] matched at the head of [s] *)
Definition h2_here (s : string) : bool :=
  match s with
  | String "#" (String "#" (String c _)) => isspace c
  | _ => false
  end.

(** [#*\s] matched at the head of [s] *)
Fixpoint hashes_then_space (s : string) : bool :=
  match s with
  | EmptyString => false
  | String c r =>
      if Ascii.eqb c "#" then hashes_then_space r else isspace c
  end.

(** [#+\s+] matched at the head of [s] *)
Definition hn_here (s : string) : bool :=
  match s with
  | String "#" r => hashes_then_space r
  | _ => false
  end.

(** Number of line starts of [s] at which [here] matches; [bol] tells
    whether the head of [s] is a line start. *)
Fixpoint count_line_starts (here : string -> bool) (bol : bool) (s : string)
  : nat :=
  match s with
  | EmptyString => 0%nat
  | String c r =>
      ((if bol && here s then 1 else 0)
       + count_line_starts here (Ascii.eqb c nl) r)%nat
  end.

(** [len(re.findall(pattern, s, re.MULTILINE))] *)
Definition findall_count (here : string -> bool) (s : string) : Z :=
  Z.of_nat (count_line_starts here true s).

(** [bool(re.search(pattern, s, re.MULTILINE))] *)
Definition search (here : string -> bool) (s : string) : bool :=
  0 <? findall_count here s.

End Py.

(** ** Data model ([agent/models.py] and the agents' dictionaries) *)

(** [GenerationSpec] *)
Record GenerationSpec := mkSpec {
  spec_topic : string;
  spec_style : string;
  spec_length : string;
  spec_categories : list string;
  spec_tags : list string;
  spec_keywords : list string;
  spec_tone : string;
  min_words : Z;
  max_words : Z
}.

(** The draft dictionary passed between the agents. A composed or
    refined draft has [content], [word_count], [topic], [spec] and
    [iteration]; a failed composition has only [error], [topic] and
    [spec]; a failed refinement is the previous draft with [error]
    added. *)
Record Draft := mkDraft {
  d_content : option string;
  d_word_count : option Z;
  d_topic : option string;
  d_spec : option GenerationSpec;
  d_iteration : option Z;
  d_error : option string
}.

(** [not draft]: a dictionary is falsy exactly when it has no key. *)
Definition draft_is_empty (d : Draft) : bool :=
  match d_content d, d_word_count d, d_topic d, d_spec d, d_iteration d,
        d_error d with
  | None, None, None, None, None, None => true
  | _, _, _, _, _, _ => false
  end.

(** The [checks] dictionary of the evaluator. *)
Record Checks := mkChecks {
  chk_structure : bool;
  chk_word_count : bool;
  chk_markdown : bool
}.

(** The result of [_perform_basic_validation]. *)
Record BasicValidation := mkBasic {
  passed : bool;
  checks : Checks;
  basic_feedback : string
}.

(** The result of [_parse_evaluation_response]. *)
Record Verdict := mkVerdict {
  v_approved : bool;
  v_feedback : string
}.

(** The result of [evaluate_draft]. *)
Record Evaluation := mkEvaluation {
  ev_approved : bool;
  ev_feedback : string;
  validation_details : option BasicValidation;
  llm_evaluation : option Verdict;
  eval_error : option string
}.

(** ** The language-model endpoint and the effects of a run *)

(** What one call of [llm_client.chat] or [llm_client.generate] gives:
    the completion, or the error it raises. *)
Inductive llm_reply :=
| Reply (text : string)
| LLMError (message : string).

(** The endpoint: its n-th answer during the run. *)
Definition LLM := nat -> llm_reply.

(** The orchestrator's log lines, and its pause between iterations. *)
Inductive event :=
| IterationStarted (number cap : Z)
| RefinementFailed (message : string)
| DraftApproved (number : Z)
| DraftRejected (reason : string)
| Paused
| MaxIterationsReached
| FallbackToInitialDraft.

Record world := mkWorld {
  llm_calls : nat;
  trace : list event
}.

(** A computation that may call the endpoint and write to the log. *)
Definition M (A : Type) : Type := world -> A * world.

Definition ret {A : Type} (a : A) : M A := fun w => (a, w).

Definition bind {A B : Type} (m : M A) (k : A -> M B) : M B :=
  fun w => let '(a, w') := m w in k a w'.

Notation "'let*' x ':=' m 'in' k" := (bind m (fun x => k))
  (at level 10, x name, m at level 100, k at level 200).

(** One request to the endpoint. *)
Definition chat (llm : LLM) : M llm_reply :=
  fun w => (llm (llm_calls w), mkWorld (S (llm_calls w)) (trace w)).

(** One line appended to the log. *)
Definition log (e : event) : M unit :=
  fun w => (tt, mkWorld (llm_calls w) (trace w ++ [e])).

(** ** [agent/agents/evaluator.py] *)

Definition _check_structure (content : string) : bool :=
  let has_h1 := Py.search Py.h1_here (Py.strip content) in
  let has_sections := 2 <=? Py.findall_count Py.h2_here content in
  let has_content_length := 100 <=? Py.word_count_of content in
  has_h1 && has_sections && has_content_length.

Definition _check_word_count (word_count : Z) (spec : GenerationSpec) : bool :=
  (min_words spec <=? word_count) && (word_count <=? max_words spec).

Definition _check_markdown_formatting (content : string) : bool :=
  let has_proper_headers := Py.search Py.hn_here content in
  has_proper_headers.

Definition word_count_message (word_count : Z) (spec : GenerationSpec)
  : string :=
  "Word count (" +:+ Py.str_of_Z word_count +:+ ") not in range "
  +:+ Py.str_of_Z (min_words spec) +:+ "-" +:+ Py.str_of_Z (max_words spec).

Definition structure_message : string :=
  "Missing proper introduction, body, or conclusion sections".

Definition markdown_message : string :=
  "Markdown formatting issues detected".

Definition _perform_basic_validation (draft : Draft) (spec : GenerationSpec)
  : BasicValidation :=
  let content := default EmptyString (d_content draft) in
  let word_count := default 0 (d_word_count draft) in
  let checks :=
    {| chk_structure := _check_structure content;
       chk_word_count := _check_word_count word_count spec;
       chk_markdown := _check_markdown_formatting content |} in
  let passed :=
    chk_structure checks && chk_word_count checks && chk_markdown checks in
  let feedback_parts := [] in
  let feedback_parts :=
    if negb (chk_word_count checks)
    then feedback_parts ++ [word_count_message word_count spec]
    else feedback_parts in
  let feedback_parts :=
    if negb (chk_structure checks)
    then feedback_parts ++ [structure_message]
    else feedback_parts in
  let feedback_parts :=
    if negb (chk_markdown checks)
    then feedback_parts ++ [markdown_message]
    else feedback_parts in
  {| passed := passed;
     checks := checks;
     basic_feedback :=
       match feedback_parts with
       | [] => "All basic checks passed"
       | _ => Py.join "; " feedback_parts
       end |}.

Definition _parse_evaluation_response (response : string) : Verdict :=
  let response_upper := Py.upper response in
  if String.prefix "APPROVED" response_upper then
    {| v_approved := true;
       v_feedback := "Content meets quality standards" |}
  else if String.prefix "REJECTED" response_upper then
    let feedback :=
      match Py.after_first Py.nl response with
      | Some rest => rest
      | None => "Content needs improvement"
      end in
    {| v_approved := false; v_feedback := Py.strip feedback |}
  else
    {| v_approved := false;
       v_feedback :=
         "Unable to determine approval status from evaluation response" |}.

(** [evaluate_draft]: the mechanical checks first; the endpoint is asked
    only when they all pass, and any error it raises is turned into a
    rejection. *)
Definition evaluate_draft (llm : LLM) (draft : Draft) (spec : GenerationSpec)
  : M Evaluation :=
  let basic_checks := _perform_basic_validation draft spec in
  if negb (passed basic_checks) then
    ret {| ev_approved := false;
           ev_feedback := basic_feedback basic_checks;
           validation_details := Some basic_checks;
           llm_evaluation := None;
           eval_error := None |}
  else
    let* reply := chat llm in
    match reply with
    | Reply response =>
        let evaluation := _parse_evaluation_response response in
        ret {| ev_approved := v_approved evaluation;
               ev_feedback := v_feedback evaluation;
               validation_details := Some basic_checks;
               llm_evaluation := Some evaluation;
               eval_error := None |}
    | LLMError e =>
        ret {| ev_approved := false;
               ev_feedback := "Evaluation failed: " +:+ e;
               validation_details := None;
               llm_evaluation := None;
               eval_error := Some e |}
    end.

(** ** [agent/agents/composer.py] *)

(** The loop of [_clean_frontmatter_from_response] over the lines after
    the opening [---]: a line that strips to [---] closes the frontmatter
    and is skipped, the lines before the first such line are dropped. *)
Fixpoint frontmatter_scan (in_frontmatter : bool) (lines : list string)
  : list string :=
  match lines with
  | [] => []
  | line :: rest =>
      if String.eqb (Py.strip line) "---" then frontmatter_scan false rest
      else if negb in_frontmatter
           then line :: frontmatter_scan in_frontmatter rest
           else frontmatter_scan in_frontmatter rest
  end.

(** [next((line for line in lines if line.strip()), default)] *)
Fixpoint first_content_line (lines : list string) : string :=
  match lines with
  | [] => EmptyString
  | line :: rest =>
      match Py.strip line with
      | EmptyString => first_content_line rest
      | _ => line
      end
  end.

Definition _clean_frontmatter_from_response (response : string) : string :=
  let lines := Py.split_char Py.nl (Py.strip response) in
  let cleaned_lines :=
    match lines with
    | first :: rest =>
        if String.eqb first "---" then frontmatter_scan true rest else []
    | [] => []
    end in
  match cleaned_lines with
  | _ :: _ => Py.lstrip (Py.join Py.NL cleaned_lines)
  | [] =>
      let first := hd EmptyString lines in
      let fcl := first_content_line lines in
      if negb (String.prefix "# " first)
         && negb (String.eqb fcl EmptyString)
         && negb (String.prefix "# " fcl)
         && negb (String.prefix "#" fcl)
      then "# " +:+ fcl +:+ Py.NL +:+ Py.NL +:+ Py.join Py.NL (tl lines)
      else Py.strip response
  end.

(** The dictionary returned by [RetrieverAgent.search_and_synthesize]. *)
Record RetrieverOutput := mkRetrieverOutput {
  summary : string;
  excerpts : list string;
  source_count : Z
}.

(** [compose_draft]. The prompt is built from the topic, the retriever
    output and the spec; the endpoint oracle answers whatever it is
    asked, so the prompt text is not part of the model. The word count
    is taken from the raw response, the content from the cleaned one. *)
Definition compose_draft (llm : LLM) (topic : string)
    (retriever_output : RetrieverOutput) (spec : GenerationSpec) : M Draft :=
  let* reply := chat llm in
  match reply with
  | Reply response =>
      let full_content := _clean_frontmatter_from_response response in
      let content_word_count := Py.word_count_of response in
      ret {| d_content := Some full_content;
             d_word_count := Some content_word_count;
             d_topic := Some topic;
             d_spec := Some spec;
             d_iteration := Some 1;
             d_error := None |}
  | LLMError e =>
      ret {| d_content := None;
             d_word_count := None;
             d_topic := Some topic;
             d_spec := Some spec;
             d_iteration := None;
             d_error := Some e |}
  end.

(** ** [agent/agents/refiner.py] *)

(** The dictionary literal that puts [error] first and then unpacks
    [draft]: the keys of [draft] come last, so an [error] already in the
    draft is the one that stays. *)
Definition with_error (message : string) (draft : Draft) : Draft :=
  {| d_content := d_content draft;
     d_word_count := d_word_count draft;
     d_topic := d_topic draft;
     d_spec := d_spec draft;
     d_iteration := d_iteration draft;
     d_error :=
       match d_error draft with
       | Some old => Some old
       | None => Some message
       end |}.

(** The frontmatter block that [refine_draft] keeps in front of the
    refined body: for a content starting with [---] that has a second
    [---], everything up to and including it, then a blank line. *)
Definition leading_frontmatter (content : string) : string :=
  if String.prefix "---" content then
    let rest := Py.drop 3 content in
    match Py.find "---" rest with
    | Some i => "---" +:+ Py.take i rest +:+ "---" +:+ Py.NL +:+ Py.NL
    | None => EmptyString
    end
  else EmptyString.

(** [refine_draft]. A missing [content] or [topic] key and an error of
    the endpoint are caught and give the previous draft with an [error]
    key; a successful pass gives a new draft whose [iteration] is one
    more than the previous one. The feedback only enters the prompt. *)
Definition refine_draft (llm : LLM) (draft : Draft) (spec : GenerationSpec)
    (feedback : option string) : M Draft :=
  match d_content draft with
  | None => ret (with_error "Refinement failed: 'content'" draft)
  | Some content =>
      let frontmatter := leading_frontmatter content in
      let* reply := chat llm in
      match reply with
      | LLMError e => ret (with_error ("Refinement failed: " +:+ e) draft)
      | Reply response =>
          let full_content :=
            match frontmatter with
            | EmptyString => response
            | _ => frontmatter +:+ response
            end in
          let word_count := Py.word_count_of response in
          match d_topic draft with
          | None => ret (with_error "Refinement failed: 'topic'" draft)
          | Some topic =>
              ret {| d_content := Some full_content;
                     d_word_count := Some word_count;
                     d_topic := Some topic;
                     d_spec := Some spec;
                     d_iteration := Some (default 1 (d_iteration draft) + 1);
                     d_error := None |}
          end
      end
  end.

(** ** [agent/orchestrator.py] *)

(** [WorkflowResult], with the defaults of the dataclass. *)
Record WorkflowResult := mkResult {
  success : bool;
  final_content : option Draft;
  file_path : option string;
  iterations : Z;
  approval_status : string;
  error : option string
}.

Definition failed_result (message : string) (iterations : Z)
  : WorkflowResult :=
  {| success := false;
     final_content := None;
     file_path := None;
     iterations := iterations;
     approval_status := "pending";
     error := Some message |}.

(** The [spec_data] dictionary given by the command line. *)
Record SpecData := mkSpecData {
  sd_topic : option string;
  sd_style : option string;
  sd_length : option string;
  sd_categories : option (list string);
  sd_tags : option (list string);
  sd_keywords : option (list string);
  sd_tone : option string;
  sd_min_words : option Z;
  sd_max_words : option Z
}.

(** The dictionary returned by [IngestorAgent.ingest_final_content]. *)
Record IngestionResult := mkIngestion {
  ing_success : option bool;
  ing_file_path : option string;
  ing_error : option string
}.

(** [word_counts.get(length, (1000, 1500))] *)
Definition word_counts (length : string) : Z * Z :=
  if String.eqb length "short" then (600, 1000)
  else if String.eqb length "medium" then (1000, 1500)
  else if String.eqb length "long" then (1500, 2500)
  else (1000, 1500).

(** Construction of the [GenerationSpec] from the keys of [spec_data]:
    the topic is required, the other
    fields have the defaults of the model class. [None] stands for the
    validation error raised when the topic is missing. *)
Definition make_spec (spec_data : SpecData) : option GenerationSpec :=
  match sd_topic spec_data with
  | None => None
  | Some topic =>
      Some {| spec_topic := topic;
              spec_style := default "technical" (sd_style spec_data);
              spec_length := default "medium" (sd_length spec_data);
              spec_categories := default [] (sd_categories spec_data);
              spec_tags := default [] (sd_tags spec_data);
              spec_keywords := default [] (sd_keywords spec_data);
              spec_tone := default "informative" (sd_tone spec_data);
              min_words := default 1000 (sd_min_words spec_data);
              max_words := default 1500 (sd_max_words spec_data) |}
  end.

(** [range(n)] *)
Definition range (n : Z) : list Z := map Z.of_nat (seq 0 (Z.to_nat n)).

(** Truth value of the loop's [feedback], which is [None] or a string. *)
Definition truthy (feedback : option string) : bool :=
  match feedback with
  | None | Some EmptyString => false
  | Some _ => true
  end.

Section Orchestrator.

(** The collaborators of a [BlogGenerationOrchestrator]: the endpoint
    behind the composer, refiner and evaluator agents, the retriever
    and ingestor agents, and the two configuration values it reads. *)
Variable llm : LLM.
Variable search_and_synthesize :
  string -> GenerationSpec -> Z -> M RetrieverOutput.
Variable ingest_final_content : Draft -> SpecData -> M IngestionResult.
Variable max_iterations : Z.
Variable top_k_retrieval : Z.

(** The refinement at the head of an iteration: skipped on the first
    iteration and when there is no feedback; a failed refinement is
    logged and its draft, the previous one with an [error] key, is
    what the iteration goes on with. *)
Definition refine_step (iteration : Z) (spec : GenerationSpec)
    (current_draft : Draft) (feedback : option string) : M Draft :=
  if truthy feedback && (0 <? iteration) then
    let* refined := refine_draft llm current_draft spec feedback in
    let* _ :=
      match d_error refined with
      | Some e => log (RefinementFailed e)
      | None => ret tt
      end in
    ret refined
  else ret current_draft.

(** The body of [for iteration in range(self.max_iterations)] run over
    the remaining iteration numbers, and the fall-through after it. *)
Fixpoint refinement_for (numbers : list Z) (spec : GenerationSpec)
    (current_draft : Draft) (feedback : option string) : M Draft :=
  match numbers with
  | [] =>
      let* _ := log MaxIterationsReached in
      ret current_draft
  | iteration :: later =>
      let* _ := log (IterationStarted (iteration + 1) max_iterations) in
      let* current_draft :=
        refine_step iteration spec current_draft feedback in
      let* evaluation := evaluate_draft llm current_draft spec in
      if ev_approved evaluation then
        let* _ := log (DraftApproved (iteration + 1)) in
        ret current_draft
      else
        let feedback := ev_feedback evaluation in
        let* _ := log (DraftRejected feedback) in
        let* _ := log Paused in
        refinement_for later spec current_draft (Some feedback)
  end.

(** [_iterative_refinement_loop], typed [Optional[Dict]]. *)
Definition _iterative_refinement_loop (initial_draft : Draft)
    (spec : GenerationSpec) : M (option Draft) :=
  let* final := refinement_for (range max_iterations) spec initial_draft None in
  ret (Some final).

(** [generate_blog_post] *)
Definition generate_blog_post (topic : string) (spec_data : SpecData)
  : M WorkflowResult :=
  let '(min_w, max_w) :=
    word_counts (default "medium" (sd_length spec_data)) in
  let spec_data :=
    {| sd_topic := sd_topic spec_data;
       sd_style := sd_style spec_data;
       sd_length := sd_length spec_data;
       sd_categories := sd_categories spec_data;
       sd_tags := sd_tags spec_data;
       sd_keywords := sd_keywords spec_data;
       sd_tone := sd_tone spec_data;
       sd_min_words := Some (default min_w (sd_min_words spec_data));
       sd_max_words := Some (default max_w (sd_max_words spec_data)) |} in
  match make_spec spec_data with
  | None => ret (failed_result "validation error for GenerationSpec" 0)
  | Some spec =>
      let* retriever_output :=
        search_and_synthesize topic spec top_k_retrieval in
      match summary retriever_output with
      | EmptyString =>
          ret (failed_result "Failed to retrieve relevant context" 0)
      | _ =>
          let* draft := compose_draft llm topic retriever_output spec in
          match d_error draft with
          | Some e => ret (failed_result ("Composition failed: " +:+ e) 0)
          | None =>
              let* looped := _iterative_refinement_loop draft spec in
              let* final_draft :=
                match looped with
                | Some d =>
                    if draft_is_empty d then
                      let* _ := log FallbackToInitialDraft in ret draft
                    else ret d
                | None =>
                    let* _ := log FallbackToInitialDraft in ret draft
                end in
              let* ingestion_result :=
                ingest_final_content final_draft spec_data in
              if negb (default false (ing_success ingestion_result)) then
                ret (failed_result
                       ("Ingestion failed: "
                        +:+ default "Unknown error"
                              (ing_error ingestion_result))
                       (default 1 (d_iteration final_draft)))
              else
                ret {| success := true;
                       final_content := Some final_draft;
                       file_path := ing_file_path ingestion_result;
                       iterations := default 1 (d_iteration final_draft);
                       approval_status := "approved";
                       error := None |}
          end
      end
  end.

End Orchestrator.

(** ** [agent/retrieval.py] *)

(** The keys of a document's [metadata] that the retrieval code reads
    or writes. *)
Record Metadata := mkMeta {
  m_title : option string;
  m_source_file : option string;
  m_date : option string;
  m_relevance_score : option Q;
  m_final_score : option Q
}.

(** [Document] *)
Record Document := mkDoc {
  page_content : string;
  metadata : Metadata
}.

(** [a < b], and the built-ins [min(a, b)] and [max(a, b)], which give
    their first argument unless the second is strictly better. *)
Definition Qltb (a b : Q) : bool := negb (Qle_bool b a).
Definition py_min (a b : Q) : Q := if Qltb b a then b else a.
Definition py_max (a b : Q) : Q := if Qltb a b then b else a.

(** [l.sort(key=key, reverse=True)]. Python's sort is stable, also in
    reverse: the result is the descending arrangement in which items
    with equal keys keep their order. Insertion from the right, each
    item placed before the first item whose key is not greater,
    computes that arrangement. *)
Fixpoint insert_desc {A : Type} (key : A -> Q) (x : A) (l : list A)
  : list A :=
  match l with
  | [] => [x]
  | y :: r => if Qltb (key x) (key y) then y :: insert_desc key x r
              else x :: l
  end.

Fixpoint sort_desc {A : Type} (key : A -> Q) (l : list A) : list A :=
  match l with
  | [] => []
  | x :: r => insert_desc key x (sort_desc key r)
  end.

(** The state of the loop of [assemble_context_window]. *)
Record Assembly := mkAssembly {
  context_parts : list string;
  included_sources : gset string;
  total_chars : Z
}.

Definition separator : string :=
  Py.NL +:+ Py.NL +:+ "---" +:+ Py.NL +:+ Py.NL.

Section Retrieval.

(** What the retrieval code takes from outside the repository:
    - [hash]: the built-in hash of a string;
    - [days_old]: the age in days, today, of an ISO date
      ([datetime.fromisoformat] and [datetime.now]), [None] when the
      date does not parse;
    - [month_year]: an ISO date printed with [strftime("%B %Y")],
      [None] when the date does not parse;
    - [similarity_search]: the vector store queried with the filters of
      the call, [None] when it raises;
    - [within_overhead n m]: the floating-point test [n < m * 1.1];
    - [llm]: the endpoint used for query expansion. *)
Variable hash : string -> Z.
Variable days_old : string -> option Z.
Variable month_year : string -> option string.
Variable similarity_search : string -> Z -> option (list Document).
Variable within_overhead : Z -> Z -> bool.
Variable llm : LLM.

(** [expand_query]: the original query and up to three suggested
    ones; the original alone when the endpoint fails. *)
Definition expand_query (query : string) : M (list string) :=
  let* reply := chat llm in
  match reply with
  | Reply response =>
      let expanded_queries :=
        List.filter (fun q => negb (String.eqb q EmptyString))
                    (map Py.strip (Py.split_char Py.nl response)) in
      ret (query :: Py.list_take 3 expanded_queries)
  | LLMError _ => ret [query]
  end.

(** [hash(doc.page_content[:200])] *)
Definition content_hash (doc : Document) : Z :=
  hash (Py.take 200 (page_content doc)).

(** The loop of [_deduplicate_results]. *)
Fixpoint deduplicate_from (results : list Document)
    (seen_content : gset Z) (unique_results : list Document)
  : list Document :=
  match results with
  | [] => unique_results
  | doc :: rest =>
      if bool_decide (content_hash doc ∈ seen_content)
      then deduplicate_from rest seen_content unique_results
      else deduplicate_from rest ({[content_hash doc]} ∪ seen_content)
                            (unique_results ++ [doc])
  end.

Definition _deduplicate_results (results : list Document)
  : list Document :=
  deduplicate_from results ∅ [].

(** The four terms of the composite score. *)
Definition base_score (doc : Document) : Q :=
  default 0%Q (m_relevance_score (metadata doc)).

Definition recency_boost (doc : Document) : Q :=
  match m_date (metadata doc) with
  | Some (String _ _ as date) =>
      match days_old date with
      | Some age =>
          if age <? 30 then 0.05%Q
          else if age <? 365 then 0.02%Q
          else 0%Q
      | None => 0%Q
      end
  | _ => 0%Q
  end.

Definition keyword_matches (original_query : string) (doc : Document)
  : Z :=
  let query_terms := Py.split_ws (Py.lower original_query) in
  let content_lower := Py.lower (page_content doc) in
  Z.of_nat
    (length (List.filter (fun term => Py.contains term content_lower)
                         query_terms)).

Definition keyword_boost (original_query : string) (doc : Document) : Q :=
  py_min (inject_Z (keyword_matches original_query doc) * 0.02)%Q 0.1%Q.

Definition length_boost (doc : Document) : Q :=
  let content_length := Py.word_count_of (page_content doc) in
  py_max 0%Q (py_min 0.05%Q (inject_Z (content_length - 50) / 1000)%Q).

Definition final_score (original_query : string) (doc : Document) : Q :=
  (base_score doc + recency_boost doc + keyword_boost original_query doc
   + length_boost doc)%Q.

(** One pass of the scoring loop: the score is written into the
    document's metadata. *)
Definition score_document (original_query : string) (doc : Document)
  : Document :=
  {| page_content := page_content doc;
     metadata :=
       {| m_title := m_title (metadata doc);
          m_source_file := m_source_file (metadata doc);
          m_date := m_date (metadata doc);
          m_relevance_score := m_relevance_score (metadata doc);
          m_final_score := Some (final_score original_query doc) |} |}.

(** The sort key [x.metadata["final_score"]]. *)
Definition stored_score (doc : Document) : Q :=
  default 0%Q (m_final_score (metadata doc)).

Definition _rerank_results (results : list Document)
    (original_query : string) : list Document :=
  sort_desc stored_score (map (score_document original_query) results).

(** The source name of a document and its header line. *)
Definition source_of (doc : Document) : string :=
  default (default "Unknown" (m_source_file (metadata doc)))
          (m_title (metadata doc)).

Definition plain_header (source : string) : string :=
  Py.NL +:+ "## From: " +:+ source +:+ Py.NL.

(** The month and year that go into the header, when the document has
    a non-empty date that parses. *)
Definition header_date (doc : Document) : option string :=
  match m_date (metadata doc) with
  | Some (String _ _ as date) => month_year date
  | _ => None
  end.

Definition dated_header (source post_date : string) : string :=
  Py.NL +:+ "## From: " +:+ source +:+ " (" +:+ post_date +:+ ")" +:+ Py.NL.

(** The header part of one pass of the loop: nothing to do for a
    source already included; [None] for the [break] taken when the
    plain header does not fit; otherwise the header, with the date
    when there is one, is appended and counted. *)
Definition header_step (max_chars : Z) (doc : Document) (st : Assembly)
  : option Assembly :=
  let source := source_of doc in
  if bool_decide (source ∈ included_sources st) then Some st
  else
    if total_chars st + Py.len (plain_header source) >? max_chars
    then None
    else
      let header :=
        match header_date doc with
        | Some post_date => dated_header source post_date
        | None => plain_header source
        end in
      Some {| context_parts := context_parts st ++ [header];
              included_sources := {[source]} ∪ included_sources st;
              total_chars := total_chars st + Py.len header |}.

(** The content that does not fit: cut to what is left less fifty
    characters and marked, or left out when that is a hundred
    characters or fewer. The cut part is not counted. *)
Definition truncate_step (max_chars : Z) (content : string)
    (st : Assembly) : Assembly :=
  let remaining_chars := max_chars - total_chars st - 50 in
  if remaining_chars >? 100 then
    let truncated_content :=
      Py.take (Z.to_nat remaining_chars) content +:+ "..." +:+ Py.NL in
    {| context_parts := context_parts st ++ [truncated_content];
       included_sources := included_sources st;
       total_chars := total_chars st |}
  else st.

(** The content that fits, and the separator after it when that fits
    too. *)
Definition content_step (max_chars : Z) (content : string)
    (st : Assembly) : Assembly :=
  let st :=
    {| context_parts := context_parts st ++ [content];
       included_sources := included_sources st;
       total_chars := total_chars st + Py.len content |} in
  if (total_chars st <? max_chars)
     && (total_chars st + Py.len separator <? max_chars)
  then {| context_parts := context_parts st ++ [separator];
          included_sources := included_sources st;
          total_chars := total_chars st + Py.len separator |}
  else st.

(** The loop of [assemble_context_window] over the documents that are
    left; a [break] returns the state reached. *)
Fixpoint assemble_from (max_chars : Z) (results : list Document)
    (st : Assembly) : Assembly :=
  match results with
  | [] => st
  | doc :: rest =>
      match header_step max_chars doc st with
      | None => st
      | Some st =>
          let content := Py.strip (page_content doc) in
          if total_chars st + Py.len content >? max_chars
          then truncate_step max_chars content st
          else assemble_from max_chars rest
                 (content_step max_chars content st)
      end
  end.

Definition initial_assembly : Assembly :=
  {| context_parts := []; included_sources := ∅; total_chars := 0 |}.

(** The text joined from the parts, before the statistics line. *)
Definition assembled_body (st : Assembly) : string :=
  Py.strip (Py.join EmptyString (context_parts st)).

Definition stats_line (st : Assembly) : string :=
  Py.NL +:+ Py.NL +:+ "--- Context assembled from "
  +:+ Py.str_of_Z (Z.of_nat (size (included_sources st)))
  +:+ " sources, " +:+ Py.str_of_Z (total_chars st)
  +:+ " characters ---".

Definition assemble_context_window (results : list Document)
    (max_tokens : Z) : string :=
  match results with
  | [] => "No relevant context found."
  | _ =>
      let ESTIMATED_CHARS_PER_TOKEN := 4 in
      let max_chars := max_tokens * ESTIMATED_CHARS_PER_TOKEN in
      let st := assemble_from max_chars results initial_assembly in
      let context := assembled_body st in
      let stats := stats_line st in
      if within_overhead (total_chars st + Py.len stats) max_chars
      then context +:+ stats
      else context
  end.

(** The multi-query retrieval of [retrieve_relevant_context]: a
    variant whose search raises is skipped. *)
Fixpoint search_all (queries : list string) (top_k : Z)
  : list Document :=
  match queries with
  | [] => []
  | q :: rest =>
      match similarity_search q top_k with
      | Some results => results ++ search_all rest top_k
      | None => search_all rest top_k
      end
  end.

(** [retrieve_relevant_context], with [top_k] already resolved against
    the configured default. The stages that can raise are the
    expansion, handled in [expand_query], and the searches, handled
    per variant; the remaining stages are total on well-typed
    documents, so the outer handler has nothing to catch here. *)
Definition retrieve_relevant_context (query : string) (top_k : Z)
    (expand_queries : bool) : M (list Document) :=
  let* queries :=
    if expand_queries then expand_query query else ret [query] in
  let all_results := search_all queries top_k in
  match all_results with
  | [] => ret []
  | _ =>
      let unique_results := _deduplicate_results all_results in
      let reranked_results := _rerank_results unique_results query in
      let final_results := Py.list_take top_k reranked_results in
      ret final_results
  end.

End Retrieval.

(** ** [agent/llm_client.py] *)

Module LlmClient.

(** What one POST to the chat route gives: a response with its status
    code, its text and the message content of its body, a timeout, or
    another request error. *)
Inductive http_outcome :=
| Response (status_code : Z) (text content : string)
| TimeoutException
| RequestError (message : string).

(** The transport: the outcome of the n-th request. *)
Definition Transport := nat -> http_outcome.

Inductive client_error :=
| ModelNotFoundError (message : string)
| OllamaError (message : string).

(** What [chat] does: it returns a text, returns nothing (the loop over
    the attempts ends without a [return]), or raises. *)
Inductive chat_result :=
| Returned (text : option string)
| Raised (e : client_error).

(** The requests sent so far and the delays slept so far. *)
Record net := mkNet {
  requests : nat;
  sleeps : list Q
}.

Section Chat.

(** The configuration values [chat] reads and the model name. *)
Variable transport : Transport.
Variable max_retries : Z.
Variable retry_delay retry_backoff : Q.
Variable model : string.

(** [config.retry_delay * (config.retry_backoff ** attempt)] *)
Definition backoff_delay (attempt : Z) : Q :=
  (retry_delay * retry_backoff ^ attempt)%Q.

(** The retry branch shared by the two handlers. *)
Definition slept (attempt : Z) (n : net) : net :=
  {| requests := requests n; sleeps := sleeps n ++ [backoff_delay attempt] |}.

(** The body of [for attempt in range(config.max_retries)], without
    streaming. A response that is not 200 raises out of the loop: the
    handlers only catch timeouts and request errors. *)
Fixpoint chat_attempts (attempts : list Z) (n : net) : chat_result * net :=
  match attempts with
  | [] => (Returned None, n)
  | attempt :: later =>
      let outcome := transport (requests n) in
      let n := {| requests := S (requests n); sleeps := sleeps n |} in
      match outcome with
      | Response status_code text content =>
          if negb (status_code =? 200) then
            if status_code =? 404 then
              (Raised (ModelNotFoundError
                         ("Model '" +:+ model +:+ "' not found")), n)
            else
              (Raised (OllamaError
                         ("HTTP " +:+ Py.str_of_Z status_code +:+ ": "
                          +:+ text)), n)
          else (Returned (Some content), n)
      | TimeoutException =>
          if attempt <? max_retries - 1
          then chat_attempts later (slept attempt n)
          else (Raised (OllamaError "Request timed out after all retries"), n)
      | RequestError e =>
          if attempt <? max_retries - 1
          then chat_attempts later (slept attempt n)
          else (Raised (OllamaError
                          ("Request failed after retries: " +:+ e)), n)
      end
  end.

Definition chat (n : net) : chat_result * net :=
  chat_attempts (range max_retries) n.

End Chat.

End LlmClient.

(** ** [agent/agents/retriever.py] *)

Inductive synthesis_section := InSummary | InExcerpts.

(** The state of the loop of [_parse_synthesis_response]. *)
Record SynthesisState := mkSynthesis {
  syn_summary : string;
  syn_excerpts : list string;
  syn_section : option synthesis_section
}.

(** One line of the response. *)
Definition synthesis_line (raw : string) (st : SynthesisState)
  : SynthesisState :=
  let line := Py.strip raw in
  match line with
  | EmptyString => st
  | _ =>
      let upper := Py.upper line in
      if Py.contains "SUMMARY:" upper || Py.contains "CONCISE SUMMARY:" upper
      then
        let summary :=
          match Py.after_first ":" line with
          | Some rest =>
              match Py.strip rest with
              | EmptyString => syn_summary st
              | summary_part => summary_part
              end
          | None => syn_summary st
          end in
        {| syn_summary := summary;
           syn_excerpts := syn_excerpts st;
           syn_section := Some InSummary |}
      else if Py.contains "EXCERPTS:" upper
              || Py.contains "RELEVANT EXCERPTS:" upper
      then
        {| syn_summary := syn_summary st;
           syn_excerpts := syn_excerpts st;
           syn_section := Some InExcerpts |}
      else
        match syn_section st with
        | Some InSummary =>
            if negb (String.prefix "EXCERPTS" upper) then
              {| syn_summary := syn_summary st +:+ line +:+ " ";
                 syn_excerpts := syn_excerpts st;
                 syn_section := syn_section st |}
            else st
        | Some InExcerpts =>
            if String.prefix "-" line || String.prefix "*" line then
              match Py.strip (Py.drop 1 line) with
              | EmptyString => st
              | excerpt =>
                  {| syn_summary := syn_summary st;
                     syn_excerpts := syn_excerpts st ++ [excerpt];
                     syn_section := syn_section st |}
              end
            else st
        | None => st
        end
  end.

Definition synthesis_scan (lines : list string) (st : SynthesisState)
  : SynthesisState :=
  fold_left (fun st raw => synthesis_line raw st) lines st.

(** [_parse_synthesis_response]: the summary and at most five excerpts;
    the whole response is the summary when the scan found neither. *)
Definition _parse_synthesis_response (response : string)
  : string * list string :=
  let st :=
    synthesis_scan (Py.split_char Py.nl response)
      {| syn_summary := EmptyString; syn_excerpts := [];
         syn_section := None |} in
  let summary :=
    match syn_summary st, syn_excerpts st with
    | EmptyString, [] => response
    | summary, _ => summary
    end in
  (Py.strip summary, Py.list_take 5 (syn_excerpts st)).

Section RetrieverAgent.

Variable hash : string -> Z.
Variable days_old : string -> option Z.
Variable month_year : string -> option string.
Variable similarity_search : string -> Z -> option (list Document).
Variable within_overhead : Z -> Z -> bool.
Variable llm : LLM.

(** [search_and_synthesize]. The spec is not read; the context window
    only enters the prompt. *)
Definition search_and_synthesize (topic : string) (spec : GenerationSpec)
    (top_k : Z) : M RetrieverOutput :=
  let* context_docs :=
    retrieve_relevant_context hash days_old similarity_search llm
      topic top_k true in
  match context_docs with
  | [] =>
      ret {| summary := "No relevant context found for '" +:+ topic +:+ "'";
             excerpts := [];
             source_count := 0 |}
  | _ =>
      let context_window :=
        assemble_context_window month_year within_overhead
          context_docs 2000 in
      let* reply := chat llm in
      match reply with
      | Reply response =>
          let parsed := _parse_synthesis_response response in
          ret {| summary := fst parsed;
                 excerpts := snd parsed;
                 source_count := Z.of_nat (length context_docs) |}
      | LLMError e =>
          ret {| summary := "Error retrieving context for '" +:+ topic
                            +:+ "': " +:+ e;
                 excerpts := [];
                 source_count := 0 |}
      end
  end.

End RetrieverAgent.

(** ** [agent/retrieval.py]: the research brief *)

(** [ResearchBrief] *)
Record ResearchBrief := mkBrief {
  key_themes : list string;
  relevant_facts : list string;
  related_topics : list string;
  gaps_identified : list string;
  recommended_focus : list string;
  context_documents : list Document
}.

Inductive brief_section := Themes | Facts | Topics | Gaps | Focus.

(** The [append] taken for a dash item under [current_section]. *)
Definition brief_append (current_section : brief_section) (content : string)
    (brief : ResearchBrief) : ResearchBrief :=
  match current_section with
  | Themes =>
      {| key_themes := key_themes brief ++ [content];
         relevant_facts := relevant_facts brief;
         related_topics := related_topics brief;
         gaps_identified := gaps_identified brief;
         recommended_focus := recommended_focus brief;
         context_documents := context_documents brief |}
  | Facts =>
      {| key_themes := key_themes brief;
         relevant_facts := relevant_facts brief ++ [content];
         related_topics := related_topics brief;
         gaps_identified := gaps_identified brief;
         recommended_focus := recommended_focus brief;
         context_documents := context_documents brief |}
  | Topics =>
      {| key_themes := key_themes brief;
         relevant_facts := relevant_facts brief;
         related_topics := related_topics brief ++ [content];
         gaps_identified := gaps_identified brief;
         recommended_focus := recommended_focus brief;
         context_documents := context_documents brief |}
  | Gaps =>
      {| key_themes := key_themes brief;
         relevant_facts := relevant_facts brief;
         related_topics := related_topics brief;
         gaps_identified := gaps_identified brief ++ [content];
         recommended_focus := recommended_focus brief;
         context_documents := context_documents brief |}
  | Focus =>
      {| key_themes := key_themes brief;
         relevant_facts := relevant_facts brief;
         related_topics := related_topics brief;
         gaps_identified := gaps_identified brief;
         recommended_focus := recommended_focus brief ++ [content];
         context_documents := context_documents brief |}
  end.

(** One line of the model's answer: a header line opens its section, a
    line starting with a dash under a section is added to that
    section's list, anything else is skipped. *)
Definition brief_line (raw : string)
    (st : ResearchBrief * option brief_section)
  : ResearchBrief * option brief_section :=
  let line := Py.strip raw in
  match line with
  | EmptyString => st
  | _ =>
      if String.prefix "KEY_THEMES:" line then (fst st, Some Themes)
      else if String.prefix "RELEVANT_FACTS:" line then (fst st, Some Facts)
      else if String.prefix "RELATED_TOPICS:" line then (fst st, Some Topics)
      else if String.prefix "GAPS_IDENTIFIED:" line then (fst st, Some Gaps)
      else if String.prefix "RECOMMENDED_FOCUS:" line
      then (fst st, Some Focus)
      else
        match snd st with
        | Some current_section =>
            if String.prefix "-" line then
              let content := Py.strip (Py.drop 1 line) in
              (brief_append current_section content (fst st), snd st)
            else st
        | None => st
        end
  end.

Definition parse_brief (response : string) (context_docs : list Document)
  : ResearchBrief :=
  let brief :=
    {| key_themes := []; relevant_facts := []; related_topics := [];
       gaps_identified := []; recommended_focus := [];
       context_documents := context_docs |} in
  fst (fold_left (fun st raw => brief_line raw st)
         (Py.split_char Py.nl response) (brief, None)).

Section Research.

Variable hash : string -> Z.
Variable days_old : string -> option Z.
Variable month_year : string -> option string.
Variable similarity_search : string -> Z -> option (list Document).
Variable within_overhead : Z -> Z -> bool.
Variable llm : LLM.

(** [gather_context_for_topic]; [keywords] is [spec.get("keywords")]
    of the optional spec dictionary, [None] when there is no spec or no
    such key. *)
Definition gather_context_for_topic (topic : string)
    (keywords : option (list string)) (max_context_tokens : Z)
  : M ResearchBrief :=
  let search_query :=
    match keywords with
    | Some ((_ :: _) as keywords) =>
        topic +:+ " " +:+ Py.join " " (Py.list_take 2 keywords)
    | _ => topic
    end in
  let* context_docs :=
    retrieve_relevant_context hash days_old similarity_search llm
      search_query 10 true in
  match context_docs with
  | [] =>
      ret {| key_themes := [];
             relevant_facts :=
               ["No relevant context found in knowledge base."];
             related_topics := [];
             gaps_identified := [];
             recommended_focus := ["General overview of " +:+ topic];
             context_documents := [] |}
  | _ =>
      let context_window :=
        assemble_context_window month_year within_overhead
          context_docs max_context_tokens in
      let* reply := chat llm in
      match reply with
      | Reply response => ret (parse_brief response context_docs)
      | LLMError _ =>
          ret {| key_themes := [topic];
                 relevant_facts := ["Context available from knowledge base"];
                 related_topics := [];
                 gaps_identified := [];
                 recommended_focus := ["Comprehensive coverage of the topic"];
                 context_documents := context_docs |}
      end
  end.

End Research.

(** ** Notions used in the statements *)

(** The text after the first line of a response, empty for a response
    of one line: the reading of the parser's feedback that the
    documentation gives. *)
Definition text_after_first_line (response : string) : string :=
  default EmptyString (Py.after_first Py.nl response).

(** [c in s] for one character, and [all(p(c) for c in s)]. *)
Fixpoint has_char (c : ascii) (s : string) : bool :=
  match s with
  | EmptyString => false
  | String b r => Ascii.eqb c b || has_char c r
  end.

Fixpoint all_chars (p : ascii -> bool) (s : string) : bool :=
  match s with
  | EmptyString => true
  | String b r => p b && all_chars p r
  end.

(** The characters of a printed integer. *)
Definition numeral_char (c : ascii) : bool :=
  has_char c "-0123456789".

(** The messages of the checks that failed, in the order in which the
    evaluator tests them. *)
Definition failed_check_messages (word_count : Z) (spec : GenerationSpec)
    (c : Checks) : list string :=
  (if chk_word_count c then [] else [word_count_message word_count spec])
  ++ (if chk_structure c then [] else [structure_message])
  ++ (if chk_markdown c then [] else [markdown_message]).

(** Documents of one score, and the order a descending sort gives. *)
Definition same_score {A : Type} (key : A -> Q) (s : Q) (x : A) : bool :=
  Qeq_bool (key x) s.

Definition descending {A : Type} (key : A -> Q) (x y : A) : Prop :=
  (key y <= key x)%Q.

(** Total length of the parts of a context window. *)
Fixpoint parts_len (parts : list string) : Z :=
  match parts with
  | [] => 0
  | p :: rest => Py.len p + parts_len rest
  end.


(** The world after one more log line. *)
Definition logged (e : event) (w : world) : world :=
  {| llm_calls := llm_calls w; trace := trace w ++ [e] |}.

(** Counting log lines of one kind. *)
Definition count_events (p : event -> bool) (t : list event) : nat :=
  length (List.filter p t).

Definition is_iteration_started (e : event) : bool :=
  match e with IterationStarted _ _ => true | _ => false end.

Definition is_draft_approved (e : event) : bool :=
  match e with DraftApproved _ => true | _ => false end.

Definition is_fallback (e : event) : bool :=
  match e with FallbackToInitialDraft => true | _ => false end.

(** ** Sample inputs *)

Fixpoint filler (n : nat) : string :=
  match n with
  | O => EmptyString
  | S k => "word " +:+ filler k
  end.

(** A draft body of 120 words with a title and two sections. *)
Definition sample_content : string :=
  "# Title" +:+ Py.NL +:+ "## Intro" +:+ Py.NL +:+ filler 60 +:+ Py.NL
  +:+ "## Details" +:+ Py.NL +:+ filler 54.

Definition sample_frontmatter : string :=
  "---" +:+ Py.NL +:+ "title: x" +:+ Py.NL +:+ "---" +:+ Py.NL.

Definition sample_draft (stored_word_count : Z) : Draft :=
  {| d_content := Some sample_content;
     d_word_count := Some stored_word_count;
     d_topic := Some "Topic";
     d_spec := None;
     d_iteration := Some 1;
     d_error := None |}.

Definition spec_with_bounds (lo hi : Z) : GenerationSpec :=
  {| spec_topic := "Topic"; spec_style := "technical";
     spec_length := "medium"; spec_categories := []; spec_tags := [];
     spec_keywords := []; spec_tone := "informative";
     min_words := lo; max_words := hi |}.

Definition sample_retriever_output : RetrieverOutput :=
  {| summary := "context"; excerpts := []; source_count := 1 |}.

Definition idle_world : world := {| llm_calls := 0; trace := [] |}.

(** An endpoint that is down, and one that answers every request with
    the same short text. *)
Definition failing_llm : LLM := fun _ => LLMError "connection refused".

Definition stubborn_llm : LLM := fun _ => Reply "draft".

(** The draft composed from the short text. *)
Definition composed_draft : Draft :=
  fst (compose_draft stubborn_llm "Topic" sample_retriever_output
         (spec_with_bounds 1000 1500) idle_world).

(** A retriever that finds context and an ingestor that saves the post,
    neither writing to the orchestrator's log. *)
Definition sample_retriever (topic : string) (spec : GenerationSpec)
    (top_k : Z) : M RetrieverOutput :=
  ret sample_retriever_output.

Definition sample_ingestor (final_draft : Draft) (spec_data : SpecData)
  : M IngestionResult :=
  ret {| ing_success := Some true;
         ing_file_path := Some "content/blog/2026-01-01-topic.md";
         ing_error := None |}.

Definition sample_spec_data : SpecData :=
  {| sd_topic := Some "Topic"; sd_style := Some "technical";
     sd_length := Some "medium"; sd_categories := Some [];
     sd_tags := Some []; sd_keywords := Some [];
     sd_tone := Some "informative";
     sd_min_words := None; sd_max_words := None |}.

(** A polynomial string hash standing for the built-in one. *)
Fixpoint poly_hash (acc : Z) (s : string) : Z :=
  match s with
  | EmptyString => acc
  | String c r =>
      poly_hash ((acc * 31 + Z.of_N (N_of_ascii c)) mod 2305843009213693951) r
  end.

Definition sample_hash (s : string) : Z := poly_hash 7 s.

(** A calendar that parses no date, and one that knows the single date
    of the sample documents. *)
Definition no_calendar (date : string) : option Z := None.

Definition sample_month_year (date : string) : option string :=
  if String.eqb date "2024-01-15" then Some "January 2024" else None.

(** The overhead test [n < m * 1.1] read over the rationals. The
    floating-point product differs from it only when [n] is exactly
    eleven tenths of [m]; the sample runs are far from that. *)
Definition overhead_test (n m : Z) : bool := 10 * n <? 11 * m.

Definition sample_doc (title : string) (date : option string)
    (content : string) : Document :=
  {| page_content := content;
     metadata := {| m_title := Some title; m_source_file := None;
                    m_date := date; m_relevance_score := Some 0.5%Q;
                    m_final_score := None |} |}.

Definition dated_doc : Document :=
  sample_doc "abc" (Some "2024-01-15") "body".


(** Two chunks that differ only after their first two hundred
    characters, and a third one. *)
Definition long_prefix : string := filler 50.

Definition chunk_a : Document :=
  sample_doc "Post" None (long_prefix +:+ "first ending").

Definition chunk_b : Document :=
  sample_doc "Post" None (long_prefix +:+ "second ending").

Definition chunk_c : Document := sample_doc "Other" None "short chunk".

(** A vector store with one document for one query, and an empty one. *)
Definition one_hit_store (q : string) (top_k : Z) : option (list Document) :=
  if String.eqb q "rust" then Some [sample_doc "Rust notes" None "rust tips"]
  else None.

Definition empty_store (q : string) (top_k : Z) : option (list Document) :=
  if String.eqb q "rust" then Some [] else None.

(** ** Further notions used in the statements *)

(** The [spec_data] after [generate_blog_post] has filled in the word
    bounds: the ones given, else the ones of the length. *)
Definition with_word_bounds (spec_data : SpecData) : SpecData :=
  {| sd_topic := sd_topic spec_data;
     sd_style := sd_style spec_data;
     sd_length := sd_length spec_data;
     sd_categories := sd_categories spec_data;
     sd_tags := sd_tags spec_data;
     sd_keywords := sd_keywords spec_data;
     sd_tone := sd_tone spec_data;
     sd_min_words :=
       Some (default (fst (word_counts (default "medium"
                                               (sd_length spec_data))))
                     (sd_min_words spec_data));
     sd_max_words :=
       Some (default (snd (word_counts (default "medium"
                                               (sd_length spec_data))))
                     (sd_max_words spec_data)) |}.

(** The header a document gets when it opens its source, and an upper
    bound on what a list of documents adds to the counted total: for
    each document its header, its stripped content and a separator. *)
Definition header_of (month_year : string -> option string)
    (doc : Document) : string :=
  match header_date month_year doc with
  | Some post_date => dated_header (source_of doc) post_date
  | None => plain_header (source_of doc)
  end.

Fixpoint window_cost (month_year : string -> option string)
    (results : list Document) : Z :=
  match results with
  | [] => 0
  | doc :: rest =>
      Py.len (header_of month_year doc)
      + Py.len (Py.strip (page_content doc))
      + Py.len separator
      + window_cost month_year rest
  end.

(** A non-empty string without surrounding whitespace. *)
Definition tidy (s : string) : Prop := s <> EmptyString /\ Py.strip s = s.

(** The outcomes [chat] retries on: the two exceptions it catches. *)
Definition transient (outcome : LlmClient.http_outcome) : bool :=
  match outcome with
  | LlmClient.Response _ _ _ => false
  | LlmClient.TimeoutException | LlmClient.RequestError _ => true
  end.

(** What [chat] does with the outcome of the last request it sends. *)
Definition settled (max_retries : Z) (model : string) (sent : nat)
    (outcome : LlmClient.http_outcome) (result : LlmClient.chat_result)
  : Prop :=
  match outcome with
  | LlmClient.Response status_code text content =>
      result
      = if status_code =? 200 then LlmClient.Returned (Some content)
        else if status_code =? 404
             then LlmClient.Raised
                    (LlmClient.ModelNotFoundError
                       ("Model '" +:+ model +:+ "' not found"))
             else LlmClient.Raised
                    (LlmClient.OllamaError
                       ("HTTP " +:+ Py.str_of_Z status_code +:+ ": " +:+ text))
  | LlmClient.TimeoutException =>
      Z.of_nat sent = max_retries
      /\ result
         = LlmClient.Raised
             (LlmClient.OllamaError "Request timed out after all retries")
  | LlmClient.RequestError e =>
      Z.of_nat sent = max_retries
      /\ result
         = LlmClient.Raised
             (LlmClient.OllamaError ("Request failed after retries: " +:+ e))
  end.

(** A transport that times out twice and then answers. *)
Definition flaky_transport : LlmClient.Transport :=
  fun n =>
    if (n <? 2)%nat then LlmClient.TimeoutException
    else LlmClient.Response 200 "{}" "hello".

Definition fresh_net : LlmClient.net :=
  {| LlmClient.requests := 0; LlmClient.sleeps := [] |}.

(* ================================================================== *)
(** * Part II: properties                                              *)
(* ================================================================== *)

#[local] Arguments ascii_dec : simpl never.
#[local] Arguments Ascii.eqb : simpl never.

(** ** Strings *)

Section StringFacts.

Lemma prefix_empty (s : string) : String.prefix EmptyString s = true.
Proof. destruct s; reflexivity. Qed.

Lemma prefix_cons (a b : ascii) (p s : string) :
  String.prefix (String a p) (String b s)
  = if ascii_dec a b then String.prefix p s else false.
Proof. reflexivity. Qed.

Lemma prefix_head_char (c : ascii) (p s : string) :
  String.prefix (String c p) s = true -> exists r, s = String c r.
Proof.
  destruct s as [| b r]; [discriminate |]. rewrite prefix_cons.
  destruct (ascii_dec c b) as [E | _]; [subst b; eauto | discriminate].
Qed.

Lemma prefix_heads_differ (a b : ascii) (p q s : string) :
  a <> b -> String.prefix (String a p) s = true ->
  String.prefix (String b q) s = false.
Proof.
  intros Hab [r ->]%prefix_head_char. rewrite prefix_cons.
  destruct (ascii_dec b a) as [E | _]; [congruence | reflexivity].
Qed.

Lemma prefix_app (s t : string) : String.prefix s (s +:+ t) = true.
Proof.
  induction s as [| c r IH]; simpl; [apply prefix_empty |].
  destruct (ascii_dec c c); [exact IH | congruence].
Qed.

Lemma after_first_absent (s : string) :
  Py.contains Py.NL s = false -> Py.after_first Py.nl s = None.
Proof.
  induction s as [| c r IH]; simpl; [reflexivity |].
  destruct (ascii_dec Py.nl c) as [E | Hne]; simpl.
  - now rewrite prefix_empty.
  - intros H.
    destruct (Ascii.eqb_spec c Py.nl) as [-> | _]; [congruence | auto].
Qed.

Lemma after_first_app (first rest : string) :
  Py.contains Py.NL first = false ->
  Py.after_first Py.nl (first +:+ Py.NL +:+ rest) = Some rest.
Proof.
  induction first as [| c r IH]; simpl.
  - intros _. reflexivity.
  - destruct (ascii_dec Py.nl c) as [E | Hne]; simpl.
    + now rewrite prefix_empty.
    + intros H.
      destruct (Ascii.eqb_spec c Py.nl) as [-> | _]; [congruence | auto].
Qed.

Lemma contains_prefix (sub s : string) :
  String.prefix sub s = true -> Py.contains sub s = true.
Proof.
  intros H. destruct s; unfold Py.contains; fold Py.contains;
    rewrite H; reflexivity.
Qed.

Lemma contains_here (sub t : string) : Py.contains sub (sub +:+ t) = true.
Proof. apply contains_prefix, prefix_app. Qed.

Lemma contains_self (sub : string) : Py.contains sub sub = true.
Proof.
  apply contains_prefix. induction sub as [| c r IH]; simpl; [reflexivity |].
  destruct (ascii_dec c c); [exact IH | congruence].
Qed.

Lemma contains_skip (sub a b : string) :
  Py.contains sub b = true -> Py.contains sub (a +:+ b) = true.
Proof.
  intros H. induction a as [| c r IH]; simpl; [exact H |].
  rewrite IH. apply orb_true_r.
Qed.

Lemma has_char_app (c : ascii) (a b : string) :
  has_char c (a +:+ b) = has_char c a || has_char c b.
Proof.
  induction a as [| x r IH]; simpl; [reflexivity |].
  now rewrite IH, orb_assoc.
Qed.

Lemma has_char_prefix (c : ascii) (sub s : string) :
  String.prefix sub s = true -> has_char c sub = true ->
  has_char c s = true.
Proof.
  revert s. induction sub as [| x r IH]; intros s; simpl.
  { intros _ H. discriminate H. }
  destruct s as [| y t]; [intros H; discriminate H |].
  rewrite prefix_cons.
  destruct (ascii_dec x y) as [E | _]; [subst y | intros H; discriminate H].
  intros Hp [H | H]%orb_true_iff; simpl.
  - now rewrite H.
  - rewrite (IH _ Hp H). apply orb_true_r.
Qed.

Lemma has_char_contains (c : ascii) (sub s : string) :
  Py.contains sub s = true -> has_char c sub = true ->
  has_char c s = true.
Proof.
  induction s as [| y t IH]; simpl.
  - rewrite orb_false_r. intros Hp Hc.
    exact (has_char_prefix c sub EmptyString Hp Hc).
  - intros [Hp | Hr]%orb_true_iff Hc.
    + exact (has_char_prefix c sub (String y t) Hp Hc).
    + rewrite (IH Hr Hc). apply orb_true_r.
Qed.

(** A text that lacks a character of [sub] does not contain [sub]. *)
Lemma contains_false_by_char (c : ascii) (sub s : string) :
  has_char c sub = true -> has_char c s = false ->
  Py.contains sub s = false.
Proof.
  intros Hsub Hs. destruct (Py.contains sub s) eqn:E; [| reflexivity].
  now rewrite (has_char_contains c sub s E Hsub) in Hs.
Qed.

Lemma has_char_all_chars (p : ascii -> bool) (c : ascii) (s : string) :
  all_chars p s = true -> has_char c s = true -> p c = true.
Proof.
  induction s as [| b r IH]; simpl; [discriminate |].
  intros [Hb Hr]%andb_true_iff [H | H]%orb_true_iff; [| auto].
  apply Ascii.eqb_eq in H. now subst c.
Qed.

Lemma uint_all_numeral (d : Decimal.uint) :
  all_chars numeral_char (NilEmpty.string_of_uint d) = true.
Proof. induction d; simpl; auto. Qed.

Lemma str_of_Z_all_numeral (n : Z) :
  all_chars numeral_char (Py.str_of_Z n) = true.
Proof.
  unfold Py.str_of_Z, NilZero.string_of_int, NilZero.string_of_uint.
  destruct (Z.to_int n) as [d | d]; destruct d;
    first [ reflexivity
          | match goal with
            | |- context [NilEmpty.string_of_uint ?x] =>
                exact (uint_all_numeral x)
            end ].
Qed.

Lemma str_of_Z_lacks (c : ascii) (n : Z) :
  numeral_char c = false -> has_char c (Py.str_of_Z n) = false.
Proof.
  intros Hc. destruct (has_char c (Py.str_of_Z n)) eqn:E; [| reflexivity].
  apply (has_char_all_chars numeral_char) in E;
    [congruence | apply str_of_Z_all_numeral].
Qed.

Lemma len_nonneg (s : string) : 0 <= Py.len s.
Proof. unfold Py.len. lia. Qed.

Lemma len_app (a b : string) : Py.len (a +:+ b) = Py.len a + Py.len b.
Proof.
  unfold Py.len. induction a as [| c r IH].
  - change (EmptyString +:+ b) with b. simpl. lia.
  - change (String c r +:+ b) with (String c (r +:+ b)).
    cbn [String.length]. rewrite !Nat2Z.inj_succ. lia.
Qed.

Lemma len_lstrip (s : string) : Py.len (Py.lstrip s) <= Py.len s.
Proof.
  unfold Py.len. induction s as [| c r IH]; simpl; [lia |].
  destruct (Py.isspace c); simpl; lia.
Qed.

Lemma len_rstrip (s : string) : Py.len (Py.rstrip s) <= Py.len s.
Proof.
  unfold Py.len. induction s as [| c r IH]; simpl; [lia |].
  destruct (Py.rstrip r); [destruct (Py.isspace c) |]; simpl in *; lia.
Qed.

Lemma len_strip (s : string) : Py.len (Py.strip s) <= Py.len s.
Proof.
  unfold Py.strip. etransitivity; [apply len_lstrip | apply len_rstrip].
Qed.



Lemma parts_len_app (a b : list string) :
  parts_len (a ++ b) = parts_len a + parts_len b.
Proof. induction a as [| p r IH]; simpl; lia. Qed.

Lemma len_join_empty (parts : list string) :
  Py.len (Py.join EmptyString parts) = parts_len parts.
Proof.
  unfold Py.join. induction parts as [| p rest IH]; [reflexivity |].
  destruct rest as [| q rest].
  - simpl. lia.
  - change (String.concat EmptyString (p :: q :: rest))
      with (p +:+ EmptyString +:+ String.concat EmptyString (q :: rest)).
    rewrite !len_app, IH. cbn [parts_len]. unfold Py.len at 2. simpl. lia.
Qed.

Lemma join_one (sep a : string) : Py.join sep [a] = a.
Proof. reflexivity. Qed.

Lemma join_more (sep a b : string) (l : list string) :
  Py.join sep (a :: b :: l) = a +:+ sep +:+ Py.join sep (b :: l).
Proof. reflexivity. Qed.

End StringFacts.

(** ** The evaluator gate *)

(** C4, as amended. The verdict parser approves exactly the responses
    whose upper-cased text starts with APPROVED. For a response starting
    with REJECTED the verdict is a rejection whose feedback is the
    stripped text after the first line, or the default "Content needs
    improvement" when the response has no line break. Every other
    response is a rejection with the generic message: the parser never
    approves by default. *)
Theorem parse_evaluation_fail_closed (response : string) :
  let verdict := _parse_evaluation_response response in
  (v_approved verdict = true
   <-> String.prefix "APPROVED" (Py.upper response) = true)
  /\ (String.prefix "REJECTED" (Py.upper response) = true ->
      v_approved verdict = false
      /\ (forall first rest,
             response = first +:+ Py.NL +:+ rest ->
             Py.contains Py.NL first = false ->
             v_feedback verdict = Py.strip rest)
      /\ (Py.contains Py.NL response = false ->
          v_feedback verdict = "Content needs improvement"))
  /\ (String.prefix "APPROVED" (Py.upper response) = false ->
      String.prefix "REJECTED" (Py.upper response) = false ->
      v_approved verdict = false
      /\ v_feedback verdict
         = "Unable to determine approval status from evaluation response").
Proof.
  unfold _parse_evaluation_response. cbv zeta.
  split; [| split].
  - destruct (String.prefix "APPROVED" (Py.upper response)) eqn:Ha; simpl;
      [tauto |].
    destruct (String.prefix "REJECTED" (Py.upper response)); simpl;
      split; discriminate.
  - intros Hr.
    assert (Ha : String.prefix "APPROVED" (Py.upper response) = false).
    { eapply prefix_heads_differ; [| exact Hr]. discriminate. }
    rewrite Ha, Hr. simpl. split; [reflexivity | split].
    + intros first rest -> Hfirst. now rewrite after_first_app.
    + intros Hnone. now rewrite after_first_absent.
  - intros -> ->. now split.
Qed.

(** C4, witness: a lower-case rejection of two lines. *)
Lemma parse_evaluation_fail_closed_witness :
  let response := "rejected: too short" +:+ Py.NL +:+ "  add two sections " in
  String.prefix "REJECTED" (Py.upper response) = true
  /\ v_approved (_parse_evaluation_response response) = false
  /\ v_feedback (_parse_evaluation_response response) = "add two sections".
Proof.
  cbv zeta.
  destruct (parse_evaluation_fail_closed
              ("rejected: too short" +:+ Py.NL +:+ "  add two sections "))
    as (_ & Hrej & _).
  assert (Hp : String.prefix "REJECTED"
                 (Py.upper ("rejected: too short" +:+ Py.NL
                            +:+ "  add two sections ")) = true)
    by reflexivity.
  destruct (Hrej Hp) as (Hno & Hfb & _).
  split; [exact Hp | split; [exact Hno |]].
  rewrite (Hfb "rejected: too short" "  add two sections ");
    reflexivity.
Defined.

(** C4, counterexample to the claim as stated: the one-line response
    REJECTED has no text after its first line, yet its feedback is the
    default message. *)
Lemma rejected_single_line_counterexample :
  ~ (forall response,
        String.prefix "REJECTED" (Py.upper response) = true ->
        v_feedback (_parse_evaluation_response response)
        = text_after_first_line response).
Proof.
  intros H. specialize (H "REJECTED" eq_refl). discriminate H.
Qed.

Section EvaluatorGate.

Lemma word_count_message_lacks (c : ascii) (n : Z) (spec : GenerationSpec) :
  numeral_char c = false ->
  has_char c "Word count () not in range " = false ->
  has_char c (word_count_message n spec) = false.
Proof.
  intros Hnum Hfix. unfold word_count_message.
  rewrite !has_char_app, !(str_of_Z_lacks c) by exact Hnum.
  destruct (has_char c "Word count (") eqn:E1;
    [revert Hfix; change "Word count () not in range "
       with ("Word count (" +:+ ") not in range ");
     rewrite has_char_app, E1; discriminate |].
  destruct (has_char c ") not in range ") eqn:E2;
    [revert Hfix; change "Word count () not in range "
       with ("Word count (" +:+ ") not in range ");
     rewrite has_char_app, E2, orb_true_r; discriminate |].
  destruct (has_char c "-") eqn:E3; [| reflexivity].
  revert Hnum. unfold numeral_char.
  change "-0123456789" with ("-" +:+ "0123456789").
  rewrite has_char_app, E3. discriminate.
Qed.

Lemma word_count_message_has_W (n : Z) (spec : GenerationSpec) :
  has_char "W" (word_count_message n spec) = true.
Proof. reflexivity. Qed.

Ltac contains_true :=
  repeat first [ apply contains_self | apply contains_here
               | apply contains_skip ].

Ltac contains_false c :=
  apply (contains_false_by_char c);
  [ first [ reflexivity | apply word_count_message_has_W ]
  | rewrite ?has_char_app, ?word_count_message_lacks by reflexivity;
    reflexivity ].

(** Each message has a letter the other two lack: W, y and k. *)
Ltac names_exactly :=
  first [ solve [contains_true]
        | contains_false "W"%char
        | contains_false "y"%char
        | contains_false "k"%char ].

(** The feedback of a failed validation lists the failed checks. *)
Lemma basic_feedback_failed (draft : Draft) (spec : GenerationSpec) :
  let basic := _perform_basic_validation draft spec in
  passed basic = false ->
  basic_feedback basic
  = Py.join "; " (failed_check_messages (default 0 (d_word_count draft))
                                        spec (checks basic)).
Proof.
  unfold _perform_basic_validation, failed_check_messages. cbn.
  destruct (_check_structure _), (_check_word_count _ _),
    (_check_markdown_formatting _); cbn; intros H;
    first [discriminate H | reflexivity].
Qed.

Lemma failed_messages_name_exactly (n : Z) (spec : GenerationSpec)
    (c : Checks) :
  chk_structure c && chk_word_count c && chk_markdown c = false ->
  let text := Py.join "; " (failed_check_messages n spec c) in
  Py.contains (word_count_message n spec) text = negb (chk_word_count c)
  /\ Py.contains structure_message text = negb (chk_structure c)
  /\ Py.contains markdown_message text = negb (chk_markdown c).
Proof.
  destruct c as [[] [] []]; unfold failed_check_messages; cbn -[Py.join
    word_count_message structure_message markdown_message Py.contains];
    intros H; try discriminate H;
    rewrite ?join_more, ?join_one; repeat split; names_exactly.
Qed.

Lemma basic_feedback_not_blank (draft : Draft) (spec : GenerationSpec) :
  basic_feedback (_perform_basic_validation draft spec) <> EmptyString.
Proof.
  unfold _perform_basic_validation. cbn.
  destruct (_check_word_count _ _), (_check_structure _),
    (_check_markdown_formatting _); cbn; discriminate.
Qed.

End EvaluatorGate.

(** C3. When a mechanical check fails, [evaluate_draft] returns a
    rejection without asking the endpoint: the world (number of
    completions requested, log) is unchanged and the result does not
    depend on the endpoint. The feedback is the list of the messages of
    the failed checks joined by "; ": it contains the message of a check
    exactly when that check failed. A draft that fails only the
    word-count check gets the message naming its count and the range. *)
Theorem mechanical_failure_short_circuits
    (llm : LLM) (draft : Draft) (spec : GenerationSpec) (w : world) :
  let basic := _perform_basic_validation draft spec in
  let word_count := default 0 (d_word_count draft) in
  passed basic = false ->
  evaluate_draft llm draft spec w
  = ({| ev_approved := false;
        ev_feedback := basic_feedback basic;
        validation_details := Some basic;
        llm_evaluation := None;
        eval_error := None |}, w)
  /\ basic_feedback basic
     = Py.join "; " (failed_check_messages word_count spec (checks basic))
  /\ Py.contains (word_count_message word_count spec) (basic_feedback basic)
     = negb (chk_word_count (checks basic))
  /\ Py.contains structure_message (basic_feedback basic)
     = negb (chk_structure (checks basic))
  /\ Py.contains markdown_message (basic_feedback basic)
     = negb (chk_markdown (checks basic))
  /\ (chk_structure (checks basic) = true ->
      chk_markdown (checks basic) = true ->
      basic_feedback basic
      = "Word count (" +:+ Py.str_of_Z word_count +:+ ") not in range "
        +:+ Py.str_of_Z (min_words spec) +:+ "-"
        +:+ Py.str_of_Z (max_words spec)).
Proof.
  intros basic word_count Hfail.
  assert (Hfb := basic_feedback_failed draft spec Hfail).
  fold basic word_count in Hfb.
  assert (Hall : chk_structure (checks basic) && chk_word_count (checks basic)
                 && chk_markdown (checks basic) = false) by exact Hfail.
  destruct (failed_messages_name_exactly word_count spec (checks basic) Hall)
    as (Hw & Hs & Hm).
  split; [| split; [exact Hfb |]].
  - unfold evaluate_draft. fold basic. now rewrite Hfail.
  - rewrite Hfb. repeat split; try assumption.
    intros Hst Hmd. unfold failed_check_messages.
    destruct (chk_word_count (checks basic)) eqn:Hwc.
    + rewrite Hst, Hmd in Hall. discriminate Hall.
    + rewrite Hst, Hmd. reflexivity.
Qed.

(** C3, witness: the 120-word draft against a spec asking for 500 to
    1000 words, with an endpoint that would approve if asked. *)
Lemma mechanical_failure_short_circuits_witness :
  let llm : LLM := fun _ => Reply "APPROVED" in
  passed (_perform_basic_validation (sample_draft 120)
            (spec_with_bounds 500 1000)) = false
  /\ evaluate_draft llm (sample_draft 120) (spec_with_bounds 500 1000)
       idle_world
     = ({| ev_approved := false;
           ev_feedback := "Word count (120) not in range 500-1000";
           validation_details :=
             Some (_perform_basic_validation (sample_draft 120)
                     (spec_with_bounds 500 1000));
           llm_evaluation := None;
           eval_error := None |}, idle_world).
Proof.
  cbv zeta. split; [vm_compute; reflexivity |].
  destruct (mechanical_failure_short_circuits
              (fun _ => Reply "APPROVED") (sample_draft 120)
              (spec_with_bounds 500 1000) idle_world)
    as (Heval & _); [vm_compute; reflexivity |].
  rewrite Heval. vm_compute. reflexivity.
Defined.

(** The same draft against a spec asking for 100 to 200 words passes
    the three checks. *)
Example scenario_all_checks_pass :
  checks (_perform_basic_validation (sample_draft 120)
            (spec_with_bounds 100 200))
  = {| chk_structure := true; chk_word_count := true; chk_markdown := true |}.
Proof. vm_compute. reflexivity. Qed.

(** The structure check asks for at least one title line, not for
    exactly one: a second title does not fail it. *)
Example second_title_passes_structure :
  _check_structure ("# Again" +:+ Py.NL +:+ sample_content) = true.
Proof. vm_compute. reflexivity. Qed.

(** C5, as amended. The mechanical validation is a function of the
    draft's content, the word count stored in the draft and the two
    bounds of the spec: drafts that agree on the first two, under specs
    that agree on the bounds, get the same result, whatever their other
    fields. The structure and markdown checks depend on the content
    alone. Being a function, the validation does not depend on the
    order of calls. *)
Theorem basic_validation_inputs (d1 d2 : Draft) (s1 s2 : GenerationSpec) :
  default EmptyString (d_content d1) = default EmptyString (d_content d2) ->
  default 0 (d_word_count d1) = default 0 (d_word_count d2) ->
  min_words s1 = min_words s2 ->
  max_words s1 = max_words s2 ->
  _perform_basic_validation d1 s1 = _perform_basic_validation d2 s2
  /\ _check_structure (default EmptyString (d_content d1))
     = _check_structure (default EmptyString (d_content d2))
  /\ _check_markdown_formatting (default EmptyString (d_content d1))
     = _check_markdown_formatting (default EmptyString (d_content d2)).
Proof.
  intros Hc Hw Hmin Hmax.
  unfold _perform_basic_validation, _check_word_count, word_count_message.
  rewrite Hc, Hw, Hmin, Hmax. repeat split.
Qed.

(** C5, witness: two drafts with the same content and stored count but
    different topic, spec copy, iteration and error. *)
Lemma basic_validation_inputs_witness :
  let d2 := {| d_content := Some sample_content;
               d_word_count := Some 120;
               d_topic := Some "Another topic";
               d_spec := Some (spec_with_bounds 1 2);
               d_iteration := Some 4;
               d_error := Some "Refinement failed: timeout" |} in
  _perform_basic_validation (sample_draft 120) (spec_with_bounds 100 200)
  = _perform_basic_validation d2 (spec_with_bounds 100 200).
Proof.
  cbv zeta.
  apply (basic_validation_inputs
           (sample_draft 120)
           {| d_content := Some sample_content;
              d_word_count := Some 120;
              d_topic := Some "Another topic";
              d_spec := Some (spec_with_bounds 1 2);
              d_iteration := Some 4;
              d_error := Some "Refinement failed: timeout" |}
           (spec_with_bounds 100 200) (spec_with_bounds 100 200));
    reflexivity.
Defined.

(** C5, counterexample to the claim as stated: two drafts composed from
    two responses, one with a frontmatter block and one without, have
    the same content; the stored word counts are 124 and 120, and under
    the bounds 100 to 120 one draft passes and the other fails. *)
Lemma stored_word_count_decides_counterexample :
  ~ (forall (d1 d2 : Draft) (spec : GenerationSpec),
        d_content d1 = d_content d2 ->
        passed (_perform_basic_validation d1 spec)
        = passed (_perform_basic_validation d2 spec)).
Proof.
  intros H.
  pose (spec := spec_with_bounds 100 120).
  pose (d1 := fst (compose_draft (fun _ => Reply sample_content) "Topic"
                     sample_retriever_output spec idle_world)).
  pose (d2 := fst (compose_draft
                     (fun _ => Reply (sample_frontmatter +:+ sample_content))
                     "Topic" sample_retriever_output spec idle_world)).
  specialize (H d1 d2 spec).
  assert (Hc : d_content d1 = d_content d2) by (vm_compute; reflexivity).
  specialize (H Hc). vm_compute in H. discriminate H.
Qed.

(** ** Deduplication *)

Section Deduplication.

Context (hash : string -> Z).

Local Abbreviation key := (content_hash hash).
Local Abbreviation kept := (fun seen l => deduplicate_from hash l seen []).

(** Two unions with the same members are the same set. *)
Ltac same_members :=
  apply set_eq; intros ?;
  rewrite ?elem_of_union, ?elem_of_singleton, ?elem_of_empty;
  intuition (subst; auto).

Lemma deduplicate_from_acc (l : list Document) (seen : gset Z)
    (acc : list Document) :
  deduplicate_from hash l seen acc
  = acc ++ deduplicate_from hash l seen [].
Proof.
  revert seen acc. induction l as [| d l IH]; intros seen acc; simpl.
  - now rewrite app_nil_r.
  - case_bool_decide; [apply IH |].
    rewrite (IH _ (acc ++ [d])), (IH _ [d]). now rewrite <- app_assoc.
Qed.

Lemma kept_cons (d : Document) (l : list Document) (seen : gset Z) :
  kept seen (d :: l)
  = if bool_decide (key d ∈ seen) then kept seen l
    else d :: kept ({[key d]} ∪ seen) l.
Proof.
  simpl. case_bool_decide; [reflexivity |].
  now rewrite deduplicate_from_acc.
Qed.

Lemma kept_sublist (l : list Document) (seen : gset Z) :
  sublist (kept seen l) l.
Proof.
  revert seen. induction l as [| d l IH]; intros seen.
  - constructor.
  - rewrite kept_cons. case_bool_decide.
    + apply sublist_cons, IH.
    + apply sublist_skip, IH.
Qed.

Lemma kept_fresh (l : list Document) (seen : gset Z) (d : Document) :
  d ∈ kept seen l -> key d ∉ seen.
Proof.
  revert seen. induction l as [| x l IH]; intros seen.
  - intros H. inversion H.
  - rewrite kept_cons. case_bool_decide as Hx.
    + apply IH.
    + intros [-> | Hin]%elem_of_cons; [exact Hx |].
      apply IH in Hin. intros Hseen. apply Hin.
      apply elem_of_union. now right.
Qed.

Lemma kept_NoDup (l : list Document) (seen : gset Z) :
  NoDup (map key (kept seen l)).
Proof.
  revert seen. induction l as [| x l IH]; intros seen.
  - constructor.
  - rewrite kept_cons. case_bool_decide as Hx; [apply IH |].
    simpl. constructor; [| apply IH].
    intros (d & Hk & Hd)%list_elem_of_fmap.
    apply kept_fresh in Hd. apply Hd.
    apply elem_of_union. left. now apply elem_of_singleton.
Qed.

Lemma kept_app (l1 l2 : list Document) (seen : gset Z) :
  kept seen (l1 ++ l2)
  = kept seen l1 ++ kept (list_to_set (map key l1) ∪ seen) l2.
Proof.
  revert seen. induction l1 as [| x l1 IH]; intros seen.
  - simpl. f_equal. same_members.
  - rewrite <- app_comm_cons, !kept_cons. case_bool_decide as Hx.
    + rewrite IH. do 2 f_equal. simpl. same_members.
    + rewrite IH. simpl. do 3 f_equal. same_members.
Qed.

Lemma kept_covers (l : list Document) (seen : gset Z) (d : Document) :
  d ∈ l -> key d ∉ seen -> exists d', d' ∈ kept seen l /\ key d' = key d.
Proof.
  revert seen. induction l as [| x l IH]; intros seen Hin Hfresh.
  - inversion Hin.
  - rewrite kept_cons. apply elem_of_cons in Hin as [-> | Hin].
    + rewrite bool_decide_eq_false_2 by exact Hfresh.
      exists x. split; [left | reflexivity].
    + case_bool_decide as Hx; [now apply IH |].
      destruct (decide (key d = key x)) as [E | Hne].
      * exists x. split; [left | now symmetry].
      * destruct (IH ({[key x]} ∪ seen) Hin) as (d' & Hd' & Hk).
        { intros [Hs | Hs]%elem_of_union; [| contradiction].
          apply elem_of_singleton in Hs. contradiction. }
        exists d'. split; [now right | exact Hk].
Qed.

Lemma kept_idempotent (l : list Document) (seen : gset Z) :
  kept seen (kept seen l) = kept seen l.
Proof.
  revert seen. induction l as [| x l IH]; intros seen.
  - reflexivity.
  - rewrite kept_cons. case_bool_decide as Hx; [apply IH |].
    rewrite kept_cons, bool_decide_eq_false_2 by exact Hx.
    now rewrite IH.
Qed.

End Deduplication.

(** C8. For every hash function and every list of documents, the
    deduplicated list is a sublist of the input in the input's order,
    holds no two documents with the same hash of the first 200
    characters, holds a document of every such group of the input, and
    the document it holds is the first of its group: a document with no
    earlier document of its hash is kept, right after what is kept of
    the documents before it. Deduplicating the result again changes
    nothing. *)
Theorem deduplicate_keeps_first_occurrences
    (hash : string -> Z) (results : list Document) :
  let key := content_hash hash in
  let unique_results := _deduplicate_results hash results in
  sublist unique_results results
  /\ NoDup (map key unique_results)
  /\ (forall doc, doc ∈ results ->
        exists first, first ∈ unique_results /\ key first = key doc)
  /\ (forall before doc after,
        results = before ++ doc :: after ->
        key doc ∉ map key before ->
        exists rest,
          unique_results = _deduplicate_results hash before ++ doc :: rest)
  /\ _deduplicate_results hash unique_results = unique_results.
Proof.
  cbv zeta. unfold _deduplicate_results. repeat split.
  - apply kept_sublist.
  - apply kept_NoDup.
  - intros doc Hin. apply kept_covers; [exact Hin | apply not_elem_of_empty].
  - intros before doc after -> Hfresh.
    rewrite kept_app, kept_cons, bool_decide_eq_false_2; [eauto |].
    rewrite elem_of_union, elem_of_list_to_set.
    intros [H | H]; [contradiction | now apply not_elem_of_empty in H].
  - apply kept_idempotent.
Qed.

(** C8, witness: of two chunks that share their first 200 characters
    only the first is kept, a third chunk after them is kept too. *)
Lemma deduplicate_keeps_first_occurrences_witness :
  _deduplicate_results sample_hash [chunk_a; chunk_b; chunk_c]
  = [chunk_a; chunk_c]
  /\ exists rest,
       _deduplicate_results sample_hash [chunk_a; chunk_b; chunk_c]
       = _deduplicate_results sample_hash [chunk_a; chunk_b]
         ++ chunk_c :: rest.
Proof.
  split; [vm_compute; reflexivity |].
  destruct (deduplicate_keeps_first_occurrences sample_hash
              [chunk_a; chunk_b; chunk_c]) as (_ & _ & _ & Hfirst & _).
  apply (Hfirst [chunk_a; chunk_b] chunk_c []); [reflexivity |].
  vm_compute. intros H.
  apply elem_of_cons in H as [H | H]; [discriminate H |].
  apply elem_of_cons in H as [H | H]; [discriminate H |].
  inversion H.
Defined.

(** ** Re-ranking *)

Section StableSort.

Context {A : Type} (key : A -> Q).

Lemma Qltb_true (a b : Q) : Qltb a b = true <-> (a < b)%Q.
Proof.
  unfold Qltb. rewrite negb_true_iff.
  destruct (Qle_bool b a) eqn:E.
  - apply Qle_bool_iff in E. split; [discriminate |].
    intros H. exfalso. exact (Qlt_not_le _ _ H E).
  - split; [intros _ | reflexivity].
    apply Qnot_le_lt. intros H. apply Qle_bool_iff in H. congruence.
Qed.

Lemma Qltb_false (a b : Q) : Qltb a b = false <-> (b <= a)%Q.
Proof.
  unfold Qltb. rewrite negb_false_iff. apply Qle_bool_iff.
Qed.

Lemma insert_desc_perm (x : A) (l : list A) :
  Permutation (insert_desc key x l) (x :: l).
Proof.
  induction l as [| y r IH]; simpl; [reflexivity |].
  destruct (Qltb (key x) (key y)); [| reflexivity].
  rewrite IH. apply perm_swap.
Qed.

Lemma sort_desc_perm (l : list A) : Permutation (sort_desc key l) l.
Proof.
  induction l as [| x r IH]; simpl; [reflexivity |].
  now rewrite insert_desc_perm, IH.
Qed.

Lemma insert_desc_sorted (x : A) (l : list A) :
  StronglySorted (descending key) l ->
  StronglySorted (descending key) (insert_desc key x l).
Proof.
  induction 1 as [| y r Hr IH Hy]; simpl.
  - repeat constructor.
  - destruct (Qltb (key x) (key y)) eqn:E.
    + constructor; [exact IH |].
      rewrite insert_desc_perm. constructor; [| exact Hy].
      apply Qltb_true in E. now apply Qlt_le_weak.
    + apply Qltb_false in E.
      constructor; [now constructor |].
      constructor; [exact E |].
      eapply Forall_impl; [exact Hy |].
      intros z Hz. unfold descending in *. now apply Qle_trans with (key y).
Qed.

Lemma sort_desc_sorted (l : list A) :
  StronglySorted (descending key) (sort_desc key l).
Proof.
  induction l as [| x r IH]; simpl; [constructor |].
  now apply insert_desc_sorted.
Qed.

(** Insertion only passes items with a strictly greater key, so the
    inserted item stays in front of the items of its own score. *)
Lemma insert_desc_same_score (s : Q) (x : A) (l : list A) :
  List.filter (same_score key s) (insert_desc key x l)
  = List.filter (same_score key s) (x :: l).
Proof.
  induction l as [| y r IH]; [reflexivity |].
  cbn [insert_desc]. destruct (Qltb (key x) (key y)) eqn:E; [| reflexivity].
  apply Qltb_true in E.
  cbn [List.filter] in *. rewrite IH.
  destruct (same_score key s x) eqn:Hx, (same_score key s y) eqn:Hy;
    try reflexivity.
  exfalso. unfold same_score in *.
  apply Qeq_bool_iff in Hx, Hy. rewrite Hx, Hy in E.
  exact (Qlt_irrefl _ E).
Qed.

Lemma sort_desc_stable (s : Q) (l : list A) :
  List.filter (same_score key s) (sort_desc key l)
  = List.filter (same_score key s) l.
Proof.
  induction l as [| x r IH]; [reflexivity |].
  cbn [sort_desc]. rewrite insert_desc_same_score.
  cbn [List.filter]. now rewrite IH.
Qed.

Lemma same_score_self (x : A) : same_score key (key x) x = true.
Proof. apply Qeq_bool_refl. Qed.

(** In a descending list no item has a greater key than the head. *)
Lemma descending_head_max (x : A) (l : list A) (z : A) :
  StronglySorted (descending key) (x :: l) -> In z (x :: l) ->
  (key z <= key x)%Q.
Proof.
  intros Hs [<- | Hz]; [apply Qle_refl |].
  apply StronglySorted_inv in Hs as [_ Hall].
  rewrite List.Forall_forall in Hall. exact (Hall z Hz).
Qed.

Lemma filter_cons_true (p : A -> bool) (x : A) (l : list A) :
  p x = true -> List.filter p (x :: l) = x :: List.filter p l.
Proof. intros H. cbn. now rewrite H. Qed.

Lemma filter_head_in (p : A -> bool) (l : list A) (x : A) (r : list A) :
  List.filter p l = x :: r -> In x l /\ p x = true.
Proof.
  intros H. apply List.filter_In. rewrite H. now left.
Qed.

(** Two descending lists with the same items of every score, in the
    same order, are the same list: the stable descending arrangement
    of a list is unique. *)
Lemma stable_descending_unique (l1 l2 : list A) :
  StronglySorted (descending key) l1 ->
  StronglySorted (descending key) l2 ->
  (forall s, List.filter (same_score key s) l1
             = List.filter (same_score key s) l2) ->
  l1 = l2.
Proof.
  revert l2. induction l1 as [| x r1 IH]; intros l2 H1 H2 Hsame.
  - destruct l2 as [| y r2]; [reflexivity |].
    specialize (Hsame (key y)). cbn in Hsame.
    rewrite same_score_self in Hsame. discriminate.
  - destruct l2 as [| y r2].
    { specialize (Hsame (key x)). cbn in Hsame.
      rewrite same_score_self in Hsame. discriminate. }
    assert (Hxy : (key x <= key y)%Q).
    { pose proof (Hsame (key x)) as Hx.
      rewrite (filter_cons_true _ x r1 (same_score_self x)) in Hx.
      symmetry in Hx. apply filter_head_in in Hx as [Hin _].
      exact (descending_head_max y r2 x H2 Hin). }
    assert (Hyx : (key y <= key x)%Q).
    { pose proof (Hsame (key y)) as Hy.
      rewrite (filter_cons_true _ y r2 (same_score_self y)) in Hy.
      apply filter_head_in in Hy as [Hin _].
      exact (descending_head_max x r1 y H1 Hin). }
    assert (Heq : key x == key y) by (now apply Qle_antisym).
    assert (Hhead : x = y).
    { pose proof (Hsame (key x)) as Hx. cbn [List.filter] in Hx.
      rewrite same_score_self in Hx.
      replace (same_score key (key x) y) with true in Hx
        by (symmetry; apply Qeq_bool_iff; now symmetry).
      now injection Hx. }
    subst y. f_equal.
    apply IH.
    + now apply StronglySorted_inv in H1.
    + now apply StronglySorted_inv in H2.
    + intros s. specialize (Hsame s). cbn [List.filter] in Hsame.
      destruct (same_score key s x); [now injection Hsame | exact Hsame].
Qed.

(** Hence whatever stable sort the runtime uses, its result is the one
    computed by [sort_desc]. *)
Corollary sort_desc_is_the_stable_sort (l sorted : list A) :
  StronglySorted (descending key) sorted ->
  (forall s, List.filter (same_score key s) sorted
             = List.filter (same_score key s) l) ->
  sorted = sort_desc key l.
Proof.
  intros Hsorted Hstable. apply stable_descending_unique.
  - exact Hsorted.
  - apply sort_desc_sorted.
  - intros s. now rewrite Hstable, sort_desc_stable.
Qed.

End StableSort.

Section Scores.

Context (days_old : string -> option Z).







End Scores.


(** ** The context window *)

Section Assembly.

Context (month_year : string -> option string).
Context (max_chars : Z).







End Assembly.




(** ** Retrieval *)

Section RetrievalPolicy.

Context (hash : string -> Z) (days_old : string -> option Z).
Context (similarity_search : string -> Z -> option (list Document)).
Context (llm : LLM).




(** The documents returned, as a function of the queries searched. *)
Lemma retrieve_result (query : string) (top_k : Z) (expand : bool)
    (w : world) :
  fst (retrieve_relevant_context hash days_old similarity_search llm
         query top_k expand w)
  = match search_all similarity_search
            (if expand then fst (expand_query llm query w) else [query])
            top_k with
    | [] => []
    | doc :: more =>
        Py.list_take top_k
          (_rerank_results days_old
             (_deduplicate_results hash (doc :: more)) query)
    end.
Proof.
  unfold retrieve_relevant_context, bind. destruct expand.
  - destruct (expand_query llm query w) as [queries w']. cbn [fst].
    now destruct (search_all similarity_search queries top_k).
  - unfold ret at 1.
    now destruct (search_all similarity_search [query] top_k).
Qed.

End RetrievalPolicy.




(** ** The agents *)

Section AgentFacts.

Context (llm : LLM).

Lemma evaluate_draft_trace (draft : Draft) (spec : GenerationSpec)
    (w : world) :
  trace (snd (evaluate_draft llm draft spec w)) = trace w.
Proof.
  unfold evaluate_draft, bind, chat, ret.
  destruct (passed _); cbn; [| reflexivity].
  now destruct (llm (llm_calls w)).
Qed.

Lemma refine_draft_trace (draft : Draft) (spec : GenerationSpec)
    (feedback : option string) (w : world) :
  trace (snd (refine_draft llm draft spec feedback w)) = trace w.
Proof.
  unfold refine_draft, bind, chat, ret.
  destruct (d_content draft); [| reflexivity]. cbn.
  destruct (llm (llm_calls w)); [| reflexivity].
  now destruct (d_topic draft).
Qed.

Lemma with_error_not_empty (message : string) (draft : Draft) :
  draft_is_empty (with_error message draft) = false.
Proof.
  unfold draft_is_empty, with_error. cbn.
  destruct (d_content draft), (d_word_count draft), (d_topic draft),
    (d_spec draft), (d_iteration draft), (d_error draft); reflexivity.
Qed.

Lemma refine_draft_not_empty (draft : Draft) (spec : GenerationSpec)
    (feedback : option string) (w : world) :
  draft_is_empty (fst (refine_draft llm draft spec feedback w)) = false.
Proof.
  unfold refine_draft, bind, chat, ret.
  destruct (d_content draft); [| apply with_error_not_empty]. cbn.
  destruct (llm (llm_calls w)); [| apply with_error_not_empty].
  destruct (d_topic draft); [reflexivity | apply with_error_not_empty].
Qed.

(** A refinement pass keeps the iteration number or raises it by one. *)
Lemma refine_draft_iteration (draft : Draft) (spec : GenerationSpec)
    (feedback : option string) (w : world) :
  let refined := fst (refine_draft llm draft spec feedback w) in
  default 1 (d_iteration draft) <= default 1 (d_iteration refined)
  <= default 1 (d_iteration draft) + 1.
Proof.
  unfold refine_draft, bind, chat, ret.
  destruct (d_content draft); [| cbn; lia]. cbn.
  destruct (llm (llm_calls w)); [| cbn; lia].
  destruct (d_topic draft); cbn; lia.
Qed.

(** A refinement pass that succeeds, the endpoint answering and the
    draft having its content and topic, raises the iteration number by
    exactly one. *)
Lemma refine_draft_success (draft : Draft) (spec : GenerationSpec)
    (feedback : option string) (w : world) (content topic response : string)
    (i : Z) :
  d_content draft = Some content -> d_topic draft = Some topic ->
  d_iteration draft = Some i ->
  llm (llm_calls w) = Reply response ->
  let refined := fst (refine_draft llm draft spec feedback w) in
  is_Some (d_content refined) /\ d_topic refined = Some topic
  /\ d_iteration refined = Some (i + 1) /\ d_error refined = None.
Proof.
  intros Hc Ht Hi Hr. unfold refine_draft, bind, chat, ret.
  rewrite Hc. cbn. rewrite Hr, Ht, Hi. cbn. repeat split. eauto.
Qed.

Lemma compose_draft_trace (topic : string) (ro : RetrieverOutput)
    (spec : GenerationSpec) (w : world) :
  trace (snd (compose_draft llm topic ro spec w)) = trace w.
Proof.
  unfold compose_draft, bind, chat, ret. cbn.
  now destruct (llm (llm_calls w)).
Qed.

(** A composed draft without [error] has content, topic and the
    iteration number 1. *)
Lemma compose_draft_shape (topic : string) (ro : RetrieverOutput)
    (spec : GenerationSpec) (w : world) :
  let draft := fst (compose_draft llm topic ro spec w) in
  d_error draft = None ->
  is_Some (d_content draft) /\ d_topic draft = Some topic
  /\ d_iteration draft = Some 1 /\ draft_is_empty draft = false.
Proof.
  unfold compose_draft, bind, chat, ret. cbn.
  destruct (llm (llm_calls w)); cbn; [eauto | discriminate].
Qed.

End AgentFacts.

(** ** The refinement loop *)

Section RangeFacts.

Lemma range_nonpositive (n : Z) : n <= 0 -> range n = [].
Proof.
  intros H. unfold range. now replace (Z.to_nat n) with 0%nat by lia.
Qed.

Lemma range_positive (n : Z) :
  1 <= n ->
  exists later,
    range n = 0 :: later
    /\ Forall (fun i => 0 < i) later
    /\ Z.of_nat (length later) = n - 1.
Proof.
  intros H. unfold range.
  destruct (Z.to_nat n) as [| k] eqn:E; [lia |].
  exists (map Z.of_nat (seq 1 k)). cbn. split; [reflexivity | split].
  - apply List.Forall_forall. intros i (j & <- & Hj%in_seq)%in_map_iff. lia.
  - rewrite length_map, length_seq. lia.
Qed.

Lemma range_length (n : Z) : length (range n) = Z.to_nat n.
Proof. unfold range. now rewrite length_map, length_seq. Qed.

Lemma filter_length_le {A : Type} (p : A -> bool) (l : list A) :
  (length (List.filter p l) <= length l)%nat.
Proof.
  induction l as [| x r IH]; cbn; [lia |]. destruct (p x); cbn; lia.
Qed.

(** At most [n - 1] iteration numbers of [range(n)] are positive. *)
Lemma range_refinements (n : Z) :
  Z.of_nat (length (List.filter (Z.ltb 0) (range n))) <= Z.max 1 n - 1.
Proof.
  destruct (Z_lt_le_dec n 1) as [Hn | Hn].
  - rewrite range_nonpositive by lia. cbn. lia.
  - destruct (range_positive n Hn) as (later & -> & _ & Hlen).
    cbn. pose proof (filter_length_le (Z.ltb 0) later). lia.
Qed.

End RangeFacts.

Section LoopFacts.

Context (llm : LLM) (max_iterations : Z).

Local Abbreviation loop := (refinement_for llm max_iterations).
Local Abbreviation step := (refine_step llm).

(** One iteration of the loop, written out. *)
Lemma refinement_for_cons (iteration : Z) (later : list Z)
    (spec : GenerationSpec) (cur : Draft) (fb : option string) (w : world) :
  loop (iteration :: later) spec cur fb w
  = let w0 := logged (IterationStarted (iteration + 1) max_iterations) w in
    let cur' := fst (step iteration spec cur fb w0) in
    let w1 := snd (step iteration spec cur fb w0) in
    let evaluation := fst (evaluate_draft llm cur' spec w1) in
    let w2 := snd (evaluate_draft llm cur' spec w1) in
    if ev_approved evaluation
    then (cur', logged (DraftApproved (iteration + 1)) w2)
    else loop later spec cur' (Some (ev_feedback evaluation))
           (logged Paused
              (logged (DraftRejected (ev_feedback evaluation)) w2)).
Proof.
  cbn [refinement_for]. unfold bind at 1 2 3. unfold log at 1.
  cbv zeta. fold (logged (IterationStarted (iteration + 1) max_iterations) w).
  destruct (step iteration spec cur fb _) as [cur' w1]. cbn [fst snd].
  destruct (evaluate_draft llm cur' spec w1) as [evaluation w2].
  cbn [fst snd]. destruct (ev_approved evaluation); reflexivity.
Qed.

Lemma refinement_for_nil (spec : GenerationSpec) (cur : Draft)
    (fb : option string) (w : world) :
  loop [] spec cur fb w = (cur, logged MaxIterationsReached w).
Proof. reflexivity. Qed.

(** The refine step writes at most a failure line. *)
Lemma refine_step_trace (iteration : Z) (spec : GenerationSpec)
    (cur : Draft) (fb : option string) (w : world) :
  trace (snd (step iteration spec cur fb w)) = trace w
  \/ exists e, trace (snd (step iteration spec cur fb w))
               = trace w ++ [RefinementFailed e].
Proof.
  unfold refine_step, bind. destruct (_ && _); [| now left].
  pose proof (refine_draft_trace llm cur spec fb w) as Ht.
  destruct (refine_draft llm cur spec fb w) as [refined w1]. cbn in Ht.
  destruct (d_error refined) as [e |]; cbn.
  - right. exists e. now rewrite Ht.
  - now left.
Qed.

Lemma refine_step_result (iteration : Z) (spec : GenerationSpec)
    (cur : Draft) (fb : option string) (w : world) :
  fst (step iteration spec cur fb w)
  = if truthy fb && (0 <? iteration)
    then fst (refine_draft llm cur spec fb w)
    else cur.
Proof.
  unfold refine_step, bind. destruct (_ && _); [| reflexivity].
  destruct (refine_draft llm cur spec fb w) as [refined w1].
  now destruct (d_error refined).
Qed.

Lemma refine_step_not_empty (iteration : Z) (spec : GenerationSpec)
    (cur : Draft) (fb : option string) (w : world) :
  draft_is_empty cur = false ->
  draft_is_empty (fst (step iteration spec cur fb w)) = false.
Proof.
  intros H. rewrite refine_step_result.
  destruct (_ && _); [apply refine_draft_not_empty | exact H].
Qed.

Lemma refine_step_iteration (iteration : Z) (spec : GenerationSpec)
    (cur : Draft) (fb : option string) (w : world) :
  default 1 (d_iteration (fst (step iteration spec cur fb w)))
  <= default 1 (d_iteration cur) + (if 0 <? iteration then 1 else 0).
Proof.
  rewrite refine_step_result.
  pose proof (refine_draft_iteration llm cur spec fb w) as H. cbv zeta in H.
  destruct (truthy fb), (0 <? iteration); cbn; lia.
Qed.

(** What the loop writes: its own lines only, one start line per
    iteration, and a verdict line at the end. *)
Lemma refinement_for_trace (numbers : list Z) (spec : GenerationSpec)
    (cur : Draft) (fb : option string) (w : world) :
  exists new,
    trace (snd (loop numbers spec cur fb w)) = trace w ++ new
    /\ count_events is_fallback new = 0%nat
    /\ (count_events is_iteration_started new <= length numbers)%nat
    /\ (last new = Some MaxIterationsReached
        \/ exists k, last new = Some (DraftApproved k)).
Proof.
  revert cur fb w. induction numbers as [| i later IH]; intros cur fb w.
  - rewrite refinement_for_nil. exists [MaxIterationsReached].
    cbn. repeat split; auto.
  - rewrite refinement_for_cons. cbv zeta.
    set (w0 := logged _ w).
    pose proof (refine_step_trace i spec cur fb w0) as Hstep.
    set (cur' := fst (step i spec cur fb w0)) in *.
    set (w1 := snd (step i spec cur fb w0)) in *.
    pose proof (evaluate_draft_trace llm cur' spec w1) as Heval.
    set (evaluation := fst (evaluate_draft llm cur' spec w1)) in *.
    set (w2 := snd (evaluate_draft llm cur' spec w1)) in *.
    assert (Hmid : exists mid,
               trace w2 = trace w ++ IterationStarted (i + 1) max_iterations
                                  :: mid
               /\ count_events is_fallback mid = 0%nat
               /\ count_events is_iteration_started mid = 0%nat).
    { rewrite Heval. destruct Hstep as [-> | [e ->]].
      - exists []. subst w0. cbn. repeat split.
      - exists [RefinementFailed e]. subst w0. cbn.
        rewrite <- app_assoc. repeat split. }
    destruct Hmid as (mid & Hw2 & Hfb & Hst).
    destruct (ev_approved evaluation).
    + exists (IterationStarted (i + 1) max_iterations
              :: mid ++ [DraftApproved (i + 1)]).
      cbn [snd logged trace]. rewrite Hw2.
      split; [now rewrite <- app_assoc |].
      unfold count_events in *. cbn [List.filter is_fallback
        is_iteration_started length].
      rewrite !List.filter_app, !length_app in *. cbn.
      rewrite Hfb, Hst. repeat split; try lia.
      right. exists (i + 1). rewrite app_comm_cons. apply last_snoc.
    + destruct (IH cur' (Some (ev_feedback evaluation))
                  (logged Paused
                     (logged (DraftRejected (ev_feedback evaluation)) w2)))
        as (rest & Htrace & Hfb' & Hst' & Hlast).
      exists (IterationStarted (i + 1) max_iterations
              :: mid ++ DraftRejected (ev_feedback evaluation)
                        :: Paused :: rest).
      rewrite Htrace. cbn [logged trace]. rewrite Hw2.
      split; [now rewrite <- !app_assoc |].
      unfold count_events in *. cbn [List.filter is_fallback
        is_iteration_started length].
      rewrite !List.filter_app, !length_app in *. cbn.
      rewrite Hfb, Hst, Hfb'. repeat split; try lia.
      assert (Hshift : forall (pre : list event),
                 last (pre ++ rest) = last rest).
      { intros pre. destruct Hlast as [Hl | [k Hl]];
          destruct rest as [| r rest' _] using rev_ind;
          try discriminate; now rewrite app_assoc, !last_snoc. }
      change (IterationStarted (i + 1) max_iterations
              :: mid ++ DraftRejected (ev_feedback evaluation)
                        :: Paused :: rest)
        with ((IterationStarted (i + 1) max_iterations :: mid)
              ++ [DraftRejected (ev_feedback evaluation); Paused] ++ rest).
      now rewrite app_assoc, Hshift.
Qed.

Lemma refinement_for_not_empty (numbers : list Z) (spec : GenerationSpec)
    (cur : Draft) (fb : option string) (w : world) :
  draft_is_empty cur = false ->
  draft_is_empty (fst (loop numbers spec cur fb w)) = false.
Proof.
  revert cur fb w. induction numbers as [| i later IH]; intros cur fb w H.
  - exact H.
  - rewrite refinement_for_cons. cbv zeta.
    destruct (ev_approved _); cbn [fst].
    + now apply refine_step_not_empty.
    + apply IH. now apply refine_step_not_empty.
Qed.

(** The iteration number grows by at most one per iteration after the
    first. *)
Lemma refinement_for_iteration (numbers : list Z) (spec : GenerationSpec)
    (cur : Draft) (fb : option string) (w : world) :
  default 1 (d_iteration (fst (loop numbers spec cur fb w)))
  <= default 1 (d_iteration cur)
     + Z.of_nat (length (List.filter (Z.ltb 0) numbers)).
Proof.
  revert cur fb w. induction numbers as [| i later IH]; intros cur fb w.
  - cbn. lia.
  - rewrite refinement_for_cons. cbv zeta.
    set (w0 := logged _ w).
    pose proof (refine_step_iteration i spec cur fb w0) as Hstep.
    cbn [List.filter].
    destruct (ev_approved _); cbn [fst].
    + destruct (0 <? i); cbn [length]; lia.
    + etransitivity; [apply IH |].
      destruct (0 <? i); cbn [length]; lia.
Qed.

(** A run that ends with an approval returns the draft that the
    evaluator approved. *)
Lemma refinement_for_approved (numbers : list Z) (spec : GenerationSpec)
    (cur : Draft) (fb : option string) (w : world) (k : Z) :
  last (trace (snd (loop numbers spec cur fb w))) = Some (DraftApproved k) ->
  exists w1,
    ev_approved
      (fst (evaluate_draft llm (fst (loop numbers spec cur fb w)) spec w1))
    = true.
Proof.
  revert cur fb w. induction numbers as [| i later IH]; intros cur fb w.
  - rewrite refinement_for_nil. cbn [snd logged trace].
    rewrite last_snoc. discriminate.
  - rewrite refinement_for_cons. cbv zeta.
    destruct (ev_approved _) eqn:E.
    + intros _. cbn [fst]. eauto.
    + apply IH.
Qed.

Lemma loop_unfold (initial_draft : Draft) (spec : GenerationSpec)
    (w : world) :
  _iterative_refinement_loop llm max_iterations initial_draft spec w
  = (Some (fst (loop (range max_iterations) spec initial_draft None w)),
     snd (loop (range max_iterations) spec initial_draft None w)).
Proof.
  unfold _iterative_refinement_loop, bind, ret.
  now destruct (refinement_for _ _ _ _ _ _ _).
Qed.

Lemma last_suffix (old new : list event) (e : event) :
  last new = Some e -> last (old ++ new) = Some e.
Proof. intros H. now rewrite last_app, H. Qed.

End LoopFacts.

Section Exhaustion.

Context (llm : LLM) (max_iterations : Z).

(** The endpoint always answers, and no answer read as a verdict leaves
    the feedback blank. *)
Hypothesis Hreply : forall n, exists r, llm n = Reply r.
Hypothesis Hfeedback :
  forall n r, llm n = Reply r ->
              v_feedback (_parse_evaluation_response r) <> EmptyString.

Local Abbreviation loop := (refinement_for llm max_iterations).

Lemma truthy_not_blank (s : string) :
  s <> EmptyString -> truthy (Some s) = true.
Proof. destruct s; [congruence | reflexivity]. Qed.

Lemma rejection_feedback_truthy (draft : Draft) (spec : GenerationSpec)
    (w : world) :
  truthy (Some (ev_feedback (fst (evaluate_draft llm draft spec w)))) = true.
Proof.
  apply truthy_not_blank. unfold evaluate_draft, bind, chat, ret.
  destruct (passed _); cbn; [| apply basic_feedback_not_blank].
  destruct (llm (llm_calls w)) as [r | e] eqn:E; cbn.
  - exact (Hfeedback _ r E).
  - discriminate.
Qed.

(** From the second iteration on, every iteration that does not approve
    refines once more. *)
Lemma refinement_for_exhausted (numbers : list Z) (spec : GenerationSpec)
    (cur : Draft) (fb : option string) (w : world)
    (content topic : string) (i0 : Z) :
  Forall (fun i => 0 < i) numbers ->
  truthy fb = true ->
  d_content cur = Some content -> d_topic cur = Some topic ->
  d_iteration cur = Some i0 ->
  last (trace (snd (loop numbers spec cur fb w)))
  = Some MaxIterationsReached ->
  d_iteration (fst (loop numbers spec cur fb w))
  = Some (i0 + Z.of_nat (length numbers)).
Proof.
  intros Hpos. revert cur fb w content topic i0.
  induction Hpos as [| i later Hi _ IH];
    intros cur fb w content topic i0 Hfb Hc Ht Hit.
  - intros _. cbn. rewrite Hit. f_equal. lia.
  - rewrite refinement_for_cons. cbv zeta.
    set (w0 := logged _ w).
    assert (Hrefine : truthy fb && (0 <? i) = true).
    { rewrite Hfb. cbn. apply Z.ltb_lt. exact Hi. }
    destruct (Hreply (llm_calls w0)) as [response Hresponse].
    destruct (refine_draft_success llm cur spec fb w0 content topic
                response i0 Hc Ht Hit Hresponse)
      as ([content' Hc'] & Ht' & Hit' & _).
    assert (Hstep : fst (refine_step llm i spec cur fb w0)
                    = fst (refine_draft llm cur spec fb w0))
      by (now rewrite refine_step_result, Hrefine).
    rewrite <- Hstep in Hc', Ht', Hit'. clear Hstep.
    set (cur' := fst (refine_step llm i spec cur fb w0)) in *.
    set (w1 := snd (refine_step llm i spec cur fb w0)).
    pose proof (rejection_feedback_truthy cur' spec w1) as Hfb'.
    destruct (ev_approved _).
    + cbn [snd logged trace]. rewrite last_snoc. discriminate.
    + intros Hlast.
      rewrite (IH cur' _ _ content' topic (i0 + 1) Hfb' Hc' Ht' Hit' Hlast).
      f_equal. cbn [length]. lia.
Qed.

Lemma refinement_loop_exhausted (spec : GenerationSpec) (cur : Draft)
    (w : world) (content topic : string) :
  1 <= max_iterations ->
  d_content cur = Some content -> d_topic cur = Some topic ->
  d_iteration cur = Some 1 ->
  last (trace (snd (loop (range max_iterations) spec cur None w)))
  = Some MaxIterationsReached ->
  d_iteration (fst (loop (range max_iterations) spec cur None w))
  = Some max_iterations.
Proof.
  intros Hcap Hc Ht Hit.
  destruct (range_positive max_iterations Hcap) as (later & -> & Hpos & Hlen).
  rewrite refinement_for_cons. cbv zeta.
  set (w0 := logged _ w).
  rewrite !(refine_step_result llm 0 spec cur None w0). cbn [truthy andb].
  set (w1 := snd (refine_step llm 0 spec cur None w0)).
  pose proof (rejection_feedback_truthy cur spec w1) as Hfb'.
  destruct (ev_approved _).
  - cbn [snd logged trace]. rewrite last_snoc. discriminate.
  - intros Hlast.
    rewrite (refinement_for_exhausted later spec cur _ _ content topic 1
               Hpos Hfb' Hc Ht Hit Hlast).
    f_equal. lia.
Qed.

End Exhaustion.

(** ** The workflow *)

(** C2, as amended. For every cap and every endpoint, the refinement
    loop started on a draft with iteration number 1 returns a draft,
    starts at most as many iterations as the cap says, and returns a
    draft whose iteration number is at most the cap, or 1 for a cap
    below 1. When the cap is at least 1, the draft has its content and
    topic, every request to the endpoint is answered and no verdict
    leaves the feedback blank, a run that ends by exhaustion returns a
    draft whose iteration number is the cap. *)
Theorem refinement_loop_respects_cap
    (llm : LLM) (max_iterations : Z) (initial_draft : Draft)
    (spec : GenerationSpec) (w : world) :
  d_iteration initial_draft = Some 1 ->
  let run :=
    _iterative_refinement_loop llm max_iterations initial_draft spec w in
  exists final new,
    fst run = Some final
    /\ trace (snd run) = trace w ++ new
    /\ (count_events is_iteration_started new <= Z.to_nat max_iterations)%nat
    /\ default 1 (d_iteration final) <= Z.max 1 max_iterations
    /\ (1 <= max_iterations ->
        is_Some (d_content initial_draft) ->
        is_Some (d_topic initial_draft) ->
        (forall n, exists r, llm n = Reply r) ->
        (forall n r, llm n = Reply r ->
                     v_feedback (_parse_evaluation_response r)
                     <> EmptyString) ->
        last new = Some MaxIterationsReached ->
        d_iteration final = Some max_iterations).
Proof.
  intros Hit run. subst run. rewrite loop_unfold. cbn [fst snd].
  destruct (refinement_for_trace llm max_iterations (range max_iterations)
              spec initial_draft None w)
    as (new & Htrace & _ & Hstarted & _).
  eexists. exists new. split; [reflexivity |]. split; [exact Htrace |].
  split; [now rewrite range_length in Hstarted |]. split.
  - pose proof (refinement_for_iteration llm max_iterations
                  (range max_iterations) spec initial_draft None w) as Hle.
    pose proof (range_refinements max_iterations) as Hr.
    rewrite Hit in Hle. change (default 1 (Some 1)) with 1 in Hle. lia.
  - intros Hcap [content Hc] [topic Ht] Hreply Hfeedback Hlast.
    eapply refinement_loop_exhausted; eauto.
    rewrite Htrace. now apply last_suffix.
Qed.

(** C2, witness: the composed sample draft, a cap of 5 and an endpoint
    whose every answer is the same short text; the run is exhausted
    after 5 iterations and returns a draft with iteration number 5. *)
Lemma refinement_loop_respects_cap_witness :
  exists final new,
    fst (_iterative_refinement_loop stubborn_llm 5 composed_draft
           (spec_with_bounds 1000 1500) idle_world) = Some final
    /\ last new = Some MaxIterationsReached
    /\ (count_events is_iteration_started new <= 5)%nat
    /\ d_iteration final = Some 5.
Proof.
  destruct (refinement_loop_respects_cap stubborn_llm 5 composed_draft
              (spec_with_bounds 1000 1500) idle_world eq_refl)
    as (final & new & Hfinal & Htrace & Hstarted & _ & Hexhausted).
  exists final, new.
  assert (Hlast : last new = Some MaxIterationsReached).
  { vm_compute in Htrace. subst new. reflexivity. }
  split; [exact Hfinal |]. split; [exact Hlast |].
  split; [exact Hstarted |].
  apply Hexhausted.
  - lia.
  - vm_compute. eauto.
  - vm_compute. eauto.
  - intros n. exists "draft". reflexivity.
  - intros n r [= <-]. vm_compute. discriminate.
  - exact Hlast.
Defined.

(** C2, counterexample to the claim as stated: with a cap of 0 the loop
    is exhausted at once and returns the composed draft, whose
    iteration number is 1; with a cap of 3 and an endpoint that is
    down, every refinement fails and the exhausted run returns a draft
    whose iteration number is still 1. *)
Lemma exhausted_iteration_counterexample :
  d_iteration composed_draft = Some 1
  /\ (let run := _iterative_refinement_loop stubborn_llm 0 composed_draft
                   (spec_with_bounds 1000 1500) idle_world in
      last (trace (snd run)) = Some MaxIterationsReached
      /\ fst run ≫= d_iteration = Some 1
      /\ 1 <> 0)
  /\ (let run := _iterative_refinement_loop failing_llm 3 composed_draft
                   (spec_with_bounds 1000 1500) idle_world in
      last (trace (snd run)) = Some MaxIterationsReached
      /\ fst run ≫= d_iteration = Some 1
      /\ 1 <> 3).
Proof. vm_compute. repeat split; discriminate. Qed.

(** C10. The refinement loop always returns a draft: for every initial
    draft there is a returned one, never the missing value; it is a
    non-empty dictionary whenever the initial draft is; the run ends
    either by exhaustion or by an approval, and in the second case the
    returned draft is one the evaluator approves. Hence, with a
    retriever and an ingestor that do not write to the orchestrator's
    log, [generate_blog_post] never takes the fallback branch: it logs
    no fallback line. *)
Theorem refinement_loop_always_returns_a_draft
    (llm : LLM)
    (search_and_synthesize :
       string -> GenerationSpec -> Z -> M RetrieverOutput)
    (ingest_final_content : Draft -> SpecData -> M IngestionResult)
    (max_iterations top_k_retrieval : Z) :
  (forall initial_draft spec w,
      let run :=
        _iterative_refinement_loop llm max_iterations initial_draft spec w in
      exists final new,
        fst run = Some final
        /\ trace (snd run) = trace w ++ new
        /\ (draft_is_empty initial_draft = false ->
            draft_is_empty final = false)
        /\ (last new = Some MaxIterationsReached
            \/ exists k w1,
                 last new = Some (DraftApproved k)
                 /\ ev_approved (fst (evaluate_draft llm final spec w1))
                    = true))
  /\ ((forall topic spec top_k w,
          trace (snd (search_and_synthesize topic spec top_k w)) = trace w) ->
      (forall final_draft spec_data w,
          trace (snd (ingest_final_content final_draft spec_data w))
          = trace w) ->
      forall topic spec_data w,
        count_events is_fallback
          (trace (snd (generate_blog_post llm search_and_synthesize
                         ingest_final_content max_iterations top_k_retrieval
                         topic spec_data w)))
        = count_events is_fallback (trace w)).
Proof.
  split.
  - intros initial_draft spec w run. subst run. rewrite loop_unfold.
    cbn [fst snd].
    destruct (refinement_for_trace llm max_iterations (range max_iterations)
                spec initial_draft None w)
      as (new & Htrace & _ & _ & Hlast).
    eexists. exists new. split; [reflexivity |]. split; [exact Htrace |].
    split; [apply refinement_for_not_empty |].
    destruct Hlast as [Hmax | [k Hk]]; [now left | right].
    assert (Hwhole := last_suffix (trace w) new _ Hk).
    rewrite <- Htrace in Hwhole.
    destruct (refinement_for_approved llm max_iterations _ _ _ _ _ _ Hwhole)
      as [w1 Hw1].
    eauto.
  - intros Hretriever Hingestor topic spec_data w.
    unfold generate_blog_post.
    destruct (word_counts _) as [min_w max_w].
    destruct (make_spec _) as [spec |]; [| reflexivity].
    unfold bind at 1.
    pose proof (Hretriever topic spec top_k_retrieval w) as Hr.
    destruct (search_and_synthesize topic spec top_k_retrieval w)
      as [retriever_output w1]. cbn [snd] in Hr.
    destruct (summary retriever_output) as [| c s] eqn:Hs;
      [cbn; now rewrite Hr |].
    unfold bind at 1.
    pose proof (compose_draft_trace llm topic retriever_output spec w1) as Hc.
    pose proof (compose_draft_shape llm topic retriever_output spec w1) as Hd.
    cbv zeta in Hd.
    destruct (compose_draft llm topic retriever_output spec w1)
      as [draft w2]. cbn [fst snd] in Hc, Hd.
    destruct (d_error draft) as [e |]; [cbn; congruence |].
    destruct (Hd eq_refl) as (_ & _ & _ & Hnonempty).
    unfold bind at 1. rewrite loop_unfold.
    destruct (refinement_for_trace llm max_iterations (range max_iterations)
                spec draft None w2) as (new & Htrace & Hfb & _ & _).
    pose proof (refinement_for_not_empty llm max_iterations
                  (range max_iterations) spec draft None w2 Hnonempty) as Hne.
    set (final := fst (refinement_for _ _ _ _ _ _ _)) in *.
    set (w3 := snd (refinement_for _ _ _ _ _ _ _)) in *.
    rewrite Hne. unfold bind at 1. unfold ret at 1.
    unfold bind at 1.
    match goal with
    | |- context [ingest_final_content final ?sd w3] =>
        pose proof (Hingestor final sd w3) as Hi;
        destruct (ingest_final_content final sd w3) as [ingestion w4]
    end.
    cbn [snd] in Hi.
    assert (Hw4 : count_events is_fallback (trace w4)
                  = count_events is_fallback (trace w)).
    { rewrite Hi, Htrace, Hc, Hr. unfold count_events in *.
      rewrite List.filter_app, length_app, Hfb. lia. }
    destruct (negb _); exact Hw4.
Qed.

(** C10, witness: the sample run, whose collaborators do not log. *)
Lemma refinement_loop_always_returns_a_draft_witness :
  count_events is_fallback
    (trace (snd (generate_blog_post stubborn_llm sample_retriever
                   sample_ingestor 5 5 "Topic" sample_spec_data idle_world)))
  = 0%nat.
Proof.
  destruct (refinement_loop_always_returns_a_draft stubborn_llm
              sample_retriever sample_ingestor 5 5) as [_ Hdead].
  rewrite Hdead; reflexivity.
Defined.

(** Whatever the run, the result says "approved" exactly when it is a
    success, and "pending" otherwise: the verdicts of the evaluator do
    not reach the result. *)
Lemma approval_status_follows_success
    (llm : LLM)
    (search_and_synthesize :
       string -> GenerationSpec -> Z -> M RetrieverOutput)
    (ingest_final_content : Draft -> SpecData -> M IngestionResult)
    (max_iterations top_k_retrieval : Z)
    (topic : string) (spec_data : SpecData) (w : world) :
  let result :=
    fst (generate_blog_post llm search_and_synthesize ingest_final_content
           max_iterations top_k_retrieval topic spec_data w) in
  approval_status result = if success result then "approved" else "pending".
Proof.
  cbv zeta. unfold generate_blog_post.
  destruct (word_counts _) as [min_w max_w].
  destruct (make_spec _) as [spec |]; [| reflexivity].
  unfold bind.
  destruct (search_and_synthesize topic spec top_k_retrieval w)
    as [retriever_output w1].
  destruct (summary retriever_output); [reflexivity |].
  destruct (compose_draft llm topic retriever_output spec w1) as [draft w2].
  destruct (d_error draft); [reflexivity |].
  destruct (_iterative_refinement_loop llm max_iterations draft spec w2)
    as [looped w3].
  destruct looped as [d |]; [destruct (draft_is_empty d) |];
    unfold log, ret;
    match goal with
    | |- context [ingest_final_content ?a ?b ?c] =>
        destruct (ingest_final_content a b c) as [ingestion w5]
    end;
    destruct (negb _); reflexivity.
Qed.

(** C1, the run at which the code departs from the claim. The endpoint
    answers every request with the same short text, so every draft
    fails the mechanical checks; with a cap of 5 the log has five
    iterations, no approval, and ends with the line for the cap being
    reached. The workflow returns the last draft, of iteration 5 and
    with non-empty content, as a success, and its approval status says
    "approved". *)
Theorem exhausted_run_is_reported_approved :
  let run := generate_blog_post stubborn_llm sample_retriever sample_ingestor
               5 5 "Topic" sample_spec_data idle_world in
  let result := fst run in
  let log := trace (snd run) in
  count_events is_draft_approved log = 0%nat
  /\ last log = Some MaxIterationsReached
  /\ count_events is_iteration_started log = 5%nat
  /\ success result = true
  /\ iterations result = 5
  /\ final_content result ≫= d_content = Some "draft"
  /\ approval_status result = "approved".
Proof. vm_compute. repeat split. Qed.

(* ================================================================== *)
(** * Part III: further properties of the code                         *)
(* ================================================================== *)

(** ** The evaluator, further *)

Section HeadingFacts.

Lemma h2_here_inv (s : string) :
  Py.h2_here s = true ->
  exists c r, s = String "#" (String "#" (String c r)) /\ Py.isspace c = true.
Proof.
  destruct s as [|a s]; [discriminate | ].
  destruct a as [[] [] [] [] [] [] [] []]; try discriminate.
  destruct s as [|b s]; [discriminate | ].
  destruct b as [[] [] [] [] [] [] [] []]; try discriminate.
  destruct s as [|c r]; [discriminate | ].
  intros H. exists c, r. split; [reflexivity | exact H].
Qed.

Lemma h2_here_hn_here (s : string) :
  Py.h2_here s = true -> Py.hn_here s = true.
Proof.
  intros H. destruct (h2_here_inv s H) as (c & r & -> & Hc).
  change (Py.hashes_then_space (String c r) = true).
  simpl. destruct (Ascii.eqb c "#") eqn:E; [ | exact Hc].
  apply Ascii.eqb_eq in E. subst. discriminate.
Qed.

Lemma count_line_starts_mono (p q : string -> bool) :
  (forall s, p s = true -> q s = true) ->
  forall s bol,
    (Py.count_line_starts p bol s <= Py.count_line_starts q bol s)%nat.
Proof.
  intros Hpq. induction s as [|c r IH]; intros bol; simpl; [lia | ].
  specialize (IH (Ascii.eqb c Py.nl)).
  destruct bol; simpl; [ | lia].
  destruct (p (String c r)) eqn:Ep.
  - rewrite (Hpq _ Ep). lia.
  - destruct (q (String c r)); lia.
Qed.

Lemma structure_implies_markdown (content : string) :
  _check_structure content = true ->
  _check_markdown_formatting content = true.
Proof.
  unfold _check_structure, _check_markdown_formatting, Py.search,
    Py.findall_count.
  intros H. apply andb_prop in H as [H _]. apply andb_prop in H as [_ H].
  apply Z.leb_le in H. apply Z.ltb_lt.
  pose proof (count_line_starts_mono Py.h2_here Py.hn_here h2_here_hn_here
                content true).
  lia.
Qed.

End HeadingFacts.

Section EvaluatorExtras.

Lemma passed_feedback_text (draft : Draft) (spec : GenerationSpec) :
  passed (_perform_basic_validation draft spec) = true ->
  basic_feedback (_perform_basic_validation draft spec)
  = "All basic checks passed".
Proof.
  unfold _perform_basic_validation. cbn [passed basic_feedback chk_structure
    chk_word_count chk_markdown].
  intros H. apply andb_prop in H as [H H3]. apply andb_prop in H as [H1 H2].
  rewrite H1, H2, H3. reflexivity.
Qed.

(** X1. The structure check subsumes the markdown check. A content with two
    second-level headings has a heading, so whenever the markdown check
    fails the structure check fails too, and a feedback text that holds the
    markdown message also holds the structure message: the markdown message
    never comes alone. *)
Theorem markdown_failure_implies_structure_failure
    (draft : Draft) (spec : GenerationSpec) :
  let basic := _perform_basic_validation draft spec in
  (chk_markdown (checks basic) = false ->
   chk_structure (checks basic) = false)
  /\ (Py.contains markdown_message (basic_feedback basic) = true ->
      Py.contains structure_message (basic_feedback basic) = true).
Proof.
  intros basic.
  assert (Himp : chk_markdown (checks basic) = false ->
                 chk_structure (checks basic) = false).
  { subst basic. unfold _perform_basic_validation.
    cbn [checks chk_markdown chk_structure].
    intros Hm.
    destruct (_check_structure (default EmptyString (d_content draft))) eqn:Hs;
      [ | reflexivity].
    apply structure_implies_markdown in Hs. congruence. }
  split; [exact Himp | ].
  destruct (passed basic) eqn:Hp.
  - subst basic. rewrite (passed_feedback_text _ _ Hp). discriminate.
  - pose proof (basic_feedback_failed draft spec Hp) as Hfb.
    fold basic in Hfb. rewrite Hfb.
    assert (Hc : chk_structure (checks basic) && chk_word_count (checks basic)
                 && chk_markdown (checks basic) = false) by exact Hp.
    destruct (failed_messages_name_exactly (default 0 (d_word_count draft))
                spec (checks basic) Hc) as (_ & Hs & Hm).
    rewrite Hs, Hm. intros H.
    apply negb_true_iff in H. rewrite (Himp H). reflexivity.
Qed.

(** X1, witness: a draft without any heading fails both checks, and its
    feedback names the structure. *)
Lemma markdown_failure_implies_structure_failure_witness :
  let draft := {| d_content := Some "plain text without any heading";
                  d_word_count := Some 5; d_topic := None; d_spec := None;
                  d_iteration := None; d_error := None |} in
  let basic := _perform_basic_validation draft (spec_with_bounds 1 10) in
  chk_markdown (checks basic) = false
  /\ chk_structure (checks basic) = false
  /\ Py.contains structure_message (basic_feedback basic) = true.
Proof.
  intros draft basic.
  pose proof (markdown_failure_implies_structure_failure draft
                (spec_with_bounds 1 10)) as [H1 H2].
  split; [reflexivity | ].
  split; [apply H1; reflexivity | apply H2; reflexivity].
Defined.

Lemma parse_approved (response : string) :
  v_approved (_parse_evaluation_response response)
  = String.prefix "APPROVED" (Py.upper response).
Proof.
  unfold _parse_evaluation_response.
  destruct (String.prefix "APPROVED" (Py.upper response)); [reflexivity | ].
  destruct (String.prefix "REJECTED" (Py.upper response)); reflexivity.
Qed.

(** X2. The approval decision of [evaluate_draft]. A draft is approved
    exactly when it passes the mechanical checks and the answer of the
    endpoint, upper-cased, starts with APPROVED. One completion is requested
    when the checks pass and none otherwise, the log is not written, and an
    error raised by the endpoint gives the rejection [Evaluation failed: e],
    without validation details. *)
Theorem evaluate_draft_approval_gate
    (llm : LLM) (draft : Draft) (spec : GenerationSpec) (w : world) :
  let run := evaluate_draft llm draft spec w in
  let basic := _perform_basic_validation draft spec in
  (ev_approved (fst run) = true
   <-> passed basic = true
       /\ exists response,
            llm (llm_calls w) = Reply response
            /\ String.prefix "APPROVED" (Py.upper response) = true)
  /\ llm_calls (snd run)
     = (llm_calls w + if passed basic then 1 else 0)%nat
  /\ trace (snd run) = trace w
  /\ (forall e,
        passed basic = true -> llm (llm_calls w) = LLMError e ->
        fst run = {| ev_approved := false;
                     ev_feedback := "Evaluation failed: " +:+ e;
                     validation_details := None;
                     llm_evaluation := None;
                     eval_error := Some e |}).
Proof.
  intros run basic. subst run. unfold evaluate_draft. fold basic.
  destruct (passed basic) eqn:Hp; cbn [negb].
  - unfold bind, chat, ret.
    destruct (llm (llm_calls w)) as [response | e] eqn:Hl; cbn [fst snd
      ev_approved llm_calls trace].
    + rewrite parse_approved. split; [split | split; [lia | split]].
      * intros H. split; [reflexivity | ].
        exists response. split; [reflexivity | exact H].
      * intros (_ & r & Hr & H). congruence.
      * reflexivity.
      * intros e _ He. discriminate.
    + split; [split | split; [lia | split]].
      * discriminate.
      * intros (_ & r & Hr & _). discriminate.
      * reflexivity.
      * intros e' _ He. congruence.
  - unfold ret. cbn [fst snd ev_approved].
    split; [split | split; [lia | split]].
    + discriminate.
    + intros (H & _). discriminate.
    + reflexivity.
    + intros e H. discriminate.
Qed.

(** X2, witness: the sample draft within its bounds and an endpoint that
    answers in mixed case. *)
Lemma evaluate_draft_approval_gate_witness :
  let llm : LLM := fun _ => Reply "Approved. Nice work" in
  let run := evaluate_draft llm (sample_draft 120) (spec_with_bounds 100 200)
               idle_world in
  ev_approved (fst run) = true /\ llm_calls (snd run) = 1%nat.
Proof.
  intros llm run.
  destruct (evaluate_draft_approval_gate llm (sample_draft 120)
              (spec_with_bounds 100 200) idle_world) as (Hiff & Hcalls & _).
  split.
  - apply Hiff. split; [vm_compute; reflexivity | ].
    exists "Approved. Nice work". split; reflexivity.
  - exact Hcalls.
Defined.

End EvaluatorExtras.

Section VerdictFacts.

Lemma upper_lower_char (c : ascii) :
  Py.upper_char (Py.lower_char c) = Py.upper_char c.
Proof. destruct c as [[] [] [] [] [] [] [] []]; reflexivity. Qed.

Lemma upper_lower (s : string) : Py.upper (Py.lower s) = Py.upper s.
Proof.
  induction s as [|c r IH]; [reflexivity | ].
  unfold Py.upper, Py.lower in *. cbn [Py.map_chars].
  rewrite upper_lower_char, IH. reflexivity.
Qed.

Lemma upper_upper_char (c : ascii) :
  Py.upper_char (Py.upper_char c) = Py.upper_char c.
Proof. destruct c as [[] [] [] [] [] [] [] []]; reflexivity. Qed.

Lemma upper_upper (s : string) : Py.upper (Py.upper s) = Py.upper s.
Proof.
  induction s as [|c r IH]; [reflexivity | ].
  unfold Py.upper in *. cbn [Py.map_chars].
  rewrite upper_upper_char, IH. reflexivity.
Qed.

Lemma prefix_take (p s : string) :
  String.prefix p s = String.eqb (Py.take (String.length p) s) p.
Proof.
  unfold Py.take.
  destruct (String.prefix p s) eqn:E.
  - apply prefix_correct in E. rewrite E. symmetry. apply String.eqb_refl.
  - symmetry. apply String.eqb_neq. intros H.
    apply prefix_correct in H. congruence.
Qed.

(** X3. Only the first eight characters of the answer, read without regard
    to letter case, decide the approval: two answers that agree on them get
    the same verdict, whatever follows, and lower- or upper-casing an answer
    does not change its verdict. *)
Theorem verdict_reads_first_eight_characters :
  (forall r1 r2,
      Py.take 8 (Py.upper r1) = Py.take 8 (Py.upper r2) ->
      v_approved (_parse_evaluation_response r1)
      = v_approved (_parse_evaluation_response r2))
  /\ (forall r,
        v_approved (_parse_evaluation_response (Py.lower r))
        = v_approved (_parse_evaluation_response r)
        /\ v_approved (_parse_evaluation_response (Py.upper r))
           = v_approved (_parse_evaluation_response r)).
Proof.
  split.
  - intros r1 r2 H. rewrite !parse_approved.
    rewrite (prefix_take "APPROVED" (Py.upper r1)).
    rewrite (prefix_take "APPROVED" (Py.upper r2)).
    cbn [String.length]. rewrite H. reflexivity.
  - intros r. rewrite !parse_approved, upper_lower, upper_upper.
    split; reflexivity.
Qed.

(** X3, witness: an answer that starts with the word in lower case and goes
    on to reject is read as an approval. *)
Lemma verdict_reads_first_eight_characters_witness :
  v_approved (_parse_evaluation_response "approved? No: rejected, rewrite it")
  = v_approved (_parse_evaluation_response "APPROVED").
Proof.
  destruct verdict_reads_first_eight_characters as [H _].
  apply H. reflexivity.
Defined.

End VerdictFacts.

(** ** The refinement loop, further *)

Section LoopBudget.

Context (llm : LLM) (max_iterations : Z).

Local Abbreviation loop := (refinement_for llm max_iterations).
Local Abbreviation step := (refine_step llm).

Lemma evaluate_draft_calls (draft : Draft) (spec : GenerationSpec)
    (w : world) :
  llm_calls (snd (evaluate_draft llm draft spec w))
  = (llm_calls w
     + if passed (_perform_basic_validation draft spec) then 1 else 0)%nat.
Proof.
  unfold evaluate_draft.
  destruct (passed (_perform_basic_validation draft spec)); cbn [negb].
  - unfold bind, chat, ret.
    destruct (llm (llm_calls w)); cbn [snd llm_calls]; lia.
  - unfold ret. cbn [snd]. lia.
Qed.

Lemma evaluate_draft_approved_passed (draft : Draft) (spec : GenerationSpec)
    (w : world) :
  ev_approved (fst (evaluate_draft llm draft spec w)) = true ->
  passed (_perform_basic_validation draft spec) = true.
Proof.
  unfold evaluate_draft.
  destruct (passed (_perform_basic_validation draft spec)); cbn [negb];
    [reflexivity | ].
  unfold ret. cbn [fst ev_approved]. discriminate.
Qed.

Lemma refine_draft_calls (draft : Draft) (spec : GenerationSpec)
    (feedback : option string) (w : world) :
  (llm_calls w <= llm_calls (snd (refine_draft llm draft spec feedback w))
   <= llm_calls w + 1)%nat.
Proof.
  unfold refine_draft.
  destruct (d_content draft); [ | unfold ret; cbn [snd]; lia].
  unfold bind, chat, ret.
  destruct (llm (llm_calls w)); [destruct (d_topic draft) | ];
    cbn [snd llm_calls]; lia.
Qed.

Lemma refine_step_calls (iteration : Z) (spec : GenerationSpec)
    (cur : Draft) (fb : option string) (w : world) :
  (llm_calls w <= llm_calls (snd (step iteration spec cur fb w))
   <= llm_calls w + if (0 <? iteration)%Z then 1 else 0)%nat.
Proof.
  unfold refine_step.
  destruct (truthy fb); cbn [andb];
    [ | unfold ret; cbn [snd]; destruct (0 <? iteration); lia].
  destruct (0 <? iteration); [ | unfold ret; cbn [snd]; lia].
  pose proof (refine_draft_calls cur spec fb w) as H.
  unfold bind. destruct (refine_draft llm cur spec fb w) as [refined w1].
  cbn [snd] in H.
  destruct (d_error refined); unfold log, ret; cbn [snd llm_calls]; lia.
Qed.

Lemma refinement_for_calls (numbers : list Z) (spec : GenerationSpec)
    (cur : Draft) (fb : option string) (w : world) :
  (llm_calls w <= llm_calls (snd (loop numbers spec cur fb w))
   <= llm_calls w + length numbers
      + length (List.filter (Z.ltb 0) numbers))%nat.
Proof.
  revert cur fb w.
  induction numbers as [|iteration later IH]; intros cur fb w.
  - rewrite refinement_for_nil. cbn [snd logged llm_calls length]. lia.
  - rewrite refinement_for_cons. cbv zeta.
    set (w0 := logged (IterationStarted (iteration + 1) max_iterations) w).
    pose proof (refine_step_calls iteration spec cur fb w0) as Hs.
    set (cur' := fst (step iteration spec cur fb w0)) in *.
    set (w1 := snd (step iteration spec cur fb w0)) in *.
    pose proof (evaluate_draft_calls cur' spec w1) as He.
    set (evaluation := fst (evaluate_draft llm cur' spec w1)) in *.
    set (w2 := snd (evaluate_draft llm cur' spec w1)) in *.
    assert (H0 : llm_calls w0 = llm_calls w) by reflexivity.
    cbn [List.filter length].
    destruct (ev_approved evaluation).
    + cbn [snd logged llm_calls].
      destruct (passed (_perform_basic_validation cur' spec));
        destruct (0 <? iteration); cbn [length]; lia.
    + specialize (IH cur' (Some (ev_feedback evaluation))
                    (logged Paused
                       (logged (DraftRejected (ev_feedback evaluation)) w2))).
      cbn [logged llm_calls] in IH.
      destruct (passed (_perform_basic_validation cur' spec));
        destruct (0 <? iteration); cbn [length]; lia.
Qed.

Lemma refinement_for_approved_at (numbers : list Z) (spec : GenerationSpec)
    (cur : Draft) (fb : option string) (w : world) (k : Z) :
  last (trace (snd (loop numbers spec cur fb w))) = Some (DraftApproved k) ->
  In (k - 1) numbers
  /\ passed (_perform_basic_validation (fst (loop numbers spec cur fb w)) spec)
     = true.
Proof.
  revert cur fb w.
  induction numbers as [|iteration later IH]; intros cur fb w.
  - rewrite refinement_for_nil. cbn [snd logged trace].
    rewrite last_snoc. discriminate.
  - rewrite refinement_for_cons. cbv zeta.
    set (w0 := logged (IterationStarted (iteration + 1) max_iterations) w).
    set (cur' := fst (step iteration spec cur fb w0)).
    set (w1 := snd (step iteration spec cur fb w0)).
    destruct (ev_approved (fst (evaluate_draft llm cur' spec w1))) eqn:Ea.
    + cbn [snd fst logged trace]. rewrite last_snoc.
      intros H. injection H as H. split.
      * left. lia.
      * exact (evaluate_draft_approved_passed _ _ _ Ea).
    + intros H. apply IH in H as [Hin Hp]. split; [right; exact Hin | exact Hp].
Qed.

Lemma refinement_for_never_approved (numbers : list Z)
    (spec : GenerationSpec) (cur : Draft) (fb : option string) (w : world) :
  (forall draft w', ev_approved (fst (evaluate_draft llm draft spec w'))
                    = false) ->
  last (trace (snd (loop numbers spec cur fb w))) = Some MaxIterationsReached.
Proof.
  intros Hnever. revert cur fb w.
  induction numbers as [|iteration later IH]; intros cur fb w.
  - rewrite refinement_for_nil. cbn [snd logged trace]. apply last_snoc.
  - rewrite refinement_for_cons. cbv zeta. rewrite Hnever. apply IH.
Qed.

Lemma in_range (n i : Z) : In i (range n) -> 0 <= i < n.
Proof.
  unfold range. rewrite in_map_iff. intros (j & <- & Hj).
  apply in_seq in Hj. lia.
Qed.

End LoopBudget.

(** X4. The refinement loop asks the endpoint at most 2 * cap - 1 times, one
    evaluation for each iteration and one refinement for each iteration
    after the first, and not at all for a cap below 1. *)
Theorem refinement_loop_llm_budget
    (llm : LLM) (max_iterations : Z) (initial_draft : Draft)
    (spec : GenerationSpec) (w : world) :
  let run :=
    _iterative_refinement_loop llm max_iterations initial_draft spec w in
  (llm_calls w <= llm_calls (snd run))%nat
  /\ Z.of_nat (llm_calls (snd run))
     <= Z.of_nat (llm_calls w) + Z.max 0 (2 * max_iterations - 1).
Proof.
  intros run. subst run. rewrite loop_unfold. cbn [snd].
  pose proof (refinement_for_calls llm max_iterations (range max_iterations)
                spec initial_draft None w) as [Hlo Hhi].
  pose proof (range_refinements max_iterations) as Hr.
  rewrite range_length in Hhi.
  split; [exact Hlo | lia].
Qed.

(** X5. When the log of the refinement loop ends with an approval at
    iteration k, then 1 <= k <= cap and the draft returned passes the
    mechanical validation against the spec: its stored word count is within
    the bounds and its content passes the structure check. *)
Theorem approved_draft_passed_the_checks
    (llm : LLM) (max_iterations : Z) (initial_draft : Draft)
    (spec : GenerationSpec) (w : world) (k : Z) :
  let run :=
    _iterative_refinement_loop llm max_iterations initial_draft spec w in
  last (trace (snd run)) = Some (DraftApproved k) ->
  1 <= k <= max_iterations
  /\ exists final,
       fst run = Some final
       /\ passed (_perform_basic_validation final spec) = true
       /\ min_words spec <= default 0 (d_word_count final) <= max_words spec
       /\ _check_structure (default EmptyString (d_content final)) = true.
Proof.
  intros run. subst run. rewrite loop_unfold. cbn [fst snd]. intros H.
  apply refinement_for_approved_at in H as [Hin Hp].
  apply in_range in Hin. split; [lia | ].
  eexists. split; [reflexivity | ]. split; [exact Hp | ].
  unfold _perform_basic_validation in Hp. cbn [passed chk_structure
    chk_word_count chk_markdown] in Hp.
  apply andb_prop in Hp as [Hp _]. apply andb_prop in Hp as [Hs Hw].
  unfold _check_word_count in Hw. apply andb_prop in Hw as [H1 H2].
  apply Z.leb_le in H1, H2. split; [lia | exact Hs].
Qed.

(** X5, witness: the sample draft, approved at the first iteration. *)
Lemma approved_draft_passed_the_checks_witness :
  let llm : LLM := fun _ => Reply "APPROVED" in
  let run := _iterative_refinement_loop llm 3 (sample_draft 120)
               (spec_with_bounds 100 200) idle_world in
  last (trace (snd run)) = Some (DraftApproved 1)
  /\ exists final,
       fst run = Some final
       /\ passed (_perform_basic_validation final (spec_with_bounds 100 200))
          = true.
Proof.
  intros llm run.
  assert (H : last (trace (snd run)) = Some (DraftApproved 1))
    by (vm_compute; reflexivity).
  split; [exact H | ].
  destruct (approved_draft_passed_the_checks llm 3 (sample_draft 120)
              (spec_with_bounds 100 200) idle_world 1 H)
    as (_ & final & Hf & Hp & _).
  exists final. split; [exact Hf | exact Hp].
Defined.

(** X6. With inverted word bounds, a maximum below the minimum, no draft is
    ever approved: every evaluation is a rejection decided without asking
    the endpoint, and the refinement loop always ends on the cap. *)
Theorem inverted_bounds_never_approve
    (llm : LLM) (max_iterations : Z) (spec : GenerationSpec) :
  max_words spec < min_words spec ->
  (forall draft w,
      ev_approved (fst (evaluate_draft llm draft spec w)) = false
      /\ snd (evaluate_draft llm draft spec w) = w)
  /\ (forall initial_draft w,
        last (trace (snd (_iterative_refinement_loop llm max_iterations
                            initial_draft spec w)))
        = Some MaxIterationsReached).
Proof.
  intros Hinv.
  assert (Hfail : forall draft,
             passed (_perform_basic_validation draft spec) = false).
  { intros draft. unfold _perform_basic_validation.
    cbn [passed chk_structure chk_word_count chk_markdown].
    assert (Hw : _check_word_count (default 0 (d_word_count draft)) spec
                 = false).
    { unfold _check_word_count. apply andb_false_iff.
      destruct (Z.leb_spec (min_words spec) (default 0 (d_word_count draft)));
        [right; apply Z.leb_gt; lia | left; reflexivity]. }
    rewrite Hw, andb_false_r. reflexivity. }
  assert (Hnever : forall draft w,
             ev_approved (fst (evaluate_draft llm draft spec w)) = false
             /\ snd (evaluate_draft llm draft spec w) = w).
  { intros draft w. unfold evaluate_draft. rewrite Hfail. cbn [negb].
    unfold ret. cbn [fst snd ev_approved]. split; reflexivity. }
  split; [exact Hnever | ].
  intros initial_draft w. rewrite loop_unfold. cbn [snd].
  apply refinement_for_never_approved. intros draft w'. apply Hnever.
Qed.

(** X6, witness: bounds 200-100 and an endpoint that would approve anything.
    *)
Lemma inverted_bounds_never_approve_witness :
  let llm : LLM := fun _ => Reply "APPROVED" in
  ev_approved (fst (evaluate_draft llm (sample_draft 120)
                      (spec_with_bounds 200 100) idle_world)) = false
  /\ last (trace (snd (_iterative_refinement_loop llm 3 (sample_draft 120)
                         (spec_with_bounds 200 100) idle_world)))
     = Some MaxIterationsReached.
Proof.
  intros llm.
  assert (H : max_words (spec_with_bounds 200 100)
              < min_words (spec_with_bounds 200 100)) by (simpl; lia).
  destruct (inverted_bounds_never_approve llm 3 (spec_with_bounds 200 100) H)
    as [H1 H2].
  split; [apply H1 | apply H2].
Defined.

(** ** The workflow, further *)

Section WorkflowFacts.

Context (llm : LLM).
Context (search_and_synthesize :
           string -> GenerationSpec -> Z -> M RetrieverOutput).
Context (ingest_final_content : Draft -> SpecData -> M IngestionResult).
Context (max_iterations top_k_retrieval : Z).

(** The run of [generate_blog_post] phase by phase. *)
Lemma generate_blog_post_phases (topic : string) (spec_data : SpecData)
    (w : world) :
  generate_blog_post llm search_and_synthesize ingest_final_content
    max_iterations top_k_retrieval topic spec_data w
  = match make_spec (with_word_bounds spec_data) with
    | None => (failed_result "validation error for GenerationSpec" 0, w)
    | Some spec =>
        let retrieved := search_and_synthesize topic spec top_k_retrieval w in
        match summary (fst retrieved) with
        | EmptyString =>
            (failed_result "Failed to retrieve relevant context" 0,
             snd retrieved)
        | _ =>
            let composed :=
              compose_draft llm topic (fst retrieved) spec (snd retrieved) in
            match d_error (fst composed) with
            | Some e =>
                (failed_result ("Composition failed: " +:+ e) 0, snd composed)
            | None =>
                let refined :=
                  refinement_for llm max_iterations (range max_iterations)
                    spec (fst composed) None (snd composed) in
                let ingested :=
                  ingest_final_content (fst refined)
                    (with_word_bounds spec_data) (snd refined) in
                (if negb (default false (ing_success (fst ingested)))
                 then failed_result
                        ("Ingestion failed: "
                         +:+ default "Unknown error"
                               (ing_error (fst ingested)))
                        (default 1 (d_iteration (fst refined)))
                 else {| success := true;
                         final_content := Some (fst refined);
                         file_path := ing_file_path (fst ingested);
                         iterations := default 1 (d_iteration (fst refined));
                         approval_status := "approved";
                         error := None |},
                 snd ingested)
            end
        end
    end.
Proof.
  unfold generate_blog_post, with_word_bounds.
  destruct (word_counts _) as [min_w max_w]. cbn [fst snd].
  destruct (make_spec _) as [spec |]; [| reflexivity].
  unfold bind at 1. cbv zeta.
  destruct (search_and_synthesize topic spec top_k_retrieval w)
    as [retriever_output w1]. cbn [fst snd].
  destruct (summary retriever_output) as [| c s] eqn:Hs; [reflexivity |].
  unfold bind at 1.
  pose proof (compose_draft_shape llm topic retriever_output spec w1) as Hd.
  cbv zeta in Hd.
  destruct (compose_draft llm topic retriever_output spec w1)
    as [draft w2]. cbn [fst snd] in Hd |- *.
  destruct (d_error draft) as [e |]; [reflexivity |].
  destruct (Hd eq_refl) as (_ & _ & _ & Hnonempty).
  unfold bind at 1. rewrite loop_unfold.
  pose proof (refinement_for_not_empty llm max_iterations
                (range max_iterations) spec draft None w2 Hnonempty) as Hne.
  rewrite Hne. unfold bind at 1. unfold ret at 1.
  unfold bind at 1.
  match goal with
  | |- context [ingest_final_content ?final ?sd ?w3] =>
      destruct (ingest_final_content final sd w3) as [ingestion w4]
  end.
  cbn [fst snd]. destruct (negb _); reflexivity.
Qed.

End WorkflowFacts.

Section DraftInvariants.

Context (llm : LLM) (max_iterations : Z).

Lemma refine_draft_keeps (draft : Draft) (spec : GenerationSpec)
    (feedback : option string) (w : world) :
  let refined := fst (refine_draft llm draft spec feedback w) in
  (is_Some (d_content draft) -> is_Some (d_content refined))
  /\ d_topic refined = d_topic draft.
Proof.
  cbv zeta. unfold refine_draft.
  destruct (d_content draft) as [content |] eqn:Hc.
  - unfold bind, chat, ret.
    destruct (llm (llm_calls w)) as [response | e]; cbn [fst].
    + destruct (d_topic draft) as [topic |] eqn:Ht; cbn [fst d_content
        d_topic with_error]; rewrite ?Hc, ?Ht; split; eauto.
    + cbn [d_content d_topic with_error]. rewrite Hc. split; eauto.
  - unfold ret. cbn [fst d_content d_topic with_error]. rewrite Hc.
    split; [intros [? ?]; discriminate | reflexivity].
Qed.

Lemma refine_step_keeps (iteration : Z) (spec : GenerationSpec)
    (cur : Draft) (fb : option string) (w : world) :
  let next := fst (refine_step llm iteration spec cur fb w) in
  (is_Some (d_content cur) -> is_Some (d_content next))
  /\ d_topic next = d_topic cur
  /\ default 1 (d_iteration cur) <= default 1 (d_iteration next).
Proof.
  cbv zeta. rewrite refine_step_result.
  destruct (truthy fb && (0 <? iteration)).
  - pose proof (refine_draft_keeps cur spec fb w) as [H1 H2].
    pose proof (refine_draft_iteration llm cur spec fb w) as H3.
    cbv zeta in *. repeat split; [exact H1 | exact H2 | lia].
  - repeat split; [tauto | lia].
Qed.

Lemma refinement_for_keeps (numbers : list Z) (spec : GenerationSpec)
    (cur : Draft) (fb : option string) (w : world) :
  let final := fst (refinement_for llm max_iterations numbers spec cur fb w) in
  (is_Some (d_content cur) -> is_Some (d_content final))
  /\ d_topic final = d_topic cur
  /\ default 1 (d_iteration cur) <= default 1 (d_iteration final).
Proof.
  cbv zeta. revert cur fb w.
  induction numbers as [|iteration later IH]; intros cur fb w.
  - rewrite refinement_for_nil. cbn [fst]. repeat split; [tauto | lia].
  - rewrite refinement_for_cons. cbv zeta.
    set (w0 := logged (IterationStarted (iteration + 1) max_iterations) w).
    pose proof (refine_step_keeps iteration spec cur fb w0) as (H1 & H2 & H3).
    cbv zeta in H1, H2, H3.
    set (cur' := fst (refine_step llm iteration spec cur fb w0)) in *.
    set (w1 := snd (refine_step llm iteration spec cur fb w0)) in *.
    destruct (ev_approved (fst (evaluate_draft llm cur' spec w1))).
    + cbn [fst]. repeat split; assumption.
    + match goal with
      | |- context [refinement_for _ _ later spec cur' ?f ?w'] =>
          destruct (IH cur' f w') as (I1 & I2 & I3)
      end.
      repeat split; [tauto | congruence | lia].
Qed.

End DraftInvariants.

Ltac failed_shape :=
  cbn [fst success error final_content file_path iterations failed_result];
  split;
  [ discriminate
  | intros _; split; [reflexivity | ];
    split; [reflexivity | ]; split; [eexists; reflexivity | lia] ].

(** X7. Shape of the workflow result. A success carries no error and a final
    draft; that draft has content, has the topic the workflow was called
    with, and gives the reported number of iterations, which is between 1
    and the cap (1 when the cap is below 1). A failure carries neither draft
    nor file path, carries an error message, and reports between 0 and the
    cap iterations. *)
Theorem workflow_result_shape
    (llm : LLM)
    (search_and_synthesize :
       string -> GenerationSpec -> Z -> M RetrieverOutput)
    (ingest_final_content : Draft -> SpecData -> M IngestionResult)
    (max_iterations top_k_retrieval : Z)
    (topic : string) (spec_data : SpecData) (w : world) :
  let result :=
    fst (generate_blog_post llm search_and_synthesize ingest_final_content
           max_iterations top_k_retrieval topic spec_data w) in
  (success result = true ->
   error result = None
   /\ exists final content,
        final_content result = Some final
        /\ d_content final = Some content
        /\ d_topic final = Some topic
        /\ iterations result = default 1 (d_iteration final)
        /\ 1 <= iterations result <= Z.max 1 max_iterations)
  /\ (success result = false ->
      final_content result = None
      /\ file_path result = None
      /\ is_Some (error result)
      /\ 0 <= iterations result <= Z.max 1 max_iterations).
Proof.
  cbv zeta. rewrite generate_blog_post_phases.
  destruct (make_spec (with_word_bounds spec_data)) as [spec |];
    [ | failed_shape].
  cbv zeta.
  destruct (search_and_synthesize topic spec top_k_retrieval w)
    as [retriever_output w1]. cbn [fst snd].
  destruct (summary retriever_output) as [| c s];
    [failed_shape | ].
  pose proof (compose_draft_shape llm topic retriever_output spec w1) as Hd.
  cbv zeta in Hd.
  destruct (compose_draft llm topic retriever_output spec w1)
    as [draft w2]. cbn [fst snd] in Hd |- *.
  destruct (d_error draft) as [e |];
    [failed_shape | ].
  destruct (Hd eq_refl) as (Hcontent & Htopic & Hiter & _).
  pose proof (refinement_for_keeps llm max_iterations (range max_iterations)
                spec draft None w2) as (K1 & K2 & K3).
  pose proof (refinement_for_iteration llm max_iterations
                (range max_iterations) spec draft None w2) as Hup.
  pose proof (range_refinements max_iterations) as Hr.
  cbv zeta in K1, K2, K3.
  set (final := fst (refinement_for _ _ _ _ _ _ _)) in *.
  set (w3 := snd (refinement_for _ _ _ _ _ _ _)) in *.
  rewrite Hiter in K3, Hup.
  change (default 1 (Some 1)) with 1 in K3, Hup.
  destruct (ingest_final_content final (with_word_bounds spec_data) w3)
    as [ingestion w4]. cbn [fst snd].
  destruct (negb (default false (ing_success ingestion))); cbn [fst success
    error final_content file_path iterations failed_result].
  - failed_shape.
  - split; [intros _ | discriminate].
    split; [reflexivity | ].
    destruct (K1 Hcontent) as [content Hc].
    exists final, content. repeat split; try assumption; try congruence; lia.
Qed.

(** X7, witness: the sample run that ends on the cap. *)
Lemma workflow_result_shape_witness :
  let result :=
    fst (generate_blog_post stubborn_llm sample_retriever sample_ingestor
           5 5 "Topic" sample_spec_data idle_world) in
  exists final,
    final_content result = Some final
    /\ d_topic final = Some "Topic"
    /\ 1 <= iterations result <= 5.
Proof.
  intros result.
  destruct (workflow_result_shape stubborn_llm sample_retriever
              sample_ingestor 5 5 "Topic" sample_spec_data idle_world)
    as [Hok _].
  destruct Hok as (_ & final & content & Hf & _ & Ht & _ & Hi);
    [vm_compute; reflexivity | ].
  exists final. split; [exact Hf | ]. split; [exact Ht | exact Hi].
Defined.

(** X8. The early exits of the workflow. Without a topic in the spec data
    the run fails before any collaborator is called. With an empty summary
    from the retriever it fails with the retrieval message right after the
    retriever. When the endpoint raises during composition it fails with
    [Composition failed: e] after exactly one request and without a log
    line: the refinement loop and the ingestor do not run. *)
Theorem early_failures_stop_the_workflow
    (llm : LLM)
    (search_and_synthesize :
       string -> GenerationSpec -> Z -> M RetrieverOutput)
    (ingest_final_content : Draft -> SpecData -> M IngestionResult)
    (max_iterations top_k_retrieval : Z)
    (topic : string) (spec_data : SpecData) (w : world) :
  let run :=
    generate_blog_post llm search_and_synthesize ingest_final_content
      max_iterations top_k_retrieval topic spec_data w in
  (sd_topic spec_data = None ->
   success (fst run) = false /\ iterations (fst run) = 0 /\ snd run = w)
  /\ (forall spec,
        make_spec (with_word_bounds spec_data) = Some spec ->
        let retrieved := search_and_synthesize topic spec top_k_retrieval w in
        (summary (fst retrieved) = EmptyString ->
         run = (failed_result "Failed to retrieve relevant context" 0,
                snd retrieved))
        /\ (forall e,
              summary (fst retrieved) <> EmptyString ->
              llm (llm_calls (snd retrieved)) = LLMError e ->
              run = (failed_result ("Composition failed: " +:+ e) 0,
                     {| llm_calls := S (llm_calls (snd retrieved));
                        trace := trace (snd retrieved) |}))).
Proof.
  cbv zeta. rewrite generate_blog_post_phases. split.
  - intros Hnone. unfold make_spec, with_word_bounds. cbn [sd_topic].
    rewrite Hnone. cbn. repeat split.
  - intros spec Hspec. rewrite Hspec. cbv zeta.
    destruct (search_and_synthesize topic spec top_k_retrieval w)
      as [retriever_output w1]. cbn [fst snd].
    split.
    + intros Hs. rewrite Hs. reflexivity.
    + intros e Hs He.
      destruct (summary retriever_output) as [| c s]; [congruence | ].
      unfold compose_draft, bind, chat, ret. rewrite He. reflexivity.
Qed.

(** X8, witness: the sample run with the endpoint down. *)
Lemma early_failures_stop_the_workflow_witness :
  generate_blog_post failing_llm sample_retriever sample_ingestor 5 5
    "Topic" sample_spec_data idle_world
  = (failed_result "Composition failed: connection refused" 0,
     {| llm_calls := 1; trace := [] |}).
Proof.
  destruct (early_failures_stop_the_workflow failing_llm sample_retriever
              sample_ingestor 5 5 "Topic" sample_spec_data idle_world)
    as [_ H].
  destruct (H (spec_with_bounds 1000 1500) eq_refl) as [_ Hc].
  apply (Hc "connection refused"); [discriminate | reflexivity].
Defined.

(** ** The refiner *)

Section FindFacts.

Lemma append_cons (c : ascii) (a b : string) :
  String c a +:+ b = String c (a +:+ b).
Proof. reflexivity. Qed.

Lemma append_nil_l (b : string) : EmptyString +:+ b = b.
Proof. reflexivity. Qed.

Lemma append_assoc (a b c : string) : (a +:+ b) +:+ c = a +:+ (b +:+ c).
Proof.
  induction a as [|x a IH]; [reflexivity | ].
  rewrite !append_cons, IH. reflexivity.
Qed.

Lemma substring_whole (s : string) : substring 0 (String.length s) s = s.
Proof. induction s as [|c r IH]; simpl; [reflexivity | now rewrite IH]. Qed.

Lemma take_append (a b : string) : Py.take (String.length a) (a +:+ b) = a.
Proof.
  unfold Py.take. induction a as [|c r IH].
  - rewrite append_nil_l. destruct b; reflexivity.
  - rewrite append_cons. simpl. now rewrite IH.
Qed.

Lemma drop_append (a b : string) : Py.drop (String.length a) (a +:+ b) = b.
Proof.
  unfold Py.drop. induction a as [|c r IH].
  - rewrite append_nil_l. simpl. rewrite Nat.sub_0_r. apply substring_whole.
  - rewrite append_cons. simpl. exact IH.
Qed.

(** Whether [sub] is a prefix is decided by the first [len(sub)]
    characters. *)
Lemma prefix_app_tail (sub x b b' : string) :
  (String.length sub <= String.length x)%nat ->
  String.prefix sub (x +:+ b) = String.prefix sub (x +:+ b').
Proof.
  revert x. induction sub as [|c sub IH]; intros x Hlen.
  - rewrite !prefix_empty. reflexivity.
  - destruct x as [|d x]; [simpl in Hlen; lia | ].
    rewrite !append_cons, !prefix_cons.
    destruct (ascii_dec c d); [ | reflexivity].
    apply IH. simpl in Hlen. lia.
Qed.

Lemma find_split (sub s : string) (i : nat) :
  Py.find sub s = Some i ->
  exists a b, s = a +:+ sub +:+ b /\ String.length a = i.
Proof.
  revert i. induction s as [|c r IH]; intros i.
  - destruct sub as [|x sub]; simpl; intros H; [ | discriminate H].
    injection H as <-.
    exists EmptyString, EmptyString. split; reflexivity.
  - cbn [Py.find]. destruct (String.prefix sub (String c r)) eqn:E.
    + intros H. injection H as <-.
      apply prefix_correct in E.
      exists EmptyString, (Py.drop (String.length sub) (String c r)).
      split; [ | reflexivity]. rewrite append_nil_l.
      clear IH. revert E. generalize (String c r). intros s.
      revert s. induction sub as [|x sub IHs]; intros s E.
      * rewrite append_nil_l. unfold Py.drop. simpl.
        rewrite Nat.sub_0_r. symmetry. apply substring_whole.
      * destruct s as [|y s]; [discriminate | ].
        simpl in E. injection E as -> E.
        rewrite append_cons. f_equal. unfold Py.drop in *. simpl.
        apply IHs. exact E.
    + destruct (Py.find sub r) as [j |] eqn:Ej;
        [ | intros H; discriminate H].
      intros H. injection H as <-.
      destruct (IH j eq_refl) as (a & b & -> & Ha).
      exists (String c a), b. split; [reflexivity | simpl; lia].
Qed.

Lemma find_here (sub s : string) :
  String.prefix sub s = true -> Py.find sub s = Some 0%nat.
Proof. intros H. destruct s; cbn [Py.find]; rewrite H; reflexivity. Qed.

Lemma find_app_tail (sub a b b' : string) :
  Py.find sub (a +:+ sub +:+ b) = Some (String.length a) ->
  Py.find sub (a +:+ sub +:+ b') = Some (String.length a).
Proof.
  induction a as [|c a IH].
  - intros _. rewrite append_nil_l. apply find_here, prefix_app.
  - rewrite !append_cons. cbn [Py.find String.length].
    assert (Hp : String.prefix sub (String c (a +:+ sub +:+ b))
                 = String.prefix sub (String c (a +:+ sub +:+ b'))).
    { rewrite <- !append_cons, <- !append_assoc.
      apply prefix_app_tail.
      pose proof (len_app (String c a) sub) as Hl. unfold Py.len in Hl. lia. }
    rewrite <- Hp.
    destruct (String.prefix sub (String c (a +:+ sub +:+ b)));
      [discriminate | ].
    destruct (Py.find sub (a +:+ sub +:+ b)) as [j |] eqn:Ej;
      [ | discriminate].
    intros H. injection H as H. subst j. rewrite (IH eq_refl). reflexivity.
Qed.

End FindFacts.

Section RefinerFacts.

Lemma leading_frontmatter_shape (content : string) :
  leading_frontmatter content = EmptyString
  \/ exists a b,
       leading_frontmatter content
       = "---" +:+ a +:+ "---" +:+ Py.NL +:+ Py.NL
       /\ Py.find "---" (a +:+ "---" +:+ b) = Some (String.length a).
Proof.
  unfold leading_frontmatter.
  destruct (String.prefix "---" content); [ | left; reflexivity].
  destruct (Py.find "---" (Py.drop 3 content)) as [i |] eqn:Ef;
    [ | left; reflexivity].
  right. destruct (find_split _ _ _ Ef) as (a & b & Hrest & Ha).
  exists a, b. rewrite Hrest in Ef |- *. rewrite <- Ha in Ef |- *.
  rewrite take_append. split; [reflexivity | exact Ef].
Qed.

Lemma leading_frontmatter_kept (content response : string) :
  leading_frontmatter content <> EmptyString ->
  leading_frontmatter (leading_frontmatter content +:+ response)
  = leading_frontmatter content.
Proof.
  destruct (leading_frontmatter_shape content) as [H | (a & b & H & Ef)];
    [congruence | ].
  intros _. rewrite H.
  set (tail := Py.NL +:+ Py.NL).
  assert (Hshape : ("---" +:+ a +:+ "---" +:+ tail) +:+ response
                   = "---" +:+ (a +:+ "---" +:+ (tail +:+ response))).
  { rewrite !append_assoc. reflexivity. }
  rewrite Hshape. unfold leading_frontmatter.
  rewrite prefix_app.
  change 3%nat with (String.length "---").
  rewrite drop_append.
  rewrite (find_app_tail "---" a b (tail +:+ response) Ef).
  rewrite take_append. reflexivity.
Qed.

End RefinerFacts.

(** X9. A successful refinement of a draft that has a frontmatter block
    returns that block followed by the answer of the endpoint; the block
    read back from the new content is the old one, so further refinements
    keep it; the stored word count is that of the answer alone. *)
Theorem refinement_keeps_frontmatter
    (llm : LLM) (draft : Draft) (spec : GenerationSpec)
    (feedback : option string) (w : world)
    (content topic response : string) :
  d_content draft = Some content ->
  d_topic draft = Some topic ->
  llm (llm_calls w) = Reply response ->
  leading_frontmatter content <> EmptyString ->
  let refined := fst (refine_draft llm draft spec feedback w) in
  d_content refined = Some (leading_frontmatter content +:+ response)
  /\ leading_frontmatter (leading_frontmatter content +:+ response)
     = leading_frontmatter content
  /\ d_word_count refined = Some (Py.word_count_of response).
Proof.
  intros Hc Ht Hl Hfm. cbv zeta. unfold refine_draft. rewrite Hc.
  unfold bind, chat, ret. rewrite Hl, Ht. cbn [fst d_content d_word_count].
  split; [ | split; [apply leading_frontmatter_kept; exact Hfm | reflexivity]].
  destruct (leading_frontmatter content); [congruence | reflexivity].
Qed.

(** X9, witness: a draft with a title in its frontmatter. *)
Lemma refinement_keeps_frontmatter_witness :
  let llm : LLM := fun _ => Reply "# Better title" in
  let draft := {| d_content := Some (sample_frontmatter +:+ "# Title");
                  d_word_count := Some 2; d_topic := Some "Topic";
                  d_spec := None; d_iteration := Some 1;
                  d_error := None |} in
  d_content (fst (refine_draft llm draft (spec_with_bounds 1 10)
                    (Some "Improve the title") idle_world))
  = Some ("---" +:+ Py.NL +:+ "title: x" +:+ Py.NL +:+ "---" +:+ Py.NL
          +:+ Py.NL +:+ "# Better title").
Proof.
  intros llm draft.
  assert (Hfm : leading_frontmatter (sample_frontmatter +:+ "# Title")
                <> EmptyString) by (vm_compute; discriminate).
  exact (proj1 (refinement_keeps_frontmatter llm draft (spec_with_bounds 1 10)
                  (Some "Improve the title") idle_world
                  (sample_frontmatter +:+ "# Title") "Topic" "# Better title"
                  eq_refl eq_refl eq_refl Hfm)).
Defined.

(** X10. A refinement returns a draft without error key exactly when the
    draft has content and topic and the endpoint answers. A failed
    refinement returns the draft it was given with nothing changed but the
    error key: an error already in the draft stays, otherwise the message
    starts with [Refinement failed: ]. *)
Theorem failed_refinement_returns_the_draft
    (llm : LLM) (draft : Draft) (spec : GenerationSpec)
    (feedback : option string) (w : world) :
  let refined := fst (refine_draft llm draft spec feedback w) in
  (d_error refined = None
   <-> is_Some (d_content draft) /\ is_Some (d_topic draft)
       /\ exists response, llm (llm_calls w) = Reply response)
  /\ (d_error refined <> None ->
      d_content refined = d_content draft
      /\ d_word_count refined = d_word_count draft
      /\ d_topic refined = d_topic draft
      /\ d_spec refined = d_spec draft
      /\ d_iteration refined = d_iteration draft
      /\ (forall old, d_error draft = Some old -> d_error refined = Some old)
      /\ (d_error draft = None ->
          exists reason,
            d_error refined = Some ("Refinement failed: " +:+ reason))).
Proof.
  cbv zeta. unfold refine_draft.
  destruct (d_content draft) as [content |] eqn:Hc.
  - unfold bind, chat, ret.
    destruct (llm (llm_calls w)) as [response | e] eqn:Hl; cbn [fst].
    + destruct (d_topic draft) as [topic |] eqn:Ht; cbn [fst].
      * cbn [d_error]. split; [ | congruence].
        split; [intros _ | reflexivity]. eauto.
      * cbn [with_error d_error d_content d_word_count d_topic d_spec
               d_iteration].
        split.
        -- split; [destruct (d_error draft); discriminate | ].
           intros (_ & [t Hsome] & _). discriminate.
        -- intros _. rewrite Hc, Ht. repeat split.
           ++ intros old Ho. rewrite Ho. reflexivity.
           ++ intros Hn. rewrite Hn. eauto.
    + cbn [with_error d_error d_content d_word_count d_topic d_spec
             d_iteration].
      split.
      * split; [destruct (d_error draft); discriminate | ].
        intros (_ & _ & r & Hr). discriminate.
      * intros _. rewrite Hc. repeat split.
        -- intros old Ho. rewrite Ho. reflexivity.
        -- intros Hn. rewrite Hn. eauto.
  - unfold ret. cbn [fst with_error d_error d_content d_word_count d_topic
                       d_spec d_iteration].
    split.
    + split; [destruct (d_error draft); discriminate | ].
      intros ([c Hsome] & _). discriminate.
    + intros _. rewrite Hc. repeat split.
      * intros old Ho. rewrite Ho. reflexivity.
      * intros Hn. rewrite Hn. eauto.
Qed.

(** X10, witness: the sample draft with the endpoint down. *)
Lemma failed_refinement_returns_the_draft_witness :
  let refined := fst (refine_draft failing_llm (sample_draft 120)
                        (spec_with_bounds 100 200) (Some "feedback")
                        idle_world) in
  d_content refined = Some sample_content
  /\ d_iteration refined = Some 1.
Proof.
  intros refined.
  destruct (failed_refinement_returns_the_draft failing_llm (sample_draft 120)
              (spec_with_bounds 100 200) (Some "feedback") idle_world)
    as [_ H].
  destruct H as (H1 & _ & _ & _ & H5 & _); [vm_compute; discriminate | ].
  split; [exact H1 | exact H5].
Defined.

(** ** The composer *)

Section CleanFacts.

Lemma lstrip_head (s : string) (c : ascii) (r : string) :
  Py.lstrip s = String c r -> Py.isspace c = false.
Proof.
  induction s as [|a s IH]; cbn [Py.lstrip]; [discriminate | ].
  destruct (Py.isspace a) eqn:Ea; [exact IH | ].
  intros H. injection H as <- _. exact Ea.
Qed.

Lemma strip_head (s : string) (c : ascii) (r : string) :
  Py.strip s = String c r -> Py.isspace c = false.
Proof. apply lstrip_head. Qed.

Lemma rstrip_keeps_head (c : ascii) (w : string) :
  Py.isspace c = false -> exists r, Py.rstrip (String c w) = String c r.
Proof.
  intros Hc. cbn [Py.rstrip]. rewrite Hc.
  destruct (Py.rstrip w); eauto.
Qed.

Lemma strip_keeps_head (c : ascii) (w : string) :
  Py.isspace c = false -> exists r, Py.strip (String c w) = String c r.
Proof.
  intros Hc. unfold Py.strip.
  destruct (rstrip_keeps_head c w Hc) as [r ->].
  cbn [Py.lstrip]. rewrite Hc. eauto.
Qed.

Lemma split_char_head (sep c : ascii) (r : string) :
  Ascii.eqb c sep = false ->
  exists w ws, Py.split_char sep (String c r) = String c w :: ws.
Proof.
  intros Hc. cbn [Py.split_char]. rewrite Hc.
  destruct (Py.split_char sep r); eauto.
Qed.

Lemma split_char_head_prefix (sep : ascii) (s : string) :
  String.prefix (hd EmptyString (Py.split_char sep s)) s = true.
Proof.
  induction s as [|c r IH]; [reflexivity | ].
  cbn [Py.split_char].
  destruct (Ascii.eqb c sep); [reflexivity | ].
  destruct (Py.split_char sep r) as [|w ws]; cbn [hd] in *.
  - rewrite prefix_cons.
    destruct (ascii_dec c c); [apply prefix_empty | congruence].
  - rewrite prefix_cons. destruct (ascii_dec c c); [exact IH | congruence].
Qed.

Lemma prefix_trans (a b c : string) :
  String.prefix a b = true -> String.prefix b c = true ->
  String.prefix a c = true.
Proof.
  revert b c. induction a as [|x a IH]; intros b c Hab Hbc;
    [apply prefix_empty | ].
  destruct b as [|y b]; [discriminate Hab | ].
  destruct c as [|z c]; [discriminate Hbc | ].
  rewrite prefix_cons in Hab, Hbc |- *.
  destruct (ascii_dec x y); [subst | discriminate].
  destruct (ascii_dec y z); [subst | discriminate].
  destruct (ascii_dec z z); [ | congruence].
  exact (IH _ _ Hab Hbc).
Qed.

Lemma nl_is_space (c : ascii) :
  Py.isspace c = false -> Ascii.eqb c Py.nl = false.
Proof.
  intros Hc. destruct (Ascii.eqb c Py.nl) eqn:E; [ | reflexivity].
  apply Ascii.eqb_eq in E. subst. discriminate.
Qed.

End CleanFacts.

(** X11. For a response that, once stripped, does not start with three
    dashes, the cleaned content is empty when the response is blank and
    starts with a hash sign otherwise; a response that already starts with
    one is only stripped. *)
Theorem cleaned_response_starts_with_heading (response : string) :
  let cleaned := _clean_frontmatter_from_response response in
  String.prefix "---" (Py.strip response) = false ->
  (Py.strip response = EmptyString -> cleaned = EmptyString)
  /\ (Py.strip response <> EmptyString -> String.prefix "#" cleaned = true)
  /\ (String.prefix "#" (Py.strip response) = true ->
      cleaned = Py.strip response).
Proof.
  cbv zeta. intros Hno. unfold _clean_frontmatter_from_response.
  destruct (Py.strip response) as [|c r] eqn:Hs.
  - cbn. repeat split; congruence.
  - pose proof (strip_head _ _ _ Hs) as Hc.
    destruct (split_char_head Py.nl c r (nl_is_space c Hc)) as (w & ws & Hl).
    pose proof (split_char_head_prefix Py.nl (String c r)) as Hpre.
    rewrite Hl in Hpre |- *. cbn [hd] in Hpre.
    assert (Hfirst : String.eqb (String c w) "---" = false).
    { apply String.eqb_neq. intros E. rewrite E in Hpre. congruence. }
    rewrite Hfirst. cbn [hd tl first_content_line].
    destruct (strip_keeps_head c w Hc) as [r' ->].
    change (String.eqb (String c w) EmptyString) with false.
    cbn [negb andb].
    assert (Hhash : String.prefix "#" (String c w)
                    = String.prefix "#" (String c r)).
    { rewrite !prefix_cons, !prefix_empty. reflexivity. }
    rewrite Hhash.
    destruct (String.prefix "#" (String c r)) eqn:Eh.
    + rewrite andb_false_r. repeat split; congruence.
    + assert (H2 : String.prefix "# " (String c w) = false).
      { destruct (String.prefix "# " (String c w)) eqn:E2; [ | reflexivity].
        rewrite (prefix_trans "#" "# " (String c w) eq_refl E2) in Hhash.
        discriminate Hhash. }
      rewrite H2. cbn [negb andb].
      repeat split; try congruence.
Qed.

(** X11, witness: a response without heading gets its first line as title.
    *)
Lemma cleaned_response_starts_with_heading_witness :
  _clean_frontmatter_from_response
    ("  Rust tips" +:+ Py.NL +:+ "Use clippy." +:+ Py.NL)
  = "# Rust tips" +:+ Py.NL +:+ Py.NL +:+ "Use clippy."
  /\ String.prefix "#"
       (_clean_frontmatter_from_response
          ("  Rust tips" +:+ Py.NL +:+ "Use clippy." +:+ Py.NL)) = true.
Proof.
  split; [reflexivity | ].
  apply (cleaned_response_starts_with_heading
           ("  Rust tips" +:+ Py.NL +:+ "Use clippy." +:+ Py.NL));
    [reflexivity | vm_compute; discriminate].
Defined.

(** ** Retrieval, further *)

Section StripFacts.

Lemma rstrip_cons (c : ascii) (r : string) :
  Py.rstrip (String c r)
  = match Py.rstrip r with
    | EmptyString => if Py.isspace c then EmptyString else String c EmptyString
    | r' => String c r'
    end.
Proof. reflexivity. Qed.

Lemma lstrip_cons (c : ascii) (r : string) :
  Py.lstrip (String c r) = if Py.isspace c then Py.lstrip r else String c r.
Proof. reflexivity. Qed.

Lemma rstrip_idempotent (s : string) : Py.rstrip (Py.rstrip s) = Py.rstrip s.
Proof.
  induction s as [|c r IH]; [reflexivity | ].
  rewrite rstrip_cons.
  destruct (Py.rstrip r) as [|c' r'] eqn:Er.
  - destruct (Py.isspace c) eqn:Ec; [reflexivity | ].
    rewrite rstrip_cons. cbn [Py.rstrip]. rewrite Ec. reflexivity.
  - rewrite rstrip_cons, IH. reflexivity.
Qed.

Lemma lstrip_idempotent (s : string) : Py.lstrip (Py.lstrip s) = Py.lstrip s.
Proof.
  induction s as [|c r IH]; [reflexivity | ].
  cbn [Py.lstrip]. destruct (Py.isspace c) eqn:Ec; [exact IH | ].
  cbn [Py.lstrip]. rewrite Ec. reflexivity.
Qed.

Lemma strip_commute (s : string) :
  Py.rstrip (Py.lstrip s) = Py.lstrip (Py.rstrip s).
Proof.
  induction s as [|c r IH]; [reflexivity | ].
  rewrite lstrip_cons, rstrip_cons.
  destruct (Py.isspace c) eqn:Ec.
  - rewrite IH. destruct (Py.rstrip r) as [|c' r']; [reflexivity | ].
    rewrite (lstrip_cons c), Ec. reflexivity.
  - rewrite rstrip_cons.
    destruct (Py.rstrip r) as [|c' r']; rewrite (lstrip_cons c), Ec;
      reflexivity.
Qed.

Lemma strip_idempotent (s : string) : Py.strip (Py.strip s) = Py.strip s.
Proof.
  unfold Py.strip.
  rewrite (strip_commute (Py.rstrip s)), rstrip_idempotent.
  apply lstrip_idempotent.
Qed.

End StripFacts.

Section ListFacts.

Context {A : Type}.

Lemma list_take_sublist (k : Z) (l : list A) : sublist (Py.list_take k l) l.
Proof. unfold Py.list_take. destruct (0 <=? k); apply sublist_take. Qed.

Lemma list_take_length (k : Z) (l : list A) :
  0 <= k -> Z.of_nat (length (Py.list_take k l)) <= k.
Proof.
  intros Hk. unfold Py.list_take.
  destruct (Z.leb_spec 0 k); [ | lia].
  rewrite length_take. lia.
Qed.

Lemma list_take_In (k : Z) (l : list A) (x : A) :
  In x (Py.list_take k l) -> In x l.
Proof.
  intros H. apply list_elem_of_In. apply list_elem_of_In in H.
  eapply elem_of_sublist; [exact H | apply list_take_sublist].
Qed.

Lemma StronglySorted_sublist (R : A -> A -> Prop) (l1 l2 : list A) :
  sublist l1 l2 -> StronglySorted R l2 -> StronglySorted R l1.
Proof.
  induction 1 as [| x l1 l2 Hsub IH | x l1 l2 Hsub IH]; intros Hs.
  - constructor.
  - inversion Hs as [| ? ? Hs' Hall]; subst. constructor; [auto | ].
    apply List.Forall_forall. intros y Hy.
    rewrite List.Forall_forall in Hall. apply Hall.
    apply list_elem_of_In. apply list_elem_of_In in Hy.
    eapply elem_of_sublist; eauto.
  - inversion Hs; subst. auto.
Qed.


End ListFacts.

(** X12. Query expansion returns the original query first, then at most
    three suggestions, each of them non-empty and without surrounding
    whitespace; it asks the endpoint once and writes no log line. *)
Theorem expand_query_shape (llm : LLM) (query : string) (w : world) :
  let run := expand_query llm query w in
  (exists suggested,
      fst run = query :: suggested
      /\ (length suggested <= 3)%nat
      /\ (forall q, In q suggested -> q <> EmptyString /\ Py.strip q = q))
  /\ snd run = {| llm_calls := S (llm_calls w); trace := trace w |}.
Proof.
  cbv zeta. unfold expand_query, bind, chat, ret.
  destruct (llm (llm_calls w)) as [response | e]; cbn [fst snd].
  - split; [ | reflexivity]. eexists. split; [reflexivity | ].
    split.
    + pose proof (list_take_length 3
                    (List.filter (fun q => negb (String.eqb q EmptyString))
                       (map Py.strip (Py.split_char Py.nl response)))).
      lia.
    + intros q Hq. apply list_take_In in Hq.
      apply List.filter_In in Hq as [Hq Hne].
      apply in_map_iff in Hq as (x & <- & _). split.
      * apply negb_true_iff in Hne. apply String.eqb_neq in Hne. exact Hne.
      * apply strip_idempotent.
  - split; [ | reflexivity]. exists []. split; [reflexivity | ].
    split; [simpl; lia | intros q []].
Qed.

(** X12, witness: five answer lines, one blank, one padded. *)
Lemma expand_query_shape_witness :
  let llm : LLM :=
    fun _ => Reply ("  rust async  " +:+ Py.NL +:+ Py.NL +:+ "tokio" +:+ Py.NL
                    +:+ "futures" +:+ Py.NL +:+ "executors" +:+ Py.NL) in
  fst (expand_query llm "rust" idle_world)
  = ["rust"; "rust async"; "tokio"; "futures"]
  /\ Py.strip "rust async" = "rust async".
Proof.
  intros llm. split; [reflexivity | ].
  destruct (expand_query_shape llm "rust" idle_world)
    as [(suggested & Hrun & _ & Hq) _].
  apply Hq.
  assert (Hs : suggested = ["rust async"; "tokio"; "futures"]).
  { change (fst (expand_query llm "rust" idle_world))
      with ["rust"; "rust async"; "tokio"; "futures"] in Hrun.
    injection Hrun as <-. reflexivity. }
  rewrite Hs. left. reflexivity.
Defined.

Section RetrievalFacts.

Context (hash : string -> Z) (days_old : string -> option Z).
Context (similarity_search : string -> Z -> option (list Document)).
Context (llm : LLM).

Lemma search_all_In (queries : list string) (top_k : Z) (doc : Document) :
  In doc (search_all similarity_search queries top_k) ->
  exists q found,
    In q queries /\ similarity_search q top_k = Some found /\ In doc found.
Proof.
  induction queries as [|q rest IH]; cbn [search_all]; [intros [] | ].
  destruct (similarity_search q top_k) as [found |] eqn:Es.
  - intros [H | H]%in_app_or.
    + exists q, found. repeat split; [left; reflexivity | exact Es | exact H].
    + destruct (IH H) as (q' & f' & Hq & Hs & Hd).
      exists q', f'. repeat split; [right; exact Hq | exact Hs | exact Hd].
  - intros H. destruct (IH H) as (q' & f' & Hq & Hs & Hd).
    exists q', f'. repeat split; [right; exact Hq | exact Hs | exact Hd].
Qed.

Lemma content_hash_scored (query : string) (doc : Document) :
  content_hash hash (score_document days_old query doc)
  = content_hash hash doc.
Proof. reflexivity. Qed.

Lemma rerank_keys (results : list Document) (query : string) :
  Permutation
    (map (content_hash hash) (_rerank_results days_old results query))
    (map (content_hash hash) results).
Proof.
  unfold _rerank_results.
  rewrite (Permutation_map _ (sort_desc_perm stored_score _)).
  rewrite List.map_map. apply Permutation_refl.
Qed.

Lemma rerank_In (results : list Document) (query : string)
    (doc : Document) :
  In doc (_rerank_results days_old results query) ->
  exists d, In d results /\ doc = score_document days_old query d.
Proof.
  unfold _rerank_results. intros H.
  apply (Permutation_in _ (sort_desc_perm stored_score _)) in H.
  apply in_map_iff in H as (d & <- & Hd). eauto.
Qed.

Lemma retrieved_length (query : string) (top_k : Z) (expand : bool)
    (w : world) :
  0 <= top_k ->
  Z.of_nat (length (fst (retrieve_relevant_context hash days_old
                           similarity_search llm query top_k expand w)))
  <= top_k.
Proof.
  intros Hk. rewrite retrieve_result.
  destruct (search_all _ _ _); [simpl; lia | ].
  apply list_take_length. exact Hk.
Qed.

End RetrievalFacts.

(** X13. The documents returned by [retrieve_relevant_context]: at most
    [top_k] of them when [top_k] is not negative, no two with the same hash
    of the first 200 characters, in descending order of final score, and
    each of them a hit of the similarity search, with its final score
    written. *)
Theorem retrieved_documents_are_ranked_hits
    (hash : string -> Z) (days_old : string -> option Z)
    (similarity_search : string -> Z -> option (list Document))
    (llm : LLM) (query : string) (top_k : Z) (expand_queries : bool)
    (w : world) :
  let docs :=
    fst (retrieve_relevant_context hash days_old similarity_search llm
           query top_k expand_queries w) in
  (0 <= top_k -> Z.of_nat (length docs) <= top_k)
  /\ NoDup (map (content_hash hash) docs)
  /\ StronglySorted (fun a b => (stored_score b <= stored_score a)%Q) docs
  /\ (forall doc,
        In doc docs ->
        exists q found hit,
          similarity_search q top_k = Some found
          /\ In hit found
          /\ doc = score_document days_old query hit).
Proof.
  cbv zeta. rewrite retrieve_result.
  set (queries := if expand_queries then _ else _).
  destruct (search_all similarity_search queries top_k) as [|d more] eqn:Ea.
  - split; [intros Hk; simpl; lia | ].
    split; [constructor | ]. split; [constructor | intros doc []].
  - set (unique := _deduplicate_results hash (d :: more)).
    set (ranked := _rerank_results days_old unique query).
    pose proof (list_take_sublist top_k ranked) as Hsub.
    split; [ | split; [ | split]].
    + apply list_take_length.
    + apply (sublist_NoDup _ (map (content_hash hash) ranked)).
      * subst ranked.
        rewrite (rerank_keys hash days_old unique query).
        apply (kept_NoDup hash).
      * apply (fmap_sublist (content_hash hash)). exact Hsub.
    + apply (StronglySorted_sublist _ _ ranked Hsub).
      apply (sort_desc_sorted stored_score).
    + intros doc Hdoc. apply list_take_In in Hdoc.
      apply rerank_In in Hdoc as (hit & Hhit & ->).
      assert (Hin : In hit (d :: more)).
      { apply list_elem_of_In.
        eapply elem_of_sublist;
          [apply list_elem_of_In; exact Hhit | apply (kept_sublist hash)]. }
      rewrite <- Ea in Hin.
      apply search_all_In in Hin as (q & found & _ & Hs & Hf).
      exists q, found, hit. repeat split; assumption.
Qed.

(** X13, witness: the store with one hit. *)
Lemma retrieved_documents_are_ranked_hits_witness :
  let docs :=
    fst (retrieve_relevant_context sample_hash no_calendar one_hit_store
           failing_llm "rust" 5 true idle_world) in
  Z.of_nat (length docs) <= 5.
Proof.
  intros docs.
  apply (retrieved_documents_are_ranked_hits sample_hash no_calendar
           one_hit_store failing_llm "rust" 5 true idle_world).
  lia.
Defined.

Section BonusFacts.

Context (days_old : string -> option Z).



Lemma score_document_fixed (query : string) (doc : Document) :
  score_document days_old query (score_document days_old query doc)
  = score_document days_old query doc.
Proof. reflexivity. Qed.

End BonusFacts.

Section SortedFacts.

Context {A : Type} (key : A -> Q).

Lemma insert_desc_head (x : A) (l : list A) :
  Forall (fun y => (key y <= key x)%Q) l -> insert_desc key x l = x :: l.
Proof.
  destruct l as [|y r]; [reflexivity | ].
  intros H. apply Forall_inv in H. cbn [insert_desc].
  apply (Qltb_false (key x) (key y)) in H. rewrite H. reflexivity.
Qed.

Lemma sort_desc_sorted_fixed (l : list A) :
  StronglySorted (descending key) l -> sort_desc key l = l.
Proof.
  induction 1 as [| x l Hs IH Hall]; [reflexivity | ].
  cbn [sort_desc]. rewrite IH. apply insert_desc_head. exact Hall.
Qed.

End SortedFacts.



(** X15. Re-ranking is idempotent: a ranked list re-ranked for the same
    query, with the same ages, comes back unchanged. *)
Theorem rerank_is_idempotent
    (days_old : string -> option Z) (results : list Document)
    (original_query : string) :
  _rerank_results days_old
    (_rerank_results days_old results original_query) original_query
  = _rerank_results days_old results original_query.
Proof.
  unfold _rerank_results.
  set (scored := map (score_document days_old original_query) results).
  assert (Hfix : map (score_document days_old original_query)
                   (sort_desc stored_score scored)
                 = sort_desc stored_score scored).
  { rewrite <- (map_id (sort_desc stored_score scored)) at 2.
    apply map_ext_in. intros d Hd.
    apply (Permutation_in _ (sort_desc_perm stored_score scored)) in Hd.
    subst scored. apply in_map_iff in Hd as (d0 & <- & _). reflexivity. }
  rewrite Hfix. apply sort_desc_sorted_fixed. apply sort_desc_sorted.
Qed.

Section DistinctFacts.

Context (hash : string -> Z).

Lemma kept_distinct (l : list Document) (seen : gset Z) :
  NoDup (map (content_hash hash) l) ->
  (forall d, d ∈ l -> content_hash hash d ∉ seen) ->
  deduplicate_from hash l seen [] = l.
Proof.
  revert seen. induction l as [|x l IH]; intros seen Hnd Hfresh;
    [reflexivity | ].
  rewrite kept_cons.
  rewrite bool_decide_eq_false_2 by (apply Hfresh; left).
  cbn [map] in Hnd. apply NoDup_cons in Hnd as [Hx Hnd].
  f_equal. apply IH; [exact Hnd | ].
  intros d Hd [Hs | Hs]%elem_of_union.
  - apply elem_of_singleton in Hs. apply Hx. rewrite <- Hs.
    apply (list_elem_of_fmap_2 (content_hash hash)). exact Hd.
  - apply (Hfresh d); [right; exact Hd | exact Hs].
Qed.

End DistinctFacts.

(** X16. Deduplication returns its input unchanged exactly when no two
    documents of the input share the hash of their first 200 characters, and
    it never lengthens the list. *)
Theorem deduplication_is_identity_on_distinct
    (hash : string -> Z) (results : list Document) :
  (_deduplicate_results hash results = results
   <-> NoDup (map (content_hash hash) results))
  /\ (length (_deduplicate_results hash results) <= length results)%nat.
Proof.
  split; [split | ].
  - intros H. rewrite <- H. apply (kept_NoDup hash).
  - intros Hnd. apply kept_distinct; [exact Hnd | ].
    intros d _. apply not_elem_of_empty.
  - apply sublist_length. apply (kept_sublist hash).
Qed.

(** X16, witness: two chunks with distinct prefixes. *)
Lemma deduplication_is_identity_on_distinct_witness :
  _deduplicate_results sample_hash [chunk_a; chunk_c] = [chunk_a; chunk_c].
Proof.
  apply (proj1 (deduplication_is_identity_on_distinct sample_hash
                  [chunk_a; chunk_c])).
  apply (bool_decide_unpack _). vm_compute. reflexivity.
Defined.

(** ** The context window, further *)

Section Fits.

Context (month_year : string -> option string) (max_chars : Z).

Lemma plain_header_shorter (doc : Document) :
  Py.len (plain_header (source_of doc)) <= Py.len (header_of month_year doc).
Proof.
  unfold header_of. destruct (header_date month_year doc) as [d |]; [ | lia].
  unfold plain_header, dated_header. rewrite !len_app.
  pose proof (len_nonneg d). pose proof (len_nonneg " (").
  pose proof (len_nonneg ")"). lia.
Qed.

Lemma window_cost_nonneg (results : list Document) :
  0 <= window_cost month_year results.
Proof.
  induction results as [|doc rest IH]; cbn [window_cost]; [lia | ].
  pose proof (len_nonneg (header_of month_year doc)).
  pose proof (len_nonneg (Py.strip (page_content doc))).
  pose proof (len_nonneg separator). lia.
Qed.

Lemma header_step_fits (doc : Document) (st : Assembly) :
  total_chars st + Py.len (header_of month_year doc) <= max_chars ->
  total_chars st = parts_len (context_parts st) ->
  exists st' added,
    header_step month_year max_chars doc st = Some st'
    /\ context_parts st' = context_parts st ++ added
    /\ total_chars st' = parts_len (context_parts st')
    /\ total_chars st <= total_chars st'
       <= total_chars st + Py.len (header_of month_year doc).
Proof.
  intros Hfit Hcount. unfold header_step.
  pose proof (len_nonneg (header_of month_year doc)) as Hh.
  case_bool_decide.
  - exists st, []. rewrite app_nil_r. repeat split; try assumption; lia.
  - pose proof (plain_header_shorter doc) as Hp.
    destruct (total_chars st + Py.len (plain_header (source_of doc))
              >? max_chars) eqn:E; [apply Z.gtb_lt in E; lia | ].
    fold (header_of month_year doc).
    eexists. exists [header_of month_year doc].
    split; [reflexivity | ]. cbn [context_parts total_chars].
    split; [reflexivity | ].
    rewrite parts_len_app. cbn [parts_len]. repeat split; lia.
Qed.

Lemma content_step_fits (content : string) (st : Assembly) :
  total_chars st = parts_len (context_parts st) ->
  let st' := content_step max_chars content st in
  (exists added, context_parts st' = context_parts st ++ content :: added)
  /\ total_chars st' = parts_len (context_parts st')
  /\ total_chars st <= total_chars st'
     <= total_chars st + Py.len content + Py.len separator.
Proof.
  intros Hcount. cbv zeta. unfold content_step.
  cbn [context_parts included_sources total_chars].
  pose proof (len_nonneg content). pose proof (len_nonneg separator).
  destruct (_ && _); cbn [context_parts total_chars].
  - split; [exists [separator]; rewrite <- app_assoc; reflexivity | ].
    rewrite !parts_len_app. cbn [parts_len]. repeat split; lia.
  - split; [exists []; reflexivity | ].
    rewrite !parts_len_app. cbn [parts_len]. repeat split; lia.
Qed.

Lemma assemble_from_fits (results : list Document) (st : Assembly) :
  total_chars st + window_cost month_year results <= max_chars ->
  total_chars st = parts_len (context_parts st) ->
  let final := assemble_from month_year max_chars results st in
  (exists added,
      context_parts final = context_parts st ++ added
      /\ sublist (map (fun doc => Py.strip (page_content doc)) results) added)
  /\ total_chars final = parts_len (context_parts final)
  /\ total_chars final <= total_chars st + window_cost month_year results.
Proof.
  cbv zeta. revert st.
  induction results as [|doc rest IH]; intros st Hfit Hcount.
  - cbn [assemble_from window_cost map].
    split; [exists []; rewrite app_nil_r; split; [reflexivity | constructor]
           | split; [exact Hcount | lia]].
  - cbn [window_cost] in Hfit |- *. cbn [assemble_from map].
    pose proof (window_cost_nonneg rest) as Hrest.
    pose proof (len_nonneg (Py.strip (page_content doc))) as Hc.
    pose proof (len_nonneg separator) as Hs.
    destruct (header_step_fits doc st) as (st1 & h & -> & Hp1 & Hc1 & Ht1);
      [lia | exact Hcount | ].
    destruct (total_chars st1 + Py.len (Py.strip (page_content doc))
              >? max_chars) eqn:E; [apply Z.gtb_lt in E; lia | ].
    destruct (content_step_fits (Py.strip (page_content doc)) st1 Hc1)
      as ((sep & Hp2) & Hc2 & Ht2).
    set (st2 := content_step max_chars (Py.strip (page_content doc)) st1) in *.
    destruct (IH st2) as ((added & Hp3 & Hsub) & Hc3 & Ht3); [lia | exact Hc2 | ].
    split; [ | split; [exact Hc3 | lia]].
    exists (h ++ Py.strip (page_content doc) :: sep ++ added).
    split.
    + rewrite Hp3, Hp2, Hp1. rewrite <- !app_assoc. reflexivity.
    + apply sublist_inserts_l. apply sublist_skip.
      apply sublist_inserts_l. exact Hsub.
Qed.

End Fits.

(** X17. A context window with room for everything loses nothing. When the
    headers, the stripped contents and one separator for each document add
    up to no more than the budget, every content is among the assembled
    parts, whole and in rank order; the counted total is the true length of
    the parts, dated headers included; and the body is within the budget. *)
Theorem context_window_keeps_what_fits
    (month_year : string -> option string) (results : list Document)
    (max_tokens : Z) :
  let max_chars := max_tokens * 4 in
  window_cost month_year results <= max_chars ->
  let st := assemble_from month_year max_chars results initial_assembly in
  sublist (map (fun doc => Py.strip (page_content doc)) results)
          (context_parts st)
  /\ total_chars st = parts_len (context_parts st)
  /\ total_chars st <= window_cost month_year results
  /\ Py.len (assembled_body st) <= max_chars.
Proof.
  cbv zeta. intros Hfit.
  destruct (assemble_from_fits month_year (max_tokens * 4) results
              initial_assembly) as ((added & Hp & Hsub) & Hc & Ht);
    [cbn [initial_assembly total_chars]; lia | reflexivity | ].
  cbn [initial_assembly total_chars context_parts app] in Hp, Ht.
  rewrite Hp at 1. split; [exact Hsub | ]. split; [exact Hc | ].
  split; [lia | ].
  unfold assembled_body.
  pose proof (len_strip (Py.join EmptyString
                (context_parts (assemble_from month_year (max_tokens * 4)
                                  results initial_assembly)))) as Hl.
  rewrite len_join_empty in Hl. lia.
Qed.

(** X17, witness: two chunks of a dated source, one header. *)
Lemma context_window_keeps_what_fits_witness :
  let st := assemble_from sample_month_year 400 [dated_doc; dated_doc]
              initial_assembly in
  context_parts st
  = [dated_header "abc" "January 2024"; "body"; separator; "body"; separator]
  /\ total_chars st = parts_len (context_parts st).
Proof.
  intros st. split; [reflexivity | ].
  apply (context_window_keeps_what_fits sample_month_year
           [dated_doc; dated_doc] 100).
  vm_compute. discriminate.
Defined.

(** ** The retriever agent *)

Section ContainsFacts.

Lemma prefix_split (sub s : string) :
  String.prefix sub s = true ->
  s = sub +:+ Py.drop (String.length sub) s.
Proof.
  revert s. induction sub as [|x sub IH]; intros s E.
  - rewrite append_nil_l. unfold Py.drop. cbn [String.length].
    rewrite Nat.sub_0_r. symmetry. apply substring_whole.
  - destruct s as [|y s]; [discriminate E | ].
    rewrite prefix_cons in E.
    destruct (ascii_dec x y); [subst | discriminate E].
    rewrite append_cons. f_equal. unfold Py.drop in *. cbn [String.length].
    apply IH. exact E.
Qed.

Lemma contains_split (sub s : string) :
  Py.contains sub s = true -> exists a b, s = a +:+ sub +:+ b.
Proof.
  induction s as [|c r IH]; cbn [Py.contains]; intros H.
  - rewrite orb_false_r in H. exists EmptyString. eexists.
    rewrite append_nil_l. apply prefix_split. exact H.
  - apply orb_prop in H as [H | H].
    + exists EmptyString. eexists. rewrite append_nil_l.
      apply prefix_split. exact H.
    + destruct (IH H) as (a & b & ->). exists (String c a), b. reflexivity.
Qed.

Lemma contains_longer (p sub s : string) :
  Py.contains (p +:+ sub) s = true -> Py.contains sub s = true.
Proof.
  intros H. destruct (contains_split _ _ H) as (a & b & ->).
  rewrite append_assoc. apply contains_skip. apply contains_skip.
  apply contains_here.
Qed.

End ContainsFacts.

Section SynthesisFacts.

Lemma synthesis_line_excerpts (raw : string) (st : SynthesisState) :
  Forall tidy (syn_excerpts st) ->
  Forall tidy (syn_excerpts (synthesis_line raw st)).
Proof.
  intros H. unfold synthesis_line.
  destruct (Py.strip raw) as [|c r] eqn:Hline; [exact H | ].
  destruct (_ || _); [exact H | ].
  destruct (_ || _); [exact H | ].
  destruct (syn_section st) as [[] |]; [ | | exact H].
  - destruct (negb _); exact H.
  - destruct (_ || _); [ | exact H].
    destruct (Py.strip (Py.drop 1 (String c r))) as [|c' r'] eqn:He;
      [exact H | ].
    cbn [syn_excerpts]. apply Forall_app. split; [exact H | ].
    constructor; [ | constructor]. split; [discriminate | ].
    rewrite <- He. apply strip_idempotent.
Qed.

Lemma synthesis_scan_excerpts (lines : list string) (st : SynthesisState) :
  Forall tidy (syn_excerpts st) ->
  Forall tidy (syn_excerpts (synthesis_scan lines st)).
Proof.
  revert st. unfold synthesis_scan.
  induction lines as [|raw rest IH]; intros st H; [exact H | ].
  cbn [fold_left]. apply IH. apply synthesis_line_excerpts. exact H.
Qed.

Lemma synthesis_line_no_header (raw : string) (st : SynthesisState) :
  Py.contains "SUMMARY:" (Py.upper (Py.strip raw)) = false ->
  Py.contains "EXCERPTS:" (Py.upper (Py.strip raw)) = false ->
  syn_section st = None ->
  synthesis_line raw st = st.
Proof.
  intros Hs He Hn. unfold synthesis_line.
  destruct (Py.strip raw) as [|c r]; [reflexivity | ].
  rewrite Hs, He. cbn [orb].
  destruct (Py.contains "CONCISE SUMMARY:" (Py.upper (String c r))) eqn:E1.
  { apply (contains_longer "CONCISE " "SUMMARY:") in E1. congruence. }
  destruct (Py.contains "RELEVANT EXCERPTS:" (Py.upper (String c r))) eqn:E2.
  { apply (contains_longer "RELEVANT " "EXCERPTS:") in E2. congruence. }
  rewrite Hn. reflexivity.
Qed.

Lemma synthesis_scan_no_header (lines : list string) (st : SynthesisState) :
  Forall (fun raw =>
            Py.contains "SUMMARY:" (Py.upper (Py.strip raw)) = false
            /\ Py.contains "EXCERPTS:" (Py.upper (Py.strip raw)) = false)
         lines ->
  syn_section st = None ->
  synthesis_scan lines st = st.
Proof.
  unfold synthesis_scan. induction 1 as [|raw rest [Hs He] _ IH]; intros Hn;
    [reflexivity | ].
  cbn [fold_left]. rewrite (synthesis_line_no_header raw st Hs He Hn).
  apply IH. exact Hn.
Qed.

Lemma parsed_excerpts_bound (response : string) :
  (length (snd (_parse_synthesis_response response)) <= 5)%nat.
Proof.
  unfold _parse_synthesis_response. cbn [snd].
  match goal with
  | |- (length (Py.list_take 5 ?l) <= 5)%nat =>
      pose proof (list_take_length 5 l)
  end.
  lia.
Qed.

End SynthesisFacts.

(** X18. The synthesis parser returns at most five excerpts, each non-empty
    and stripped, and a stripped summary; a response in which no line holds
    SUMMARY: or EXCERPTS:, in any letter case, comes back whole as the
    summary, stripped, with no excerpt. *)
Theorem synthesis_parser_limits (response : string) :
  let parsed := _parse_synthesis_response response in
  (length (snd parsed) <= 5)%nat
  /\ Forall tidy (snd parsed)
  /\ Py.strip (fst parsed) = fst parsed
  /\ (Forall (fun raw =>
                Py.contains "SUMMARY:" (Py.upper (Py.strip raw)) = false
                /\ Py.contains "EXCERPTS:" (Py.upper (Py.strip raw)) = false)
             (Py.split_char Py.nl response) ->
      parsed = (Py.strip response, [])).
Proof.
  cbv zeta. unfold _parse_synthesis_response. cbn [fst snd].
  set (start := {| syn_summary := EmptyString; syn_excerpts := [];
                   syn_section := None |}).
  split; [ | split; [ | split]].
  - apply parsed_excerpts_bound.
  - pose proof (synthesis_scan_excerpts (Py.split_char Py.nl response) start
                  (List.Forall_nil tidy)) as H.
    apply List.Forall_forall. intros e He. apply list_take_In in He.
    rewrite List.Forall_forall in H. apply H. exact He.
  - apply strip_idempotent.
  - intros Hno.
    rewrite (synthesis_scan_no_header _ start Hno eq_refl). reflexivity.
Qed.

(** X18, witness: free text with a dash line is all summary. *)
Lemma synthesis_parser_limits_witness :
  _parse_synthesis_response
    ("Rust is a systems language." +:+ Py.NL +:+ "- not an excerpt" +:+ Py.NL)
  = ("Rust is a systems language." +:+ Py.NL +:+ "- not an excerpt", []).
Proof.
  apply (synthesis_parser_limits
           ("Rust is a systems language." +:+ Py.NL +:+ "- not an excerpt"
            +:+ Py.NL)).
  repeat constructor.
Defined.

Section RetrieverAgentFacts.

Context (hash : string -> Z) (days_old : string -> option Z).
Context (month_year : string -> option string).
Context (similarity_search : string -> Z -> option (list Document)).
Context (within_overhead : Z -> Z -> bool).
Context (llm : LLM).

Lemma retrieve_world (query : string) (top_k : Z) (w : world) :
  snd (retrieve_relevant_context hash days_old similarity_search llm
         query top_k true w)
  = {| llm_calls := S (llm_calls w); trace := trace w |}.
Proof.
  unfold retrieve_relevant_context, expand_query, bind, chat, ret.
  destruct (llm (llm_calls w));
    match goal with
    | |- context [search_all ?s ?q ?k] => destruct (search_all s q k)
    end; reflexivity.
Qed.

Lemma search_and_synthesize_run (topic : string) (spec : GenerationSpec)
    (top_k : Z) (w : world) :
  let docs :=
    fst (retrieve_relevant_context hash days_old similarity_search llm
           topic top_k true w) in
  search_and_synthesize hash days_old month_year similarity_search
    within_overhead llm topic spec top_k w
  = match docs with
    | [] =>
        ({| summary := "No relevant context found for '" +:+ topic +:+ "'";
            excerpts := []; source_count := 0 |},
         {| llm_calls := S (llm_calls w); trace := trace w |})
    | _ =>
        (match llm (S (llm_calls w)) with
         | Reply response =>
             {| summary := fst (_parse_synthesis_response response);
                excerpts := snd (_parse_synthesis_response response);
                source_count := Z.of_nat (length docs) |}
         | LLMError e =>
             {| summary := "Error retrieving context for '" +:+ topic
                           +:+ "': " +:+ e;
                excerpts := []; source_count := 0 |}
         end,
         {| llm_calls := S (S (llm_calls w)); trace := trace w |})
    end.
Proof.
  cbv zeta. unfold search_and_synthesize. unfold bind at 1.
  pose proof (retrieve_world topic top_k w) as Hw.
  destruct (retrieve_relevant_context hash days_old similarity_search llm
              topic top_k true w) as [docs w1].
  cbn [fst snd] in Hw |- *. subst w1.
  destruct docs as [|d more]; [reflexivity | ].
  unfold bind, chat, ret. cbn [llm_calls trace].
  destruct (llm (S (llm_calls w))); reflexivity.
Qed.

End RetrieverAgentFacts.

(** X19. Outcome of the retriever agent. It returns at most five excerpts
    and a source count between 0 and the number of documents retrieved,
    writes no log line, and asks the endpoint once, for the query expansion,
    when nothing is retrieved and twice otherwise. With nothing retrieved
    the summary says so; an error of the endpoint during synthesis gives a
    summary that reports it, with no excerpt and zero sources; an answer
    gives the parsed summary and excerpts and the number of documents. *)
Theorem retriever_agent_outcome
    (hash : string -> Z) (days_old : string -> option Z)
    (month_year : string -> option string)
    (similarity_search : string -> Z -> option (list Document))
    (within_overhead : Z -> Z -> bool) (llm : LLM)
    (topic : string) (spec : GenerationSpec) (top_k : Z) (w : world) :
  let run :=
    search_and_synthesize hash days_old month_year similarity_search
      within_overhead llm topic spec top_k w in
  let docs :=
    fst (retrieve_relevant_context hash days_old similarity_search llm
           topic top_k true w) in
  (length (excerpts (fst run)) <= 5)%nat
  /\ 0 <= source_count (fst run) <= Z.of_nat (length docs)
  /\ trace (snd run) = trace w
  /\ llm_calls (snd run)
     = (llm_calls w + match docs with [] => 1 | _ => 2 end)%nat
  /\ (docs = [] ->
      summary (fst run) = "No relevant context found for '" +:+ topic +:+ "'")
  /\ (forall e,
        docs <> [] -> llm (S (llm_calls w)) = LLMError e ->
        fst run = {| summary := "Error retrieving context for '" +:+ topic
                                +:+ "': " +:+ e;
                     excerpts := []; source_count := 0 |})
  /\ (forall response,
        docs <> [] -> llm (S (llm_calls w)) = Reply response ->
        fst run = {| summary := fst (_parse_synthesis_response response);
                     excerpts := snd (_parse_synthesis_response response);
                     source_count := Z.of_nat (length docs) |}).
Proof.
  cbv zeta. rewrite search_and_synthesize_run. cbv zeta.
  destruct (fst (retrieve_relevant_context hash days_old similarity_search
                   llm topic top_k true w)) as [|d more].
  - cbn [fst snd excerpts source_count summary llm_calls trace length].
    repeat split; try lia; congruence.
  - cbn [fst snd llm_calls trace].
    destruct (llm (S (llm_calls w))) as [response | e];
      cbn [excerpts source_count summary].
    + pose proof (parsed_excerpts_bound response) as Hlen.
      repeat split; try lia; try congruence.
    + cbn [length]. repeat split; try lia; try congruence.
Qed.

(** X19, witness: the empty store. *)
Lemma retriever_agent_outcome_witness :
  summary (fst (search_and_synthesize sample_hash no_calendar
                  sample_month_year empty_store overhead_test failing_llm
                  "rust" (spec_with_bounds 1000 1500) 5 idle_world))
  = "No relevant context found for 'rust'".
Proof.
  apply (retriever_agent_outcome sample_hash no_calendar sample_month_year
           empty_store overhead_test failing_llm "rust"
           (spec_with_bounds 1000 1500) 5 idle_world).
  reflexivity.
Defined.

(** X20. With the retriever agent of the repository, the workflow leaves
    with [Failed to retrieve relevant context] only when documents were
    found, the endpoint answered the synthesis request, and the summary
    parsed from the answer is empty. An empty knowledge base and an error of
    the endpoint during synthesis both go on to composition. *)
Theorem retrieval_gate_trips_only_on_empty_synthesis
    (hash : string -> Z) (days_old : string -> option Z)
    (month_year : string -> option string)
    (similarity_search : string -> Z -> option (list Document))
    (within_overhead : Z -> Z -> bool) (llm : LLM)
    (ingest_final_content : Draft -> SpecData -> M IngestionResult)
    (max_iterations top_k_retrieval : Z)
    (topic : string) (spec_data : SpecData) (w : world) :
  let retriever :=
    search_and_synthesize hash days_old month_year similarity_search
      within_overhead llm in
  let result :=
    fst (generate_blog_post llm retriever ingest_final_content
           max_iterations top_k_retrieval topic spec_data w) in
  let docs :=
    fst (retrieve_relevant_context hash days_old similarity_search llm
           topic top_k_retrieval true w) in
  error result = Some "Failed to retrieve relevant context" ->
  docs <> []
  /\ exists response,
       llm (S (llm_calls w)) = Reply response
       /\ fst (_parse_synthesis_response response) = EmptyString.
Proof.
  cbv zeta. rewrite generate_blog_post_phases.
  destruct (make_spec (with_word_bounds spec_data)) as [spec |];
    [ | cbn; discriminate].
  cbv zeta. rewrite search_and_synthesize_run. cbv zeta.
  destruct (fst (retrieve_relevant_context hash days_old similarity_search
                   llm topic top_k_retrieval true w)) as [|d more].
  - cbn [fst snd summary].
    change ("No relevant context found for '" +:+ topic +:+ "'")
      with (String "N" ("o relevant context found for '" +:+ topic +:+ "'")).
    destruct (d_error _) as [e |]; [cbn; discriminate | ].
    cbn [fst]. destruct (negb _); cbn; discriminate.
  - cbn [fst snd].
    destruct (llm (S (llm_calls w))) as [response | e]; cbn [summary].
    + destruct (fst (_parse_synthesis_response response)) as [|c s] eqn:Hs.
      * intros _. split; [discriminate | ]. exists response.
        split; [reflexivity | exact Hs].
      * destruct (d_error _) as [e |]; [cbn; discriminate | ].
        cbn [fst]. destruct (negb _); cbn; discriminate.
    + change ("Error retrieving context for '" +:+ topic +:+ "': " +:+ e)
        with (String "E" ("rror retrieving context for '" +:+ topic
                          +:+ "': " +:+ e)).
      destruct (d_error _) as [e' |]; [cbn; discriminate | ].
      cbn [fst]. destruct (negb _); cbn; discriminate.
Qed.

(** X20, witness: an answer that lists an excerpt and no summary stops the
    workflow. *)
Lemma retrieval_gate_trips_only_on_empty_synthesis_witness :
  let store (q : string) (top_k : Z) : option (list Document) :=
    Some [sample_doc "Rust notes" None "rust tips"] in
  let llm : LLM :=
    fun n => Reply ("EXCERPTS:" +:+ Py.NL +:+ "- rust is fast") in
  error (fst (generate_blog_post llm
                (search_and_synthesize sample_hash no_calendar
                   sample_month_year store overhead_test llm)
                sample_ingestor 5 5 "rust" sample_spec_data idle_world))
  = Some "Failed to retrieve relevant context"
  /\ _parse_synthesis_response ("EXCERPTS:" +:+ Py.NL +:+ "- rust is fast")
     = (EmptyString, ["rust is fast"]).
Proof.
  intros store llm.
  assert (H : error (fst (generate_blog_post llm
                (search_and_synthesize sample_hash no_calendar
                   sample_month_year store overhead_test llm)
                sample_ingestor 5 5 "rust" sample_spec_data idle_world))
              = Some "Failed to retrieve relevant context")
    by (vm_compute; reflexivity).
  split; [exact H | ].
  destruct (retrieval_gate_trips_only_on_empty_synthesis _ _ _ _ _ _ _ _ _ _
              _ _ H) as (_ & response & Hr & Hs).
  injection Hr as <-.
  rewrite (surjective_pairing (_parse_synthesis_response _)), Hs.
  reflexivity.
Defined.

(** ** The research brief *)

Section BriefFacts.

Lemma prefix_refl (s : string) : String.prefix s s = true.
Proof.
  induction s as [|c r IH]; [reflexivity | ].
  rewrite prefix_cons. destruct (ascii_dec c c); [exact IH | congruence].
Qed.

Lemma brief_append_documents (current_section : brief_section)
    (content : string) (brief : ResearchBrief) :
  context_documents (brief_append current_section content brief)
  = context_documents brief.
Proof. destruct current_section; reflexivity. Qed.

Lemma brief_line_documents (raw : string)
    (st : ResearchBrief * option brief_section) :
  context_documents (fst (brief_line raw st)) = context_documents (fst st).
Proof.
  unfold brief_line. destruct (Py.strip raw); [reflexivity | ].
  repeat match goal with
         | |- context [if ?b then _ else _] => destruct b; [reflexivity | ]
         end.
  destruct (snd st); [ | reflexivity].
  destruct (String.prefix "-" _); [ | reflexivity].
  apply brief_append_documents.
Qed.

Lemma parse_brief_documents (response : string) (docs : list Document) :
  context_documents (parse_brief response docs) = docs.
Proof.
  unfold parse_brief.
  set (start := ({| key_themes := []; relevant_facts := [];
                    related_topics := []; gaps_identified := [];
                    recommended_focus := []; context_documents := docs |},
                 None)).
  change docs with (context_documents (fst start)).
  generalize start. generalize (Py.split_char Py.nl response).
  induction l as [|raw rest IH]; intros st; [reflexivity | ].
  cbn [fold_left]. rewrite IH. apply brief_line_documents.
Qed.

End BriefFacts.

Section ResearchFacts.

Context (hash : string -> Z) (days_old : string -> option Z).
Context (month_year : string -> option string).
Context (similarity_search : string -> Z -> option (list Document)).
Context (within_overhead : Z -> Z -> bool).
Context (llm : LLM).

Lemma gather_context_run (topic : string) (keywords : option (list string))
    (max_context_tokens : Z) (w : world) :
  exists search_query,
    String.prefix topic search_query = true
    /\ (keywords = None \/ keywords = Some [] -> search_query = topic)
    /\ gather_context_for_topic hash days_old month_year similarity_search
         within_overhead llm topic keywords max_context_tokens w
       = match fst (retrieve_relevant_context hash days_old
                      similarity_search llm search_query 10 true w) with
         | [] =>
             ({| key_themes := [];
                 relevant_facts :=
                   ["No relevant context found in knowledge base."];
                 related_topics := [];
                 gaps_identified := [];
                 recommended_focus := ["General overview of " +:+ topic];
                 context_documents := [] |},
              {| llm_calls := S (llm_calls w); trace := trace w |})
         | docs =>
             (match llm (S (llm_calls w)) with
              | Reply response => parse_brief response docs
              | LLMError _ =>
                  {| key_themes := [topic];
                     relevant_facts :=
                       ["Context available from knowledge base"];
                     related_topics := [];
                     gaps_identified := [];
                     recommended_focus :=
                       ["Comprehensive coverage of the topic"];
                     context_documents := docs |}
              end,
              {| llm_calls := S (S (llm_calls w)); trace := trace w |})
         end.
Proof.
  unfold gather_context_for_topic.
  set (search_query := match keywords with
                       | Some ((_ :: _) as ks) => _
                       | _ => topic
                       end).
  exists search_query. split; [ | split].
  - subst search_query. destruct keywords as [[|k ks] |];
      [apply prefix_refl | apply prefix_app | apply prefix_refl].
  - subst search_query. intros [-> | ->]; reflexivity.
  - unfold bind at 1.
    pose proof (retrieve_world hash days_old similarity_search llm
                  search_query 10 w) as Hw.
    destruct (retrieve_relevant_context hash days_old similarity_search llm
                search_query 10 true w) as [docs w1].
    cbn [fst snd] in Hw |- *. subst w1.
    destruct docs as [|d more]; [reflexivity | ].
    unfold bind, chat, ret. cbn [llm_calls trace].
    destruct (llm (S (llm_calls w))); reflexivity.
Qed.

End ResearchFacts.

Ltac brief_done :=
  repeat split;
  first [ reflexivity | cbn [length] in *; lia | congruence
        | intros; congruence ].

(** X21. The research brief. The search query starts with the topic and is
    the topic when there are no keywords. The brief always holds the
    documents retrieved for that query, at most ten; the endpoint is asked
    once when nothing is retrieved and twice otherwise, and no log line is
    written. With nothing retrieved the brief says so and recommends a
    general overview; when the endpoint fails, the topic is the only theme.
    *)
Theorem research_brief_keeps_the_documents
    (hash : string -> Z) (days_old : string -> option Z)
    (month_year : string -> option string)
    (similarity_search : string -> Z -> option (list Document))
    (within_overhead : Z -> Z -> bool) (llm : LLM)
    (topic : string) (keywords : option (list string))
    (max_context_tokens : Z) (w : world) :
  let run :=
    gather_context_for_topic hash days_old month_year similarity_search
      within_overhead llm topic keywords max_context_tokens w in
  exists search_query,
    String.prefix topic search_query = true
    /\ (keywords = None \/ keywords = Some [] -> search_query = topic)
    /\ let docs :=
         fst (retrieve_relevant_context hash days_old similarity_search llm
                search_query 10 true w) in
       context_documents (fst run) = docs
       /\ (length docs <= 10)%nat
       /\ trace (snd run) = trace w
       /\ llm_calls (snd run)
          = (llm_calls w + match docs with [] => 1 | _ => 2 end)%nat
       /\ (docs = [] ->
           relevant_facts (fst run)
           = ["No relevant context found in knowledge base."]
           /\ recommended_focus (fst run)
              = ["General overview of " +:+ topic])
       /\ (forall e,
             docs <> [] -> llm (S (llm_calls w)) = LLMError e ->
             key_themes (fst run) = [topic]
             /\ relevant_facts (fst run)
                = ["Context available from knowledge base"]).
Proof.
  cbv zeta.
  destruct (gather_context_run hash days_old month_year similarity_search
              within_overhead llm topic keywords max_context_tokens w)
    as (search_query & Hpre & Hplain & ->).
  exists search_query. split; [exact Hpre | ]. split; [exact Hplain | ].
  assert (Hlen := retrieved_length hash days_old similarity_search llm
                    search_query 10 true w ltac:(lia)).
  destruct (fst (retrieve_relevant_context hash days_old similarity_search
                   llm search_query 10 true w)) as [|d more].
  - cbn [fst snd context_documents llm_calls trace relevant_facts
           recommended_focus].
    brief_done.
  - cbn [fst snd llm_calls trace].
    destruct (llm (S (llm_calls w))) as [response | e].
    + rewrite parse_brief_documents. brief_done.
    + cbn [context_documents key_themes relevant_facts]. brief_done.
Qed.

(** X21, witness: one hit and the endpoint down. *)
Lemma research_brief_keeps_the_documents_witness :
  let run :=
    gather_context_for_topic sample_hash no_calendar sample_month_year
      one_hit_store overhead_test failing_llm "rust" None 3000 idle_world in
  key_themes (fst run) = ["rust"]
  /\ context_documents (fst run)
     = fst (retrieve_relevant_context sample_hash no_calendar one_hit_store
              failing_llm "rust" 10 true idle_world).
Proof.
  intros run.
  destruct (research_brief_keeps_the_documents sample_hash no_calendar
              sample_month_year one_hit_store overhead_test failing_llm
              "rust" None 3000 idle_world)
    as (q & _ & Hq & Hdocs & _ & _ & _ & _ & Hfail).
  rewrite (Hq (or_introl eq_refl)) in Hdocs, Hfail.
  split; [ | exact Hdocs].
  apply (Hfail "connection refused"); [vm_compute; discriminate | reflexivity].
Defined.

(** ** The chat client *)

Section ChatFacts.

Import LlmClient.

Context (transport : Transport) (max_retries : Z).
Context (retry_delay retry_backoff : Q) (model : string).

Local Abbreviation attempts_from a len := (map Z.of_nat (seq a len)).
Local Abbreviation run_from :=
  (chat_attempts transport max_retries retry_delay retry_backoff model).
Local Abbreviation delay := (backoff_delay retry_delay retry_backoff).

Ltac close_now :=
  cbn [fst snd requests sleeps seq map]; rewrite ?app_nil_r;
  repeat split; first [reflexivity | lia | intros; lia].

Lemma chat_attempts_spec (len a : nat) (n : net) :
  Z.of_nat (a + S len)%nat = max_retries ->
  exists k : nat,
    (k <= len)%nat
    /\ requests (snd (run_from (attempts_from a (S len)) n))
       = (requests n + S k)%nat
    /\ sleeps (snd (run_from (attempts_from a (S len)) n))
       = sleeps n ++ map delay (attempts_from a k)
    /\ (forall j, (j < k)%nat ->
                  transient (transport (requests n + j)%nat) = true)
    /\ settled max_retries model (a + S k)%nat
         (transport (requests n + k)%nat)
         (fst (run_from (attempts_from a (S len)) n)).
Proof.
  revert a n. induction len as [|len IH]; intros a n Hn.
  - exists 0%nat. cbn [seq map chat_attempts].
    rewrite Nat.add_0_r.
    assert (Hlast : (Z.of_nat a <? max_retries - 1) = false)
      by (apply Z.ltb_ge; lia).
    rewrite Hlast.
    destruct (transport (requests n)) as [status text content | | e];
      cbn [settled];
      [destruct (status =? 200); cbn [negb];
       [ | destruct (status =? 404)] | | ];
      close_now.
  - change (attempts_from a (S (S len)))
      with (Z.of_nat a :: attempts_from (S a) (S len)).
    cbn [chat_attempts].
    assert (Hmore : (Z.of_nat a <? max_retries - 1) = true)
      by (apply Z.ltb_lt; lia).
    rewrite Hmore.
    set (n1 := slept retry_delay retry_backoff (Z.of_nat a)
                 {| requests := S (requests n); sleeps := sleeps n |}).
    destruct (IH (S a) n1) as (k & Hk & Hreq & Hsl & Htr & Hset); [lia | ].
    assert (Hfirst : forall o, transport (requests n) = o ->
                               transient o = true ->
              exists k0 : nat,
                (k0 <= S len)%nat
                /\ requests (snd (run_from (attempts_from (S a) (S len)) n1))
                   = (requests n + S k0)%nat
                /\ sleeps (snd (run_from (attempts_from (S a) (S len)) n1))
                   = sleeps n ++ map delay (attempts_from a k0)
                /\ (forall j, (j < k0)%nat ->
                      transient (transport (requests n + j)%nat) = true)
                /\ settled max_retries model (a + S k0)%nat
                     (transport (requests n + k0)%nat)
                     (fst (run_from (attempts_from (S a) (S len)) n1))).
    { intros o Ho Hto. exists (S k).
      split; [lia | ]. split; [rewrite Hreq; cbn [n1 slept requests]; lia | ].
      split.
      - rewrite Hsl. cbn [n1 slept sleeps seq map].
        rewrite <- app_assoc. reflexivity.
      - split.
        + intros j Hj. destruct j as [|j].
          * rewrite Nat.add_0_r, Ho. exact Hto.
          * replace (requests n + S j)%nat with (requests n1 + j)%nat
              by (cbn [n1 slept requests]; lia).
            apply Htr. lia.
        + replace (requests n + S k)%nat with (requests n1 + k)%nat
            by (cbn [n1 slept requests]; lia).
          replace (a + S (S k))%nat with (S a + S k)%nat by lia.
          exact Hset. }
    destruct (transport (requests n)) as [status text content | | e] eqn:Ho.
    + exists 0%nat. rewrite Nat.add_0_r, Ho. cbn [settled].
      destruct (status =? 200); cbn [negb]; [ | destruct (status =? 404)];
        close_now.
    + apply (Hfirst _ eq_refl eq_refl).
    + apply (Hfirst _ eq_refl eq_refl).
Qed.

Lemma chat_no_attempts (n : net) :
  max_retries <= 0 ->
  chat transport max_retries retry_delay retry_backoff model n
  = (Returned None, n).
Proof.
  intros H. unfold chat. rewrite (range_nonpositive _ H). reflexivity.
Qed.

Lemma chat_some_attempts (n : net) :
  0 < max_retries ->
  chat transport max_retries retry_delay retry_backoff model n
  = run_from (attempts_from 0 (S (Z.to_nat max_retries - 1))) n.
Proof.
  intros H. unfold chat, range.
  replace (Z.to_nat max_retries) with (S (Z.to_nat max_retries - 1)) at 1
    by lia.
  reflexivity.
Qed.

Lemma settled_not_none (sent : nat) (o : http_outcome) :
  settled max_retries model sent o (Returned None) -> False.
Proof.
  destruct o as [status text content | | e]; cbn [settled].
  - destruct (status =? 200); [discriminate | ].
    destruct (status =? 404); discriminate.
  - intros [_ H]. discriminate H.
  - intros [_ H]. discriminate H.
Qed.

End ChatFacts.

(** X22. [chat] with at least one attempt configured sends between 1 and
    [max_retries] requests; every request but the last ended in a timeout or
    a request error; the outcome of the last decides the result: a 200
    response returns its content, a 404 raises [ModelNotFoundError], any
    other status raises [OllamaError] with the status and the text, and a
    timeout or request error is raised as [OllamaError] only on the last
    configured attempt. A response that is not 200 is never retried. *)
Theorem chat_outcome_follows_last_response
    (transport : LlmClient.Transport) (max_retries : Z)
    (retry_delay retry_backoff : Q) (model : string) (n : LlmClient.net) :
  0 < max_retries ->
  let run :=
    LlmClient.chat transport max_retries retry_delay retry_backoff model n in
  exists k : nat,
    Z.of_nat k < max_retries
    /\ LlmClient.requests (snd run) = (LlmClient.requests n + S k)%nat
    /\ (forall j, (j < k)%nat ->
                  transient (transport (LlmClient.requests n + j)%nat) = true)
    /\ settled max_retries model (S k)
         (transport (LlmClient.requests n + k)%nat) (fst run).
Proof.
  intros Hpos. cbv zeta. rewrite chat_some_attempts by exact Hpos.
  destruct (chat_attempts_spec transport max_retries retry_delay
              retry_backoff model (Z.to_nat max_retries - 1) 0 n)
    as (k & Hk & Hreq & _ & Htr & Hset); [lia | ].
  exists k. split; [lia | ]. split; [exact Hreq | ].
  split; [exact Htr | exact Hset].
Qed.

(** X22, witness: two timeouts, then an answer. *)
Lemma chat_outcome_follows_last_response_witness :
  LlmClient.chat flaky_transport 3 1 2 "llama3" fresh_net
  = (LlmClient.Returned (Some "hello"),
     {| LlmClient.requests := 3; LlmClient.sleeps := [1%Q; 2%Q] |})
  /\ exists k : nat,
       Z.of_nat k < 3
       /\ LlmClient.requests
            (snd (LlmClient.chat flaky_transport 3 1 2 "llama3" fresh_net))
          = S k.
Proof.
  split; [vm_compute; reflexivity | ].
  assert (H : 0 < 3) by lia.
  destruct (chat_outcome_follows_last_response flaky_transport 3 1 2 "llama3"
              fresh_net H) as (k & Hk & Hreq & _).
  exists k. split; [exact Hk | exact Hreq].
Defined.

(** X23. The retry schedule of [chat]. It sends at most [max_retries]
    requests and sleeps once between two requests, never after the last: the
    delays are [retry_delay * retry_backoff ** attempt] for attempt 0, 1,
    ... . It returns nothing, without raising, exactly when [max_retries] is
    not positive, and then sends no request. *)
Theorem chat_retry_schedule
    (transport : LlmClient.Transport) (max_retries : Z)
    (retry_delay retry_backoff : Q) (model : string) (n : LlmClient.net) :
  let run :=
    LlmClient.chat transport max_retries retry_delay retry_backoff model n in
  exists k : nat,
    LlmClient.requests (snd run) = (LlmClient.requests n + k)%nat
    /\ Z.of_nat k <= Z.max 0 max_retries
    /\ LlmClient.sleeps (snd run)
       = LlmClient.sleeps n
         ++ map (LlmClient.backoff_delay retry_delay retry_backoff)
                (range (Z.of_nat k - 1))
    /\ (fst run = LlmClient.Returned None <-> max_retries <= 0)
    /\ (max_retries <= 0 -> snd run = n).
Proof.
  cbv zeta. destruct (Z.le_gt_cases max_retries 0) as [Hle | Hpos].
  - rewrite chat_no_attempts by exact Hle. exists 0%nat. cbn [fst snd].
    split; [lia | ]. split; [lia | ].
    split; [cbn; rewrite app_nil_r; reflexivity | ].
    split; [tauto | reflexivity].
  - rewrite chat_some_attempts by lia.
    destruct (chat_attempts_spec transport max_retries retry_delay
                retry_backoff model (Z.to_nat max_retries - 1) 0 n)
      as (k & Hk & Hreq & Hsl & _ & Hset); [lia | ].
    exists (S k). split; [exact Hreq | ]. split; [lia | ].
    split.
    + rewrite Hsl. unfold range.
      replace (Z.to_nat (Z.of_nat (S k) - 1)) with k by lia. reflexivity.
    + split; [ | lia]. split; [ | lia].
      intros Hnone. rewrite Hnone in Hset.
      apply settled_not_none in Hset. contradiction.
Qed.

(** X23, witness: no attempt configured. *)
Lemma chat_retry_schedule_witness :
  LlmClient.chat flaky_transport 0 1 2 "llama3" fresh_net
  = (LlmClient.Returned None, fresh_net).
Proof.
  destruct (chat_retry_schedule flaky_transport 0 1 2 "llama3" fresh_net)
    as (k & _ & _ & _ & Hnone & Hnet).
  rewrite (surjective_pairing (LlmClient.chat _ _ _ _ _ _)).
  rewrite (proj2 Hnone), Hnet by lia. reflexivity.
Defined.
